(** * charly_post: a G-code post-processor for the Charly robot

    Shallow embedding of [src/charly_post.py] and the properties of its
    command emission engine ([parse]), canned-cycle expander
    ([drill_translate]) and top-level assembly ([export]).

    Modelling conventions
    - Python [str] is [string]; a Python [list] of strings is [list string];
      a parameter dictionary is a [gmap string Q].
    - A character is a code point below 256.
    - Python [float] and FreeCAD [Units.Quantity] values are rationals [Q]:
      a quantity is represented by its value in FreeCAD's internal unit (mm
      for lengths, mm/s for velocities), which is what [float(q)] returns.
      Sums and differences of quantities are rounded to the nearest double
      ([Py.to_double]), as the machine does; the unit conversions of
      [getValueAs], which FreeCAD makes, are taken exact.
    - [CURRENT_X], [CURRENT_Y] and [CURRENT_Z] hold the int 0 right after
      import and a Quantity once a motion command has named the axis.  The
      code only ever takes [float()] of [CURRENT_X] and [CURRENT_Y] or adds
      them to a Quantity, so they are kept as their value; on [CURRENT_Z]
      it also calls [getValueAs], which an int does not have, so
      [CURRENT_Z] keeps its Python type ([Units.Number]).  Where an int
      meets a Quantity in a sum or a comparison, which is FreeCAD's
      business, the int counts as that many millimetres.
    - [PRECISION] is a number of digits (the argument parser hands it over
      as its decimal string).
    - The module-level globals that some function assigns form the record
      [Globals]; every function is written in a state-and-exception monad
      over it.  Globals that are never assigned are plain constants.
    - The [while 1] loop of the peck cycle is run with fuel.
    - [print] calls are left out; the text [export] writes to its file is
      the value it returns here. *)

From Stdlib Require Import ZArith QArith Qabs Qround Lqa String Ascii List.
From Stdlib Require Import DecimalString DecimalZ DecimalPos Lia Bool.
From stdpp Require Import gmap strings list fin_maps.
Import ListNotations.

Local Open Scope string_scope.
Local Open Scope Z_scope.

(** ** The Python runtime pieces the program relies on *)

Module Py.

(** [str(n)] for a Python int. *)
Definition str_int (n : Z) : string := NilZero.string_of_int (Z.to_int n).

(** Characters removed by [str.strip()], those [str.isspace] holds of:
    below 256 they are the ASCII white space (9 to 13, 28 to 31, 32), the
    next-line character U+0085 and the no-break space U+00A0. *)
Definition is_space (c : ascii) : bool :=
  let n := nat_of_ascii c in
  (Nat.eqb n 32 || (Nat.leb 9 n && Nat.leb n 13) || (Nat.leb 28 n && Nat.leb n 31)
   || Nat.eqb n 133 || Nat.eqb n 160)%bool.

Fixpoint lstrip (s : string) : string :=
  match s with
  | String c r => if is_space c then lstrip r else s
  | EmptyString => EmptyString
  end.

Fixpoint rev_string_onto (s acc : string) : string :=
  match s with
  | String c r => rev_string_onto r (String c acc)
  | EmptyString => acc
  end.

Definition rev_string (s : string) : string := rev_string_onto s EmptyString.

Definition rstrip (s : string) : string := rev_string (lstrip (rev_string s)).

(** [s.strip()] *)
Definition strip (s : string) : string := rstrip (lstrip s).

(** Line boundaries of [str.splitlines] other than a carriage return:
    line feed, vertical tab, form feed, the separators 28 to 30 and the
    next-line character U+0085. *)
Definition is_linebreak (c : ascii) : bool :=
  let n := nat_of_ascii c in
  (Nat.eqb n 10 || Nat.eqb n 11 || Nat.eqb n 12 || (Nat.leb 28 n && Nat.leb n 30)
   || Nat.eqb n 133)%bool.

Definition snoc (s : string) (c : ascii) : string := s ++ String c EmptyString.

Fixpoint splitlines_from (cur s : string) : list string :=
  match s with
  | EmptyString => match cur with EmptyString => [] | _ => [cur] end
  | String c rest =>
      if Nat.eqb (nat_of_ascii c) 13 then
        match rest with
        | String c' rest' =>
            if Nat.eqb (nat_of_ascii c') 10
            then snoc (snoc cur c) c' :: splitlines_from EmptyString rest'
            else snoc cur c :: splitlines_from EmptyString rest
        | EmptyString => [snoc cur c]
        end
      else if is_linebreak c then snoc cur c :: splitlines_from EmptyString rest
      else splitlines_from (snoc cur c) rest
  end.

(** [s.splitlines(True)]: the lines of [s], each keeping its line end. *)
Definition splitlines_keepends (s : string) : list string :=
  splitlines_from EmptyString s.

(** [needle in hay] on strings. *)
Fixpoint str_in (needle hay : string) : bool :=
  (String.prefix needle hay ||
   match hay with
   | String _ r => str_in needle r
   | EmptyString => false
   end)%bool.

(** [x in l] for a list or tuple of strings. *)
Definition in_list (x : string) (l : list string) : bool :=
  existsb (String.eqb x) l.

(** [l.insert(i, x)] for [i >= 0]: an index past the end appends. *)
Definition list_insert {A} (i : nat) (x : A) (l : list A) : list A :=
  firstn i l ++ x :: skipn i l.

(** [l.append(x)] *)
Definition list_append {A} (l : list A) (x : A) : list A := (l ++ [x])%list.

(** Comparison of numbers. *)
Definition Qltb (a b : Q) : bool := negb (Qle_bool b a).
Definition Qgeb (a b : Q) : bool := Qle_bool b a.
Definition Qgtb (a b : Q) : bool := negb (Qle_bool a b).

(** Nearest integer of a non-negative rational, ties to even. *)
Definition round_half_even (q : Q) : Z :=
  let n := Qnum q in
  let d := Z.pos (Qden q) in
  let fl := n / d in
  let r2 := 2 * (n mod d) in
  if r2 <? d then fl
  else if d <? r2 then fl + 1
  else if Z.even fl then fl else fl + 1.

(** [2 ** k] for an integer [k]. *)
Definition pow2 (k : Z) : Q :=
  if 0 <=? k then inject_Z (2 ^ k) else Qmake 1 (Z.to_pos (2 ^ (- k))).

(** The integer part of the binary logarithm of a positive rational. *)
Definition ilog2 (q : Q) : Z :=
  let e := Z.log2 (Qnum q) - Z.log2 (Z.pos (Qden q)) in
  if Qle_bool (pow2 e) q then e else e - 1.

(** The double (IEEE 754 binary64) nearest to [q], ties to even: 53
    significant bits, and the fixed spacing [2 ** -1074] below
    [2 ** -1022].  A magnitude beyond the largest double, where the
    machine gives an infinity, is rounded the same way. *)
Definition to_double (q : Q) : Q :=
  if Qeq_bool q 0 then 0%Q
  else
    let a := Qabs q in
    let k := Z.max (ilog2 a - 52) (-1074) in
    let m := round_half_even (a / pow2 k) in
    let r := (inject_Z m * pow2 k)%Q in
    Qred (if Qnum q <? 0 then - r else r).

Fixpoint zeros (n : nat) : string :=
  match n with O => EmptyString | S k => String "0" (zeros k) end.

Definition zero_pad (width : nat) (s : string) : string :=
  zeros (width - String.length s) ++ s.

(** [format(x, '.<prec>f')]: fixed-point notation with [prec] decimals. *)
Definition format_f (prec : nat) (x : Q) : string :=
  let scale := 10 ^ Z.of_nat prec in
  let n := round_half_even (Qabs x * inject_Z scale) in
  let sign := if Qnum x <? 0 then "-" else "" in
  let frac := match prec with
              | O => ""
              | _ => "." ++ zero_pad prec (str_int (n mod scale))
              end in
  sign ++ str_int (n / scale) ++ frac.

Definition digit (d : Z) : string := str_int d.

Fixpoint frac_digits (fuel : nat) (r d : Z) : string :=
  match fuel with
  | O => ""
  | S f => if r =? 0 then ""
           else digit (10 * r / d) ++ frac_digits f ((10 * r) mod d) d
  end.

(** [str(x)] for a float, in positional notation: the integer part, a
    point and the decimal expansion ("1.0", "0.5", "2.25"), cut after 17
    digits.  Python agrees for the magnitudes it prints without an
    exponent. *)
Definition str_float (x : Q) : string :=
  let a := Qabs x in
  let n := Qnum a in
  let d := Z.pos (Qden a) in
  let sign := if Qnum x <? 0 then "-" else "" in
  let r := n mod d in
  sign ++ str_int (n / d) ++ "." ++ (if r =? 0 then "0" else frac_digits 17 r d).

End Py.

(** ** FreeCAD quantities *)

Module Units.

(** A [Units.Quantity] of kind Length or Velocity, as its value in the
    internal unit (mm, mm/s). *)
Definition Quantity := Q.

(** [a + b] and [a - b] on quantities: the values are doubles. *)
Definition add (a b : Q) : Q := Py.to_double (a + b).
Definition sub (a b : Q) : Q := Py.to_double (a - b).
Arguments add (a b)%_Q.
Arguments sub (a b)%_Q.

(** What [CURRENT_Z] holds, and [RETRACT_Z] once line 480 has rebound it
    to [CURRENT_Z]: the int of line 99, or a Quantity. *)
Inductive Number :=
| Int (n : Z)
| Qty (q : Q).
Arguments Qty q%_Q.

(** [float(v)]; for a Quantity, its value in mm. *)
Definition float_of (v : Number) : Q :=
  match v with
  | Int n => inject_Z n
  | Qty q => q
  end.

(** [q.getValueAs(unit)] for the four units the program ever asks for. *)
Definition getValueAs (q : Quantity) (unit : string) : Q :=
  if String.eqb unit "mm" then q
  else if String.eqb unit "in" then (q / (254 # 10))%Q
  else if String.eqb unit "mm/min" then (q * 60)%Q
  else if String.eqb unit "in/min" then (q * 60 / (254 # 10))%Q
  else q.

End Units.

(** ** Data model *)

Definition nl : string := String (ascii_of_nat 10) EmptyString.

(** A [Path.Command]: its name and its parameter dictionary. *)
Record Command := mkCommand {
  Name : string;
  Parameters : gmap string Q
}.

(** An object handed to the post-processor, told apart the way the code
    does it, by [hasattr]: an object with a [Group] attribute (a compound
    or project, which may or may not have a [Path] too), an object with a
    [Path] only, and anything else (stock and the like). *)
#[warnings="-register-all"]
Inductive PathNode :=
| Compound (Label : string) (has_Path : bool) (Group : list PathNode)
| Leaf (Label : string) (Commands : list Command)
| Other (Label : string).

Definition hasattr_Path (obj : PathNode) : bool :=
  match obj with
  | Compound _ p _ => p
  | Leaf _ _ => true
  | Other _ => false
  end.

Definition Label_of (obj : PathNode) : string :=
  match obj with
  | Compound l _ _ | Leaf l _ | Other l => l
  end.

(** The globals that are assigned somewhere in the module. *)
Record Globals := mkGlobals {
  OUTPUT_HEADER : bool;
  OUTPUT_COMMENTS : bool;
  OUTPUT_LINE_NUMBERS : bool;
  SHOW_EDITOR : bool;
  PRECISION : nat;
  PREAMBLE : string;
  POSTAMBLE : string;
  LINENR : Z;
  START_OR_M6 : bool;
  DRILL_RETRACT_MODE : string;
  MOTION_MODE : string;
  UNITS : string;
  UNIT_FORMAT : string;
  UNIT_SPEED_FORMAT : string;
  CURRENT_X : Q;
  CURRENT_Y : Q;
  CURRENT_Z : Units.Number
}.

(** The globals that are only read. *)
Definition OUTPUT_TOOL_CHANGE : bool := true.
Definition MODAL : bool := true.
Definition COMMAND_SPACE : string := " ".
Definition LINEINCR : Z := 10.
Definition MOTION_COMMANDS : list string :=
  ["G0"; "G00"; "G1"; "G01"; "G2"; "G02"; "G3"; "G03"].
Definition RAPID_MOVES : list string := ["G0"; "G00"].
Definition MODAL_COMMANDS : list string := ["G0"; "G00"; "G1"; "G01"].
Definition SUPPRESS_COMMANDS : list string :=
  ["G98"; "G99"; "G80"; "G17"; "G53"; "G54"; "G55"; "G56"; "G57"; "G58"; "G59"].
Definition PRE_OPERATION : string := "".
Definition POST_OPERATION : string := "".
Definition TOOL_CHANGE : string := "".
Definition module_name : string := "charly_post".

(** The module as it is right after import. *)
Definition initial_globals : Globals := {|
  OUTPUT_HEADER := true; OUTPUT_COMMENTS := true; OUTPUT_LINE_NUMBERS := true;
  SHOW_EDITOR := true; PRECISION := 3; PREAMBLE := "";
  POSTAMBLE := "M5" ++ nl ++ "M2" ++ nl;
  LINENR := 10; START_OR_M6 := true; DRILL_RETRACT_MODE := "G98";
  MOTION_MODE := "G90"; UNITS := "G71"; UNIT_FORMAT := "mm";
  UNIT_SPEED_FORMAT := "mm/min";
  CURRENT_X := 0%Q; CURRENT_Y := 0%Q; CURRENT_Z := Units.Int 0 |}.

Definition set_OUTPUT_HEADER (v : bool) (g : Globals) : Globals :=
  let 'mkGlobals _ a2 a3 a4 a5 a6 a7 a8 a9 a10 a11 a12 a13 a14 a15 a16 a17 := g in
  mkGlobals v a2 a3 a4 a5 a6 a7 a8 a9 a10 a11 a12 a13 a14 a15 a16 a17.
Definition set_OUTPUT_COMMENTS (v : bool) (g : Globals) : Globals :=
  let 'mkGlobals a1 _ a3 a4 a5 a6 a7 a8 a9 a10 a11 a12 a13 a14 a15 a16 a17 := g in
  mkGlobals a1 v a3 a4 a5 a6 a7 a8 a9 a10 a11 a12 a13 a14 a15 a16 a17.
Definition set_OUTPUT_LINE_NUMBERS (v : bool) (g : Globals) : Globals :=
  let 'mkGlobals a1 a2 _ a4 a5 a6 a7 a8 a9 a10 a11 a12 a13 a14 a15 a16 a17 := g in
  mkGlobals a1 a2 v a4 a5 a6 a7 a8 a9 a10 a11 a12 a13 a14 a15 a16 a17.
Definition set_SHOW_EDITOR (v : bool) (g : Globals) : Globals :=
  let 'mkGlobals a1 a2 a3 _ a5 a6 a7 a8 a9 a10 a11 a12 a13 a14 a15 a16 a17 := g in
  mkGlobals a1 a2 a3 v a5 a6 a7 a8 a9 a10 a11 a12 a13 a14 a15 a16 a17.
Definition set_PRECISION (v : nat) (g : Globals) : Globals :=
  let 'mkGlobals a1 a2 a3 a4 _ a6 a7 a8 a9 a10 a11 a12 a13 a14 a15 a16 a17 := g in
  mkGlobals a1 a2 a3 a4 v a6 a7 a8 a9 a10 a11 a12 a13 a14 a15 a16 a17.
Definition set_PREAMBLE (v : string) (g : Globals) : Globals :=
  let 'mkGlobals a1 a2 a3 a4 a5 _ a7 a8 a9 a10 a11 a12 a13 a14 a15 a16 a17 := g in
  mkGlobals a1 a2 a3 a4 a5 v a7 a8 a9 a10 a11 a12 a13 a14 a15 a16 a17.
Definition set_POSTAMBLE (v : string) (g : Globals) : Globals :=
  let 'mkGlobals a1 a2 a3 a4 a5 a6 _ a8 a9 a10 a11 a12 a13 a14 a15 a16 a17 := g in
  mkGlobals a1 a2 a3 a4 a5 a6 v a8 a9 a10 a11 a12 a13 a14 a15 a16 a17.
Definition set_LINENR (v : Z) (g : Globals) : Globals :=
  let 'mkGlobals a1 a2 a3 a4 a5 a6 a7 _ a9 a10 a11 a12 a13 a14 a15 a16 a17 := g in
  mkGlobals a1 a2 a3 a4 a5 a6 a7 v a9 a10 a11 a12 a13 a14 a15 a16 a17.
Definition set_START_OR_M6 (v : bool) (g : Globals) : Globals :=
  let 'mkGlobals a1 a2 a3 a4 a5 a6 a7 a8 _ a10 a11 a12 a13 a14 a15 a16 a17 := g in
  mkGlobals a1 a2 a3 a4 a5 a6 a7 a8 v a10 a11 a12 a13 a14 a15 a16 a17.
Definition set_DRILL_RETRACT_MODE (v : string) (g : Globals) : Globals :=
  let 'mkGlobals a1 a2 a3 a4 a5 a6 a7 a8 a9 _ a11 a12 a13 a14 a15 a16 a17 := g in
  mkGlobals a1 a2 a3 a4 a5 a6 a7 a8 a9 v a11 a12 a13 a14 a15 a16 a17.
Definition set_MOTION_MODE (v : string) (g : Globals) : Globals :=
  let 'mkGlobals a1 a2 a3 a4 a5 a6 a7 a8 a9 a10 _ a12 a13 a14 a15 a16 a17 := g in
  mkGlobals a1 a2 a3 a4 a5 a6 a7 a8 a9 a10 v a12 a13 a14 a15 a16 a17.
Definition set_UNITS (v : string) (g : Globals) : Globals :=
  let 'mkGlobals a1 a2 a3 a4 a5 a6 a7 a8 a9 a10 a11 _ a13 a14 a15 a16 a17 := g in
  mkGlobals a1 a2 a3 a4 a5 a6 a7 a8 a9 a10 a11 v a13 a14 a15 a16 a17.
Definition set_UNIT_FORMAT (v : string) (g : Globals) : Globals :=
  let 'mkGlobals a1 a2 a3 a4 a5 a6 a7 a8 a9 a10 a11 a12 _ a14 a15 a16 a17 := g in
  mkGlobals a1 a2 a3 a4 a5 a6 a7 a8 a9 a10 a11 a12 v a14 a15 a16 a17.
Definition set_UNIT_SPEED_FORMAT (v : string) (g : Globals) : Globals :=
  let 'mkGlobals a1 a2 a3 a4 a5 a6 a7 a8 a9 a10 a11 a12 a13 _ a15 a16 a17 := g in
  mkGlobals a1 a2 a3 a4 a5 a6 a7 a8 a9 a10 a11 a12 a13 v a15 a16 a17.
Definition set_CURRENT_X (v : Q) (g : Globals) : Globals :=
  let 'mkGlobals a1 a2 a3 a4 a5 a6 a7 a8 a9 a10 a11 a12 a13 a14 _ a16 a17 := g in
  mkGlobals a1 a2 a3 a4 a5 a6 a7 a8 a9 a10 a11 a12 a13 a14 v a16 a17.
Definition set_CURRENT_Y (v : Q) (g : Globals) : Globals :=
  let 'mkGlobals a1 a2 a3 a4 a5 a6 a7 a8 a9 a10 a11 a12 a13 a14 a15 _ a17 := g in
  mkGlobals a1 a2 a3 a4 a5 a6 a7 a8 a9 a10 a11 a12 a13 a14 a15 v a17.
Definition set_CURRENT_Z (v : Units.Number) (g : Globals) : Globals :=
  let 'mkGlobals a1 a2 a3 a4 a5 a6 a7 a8 a9 a10 a11 a12 a13 a14 a15 a16 _ := g in
  mkGlobals a1 a2 a3 a4 a5 a6 a7 a8 a9 a10 a11 a12 a13 a14 a15 a16 v.

(** ** The state-and-exception monad *)

Inductive exn :=
| KeyError (key : string)
| TypeError (msg : string)
| IndexError (msg : string)
| UnboundLocalError (name : string)
| AttributeError (msg : string)
| SystemExit (code : Z).

(** A computation ends with a value, with an exception, or runs out of
    fuel (the peck loop did not stop within the given number of rounds). *)
Inductive Res (A : Type) :=
| Ok (a : A) (g : Globals)
| Raise (e : exn) (g : Globals)
| OutOfFuel.
Arguments Ok {A} a g.
Arguments Raise {A} e g.
Arguments OutOfFuel {A}.

Definition M (A : Type) : Type := Globals -> Res A.

Definition ret {A} (a : A) : M A := fun g => Ok a g.

Definition bind {A B} (m : M A) (k : A -> M B) : M B :=
  fun g => match m g with
           | Ok a g' => k a g'
           | Raise e g' => Raise e g'
           | OutOfFuel => OutOfFuel
           end.

Definition raise {A} (e : exn) : M A := fun g => Raise e g.
Definition gets {A} (f : Globals -> A) : M A := fun g => Ok (f g) g.
Definition modify (f : Globals -> Globals) : M unit := fun g => Ok tt (f g).
Definition out_of_fuel {A} : M A := fun _ => OutOfFuel.

Declare Scope py_scope.
Delimit Scope py_scope with py.
Notation "x <- c1 ;; c2" := (bind c1 (fun x => c2))
  (at level 100, c1 at next level, right associativity) : py_scope.
Notation "c1 ;; c2" := (bind c1 (fun _ => c2))
  (at level 100, right associativity) : py_scope.
Local Open Scope py_scope.

(** [for x in xs: acc = body(x, acc)] *)
Fixpoint for_each {A S} (xs : list A) (body : A -> S -> M S) (acc : S) : M S :=
  match xs with
  | [] => ret acc
  | x :: xs' => acc' <- body x acc ;; for_each xs' body acc'
  end.

(** [d[k]] on a dictionary. *)
Definition getitem (d : gmap string Q) (k : string) : M Q :=
  match d !! k with
  | Some v => ret v
  | None => raise (KeyError k)
  end.

(** [v.getValueAs(unit)]: an int has no such method. *)
Definition getValueAs_of (v : Units.Number) (unit : string) : M Q :=
  match v with
  | Units.Qty q => ret (Units.getValueAs q unit)
  | Units.Int _ => raise (AttributeError "'int' object has no attribute 'getValueAs'")
  end.

(** [k in d] on a dictionary. *)
Definition has_key (k : string) (d : gmap string Q) : bool :=
  match d !! k with Some _ => true | None => false end.

(** [l.pop(0)], the popped element dropped. *)
Definition pop0 (l : list string) : M (list string) :=
  match l with
  | _ :: r => ret r
  | [] => raise (IndexError "pop from empty list")
  end.

(** The variable [out] of [parse]: a [str], until the message branch
    rebinds it to a list; [out += s] on a list appends the characters of
    [s] one by one. *)
Inductive PyOut :=
| OStr (s : string)
| OList (l : list string).

Definition chars (s : string) : list string :=
  map (fun c => String c EmptyString) (list_ascii_of_string s).

Definition iadd (out : PyOut) (s : string) : PyOut :=
  match out with
  | OStr t => OStr (t ++ s)
  | OList l => OList (l ++ chars s)
  end.

(** [acc += v] where [acc] is a [str]: a list on the right is a TypeError. *)
Definition str_iadd (acc : string) (v : PyOut) : M string :=
  match v with
  | OStr s => ret (acc ++ s)
  | OList _ => raise (TypeError "can only concatenate str (not list) to str")
  end.

(** ** The program *)

(** [linenumber()], lines 267-274. *)
Definition linenumber : M string :=
  numbering <- gets OUTPUT_LINE_NUMBERS ;;
  if numbering then
    n <- gets LINENR ;;
    modify (set_LINENR (n + LINEINCR)) ;;
    ret ("N" ++ Py.str_int n ++ " ")
  else ret "".

(** [format_outstring(strTbl)], lines 277-284. *)
Definition format_outstring (strTbl : list string) : string :=
  Py.strip (fold_left (fun s w => s ++ w ++ COMMAND_SPACE) strTbl "").

(** The recurring right-hand side [linenumber() + text]. *)
Definition numbered (text : string) : M string :=
  s <- linenumber ;; ret (s ++ text).

(** [for line in text.splitlines(True): out += linenumber() + line] *)
Definition emit_block (text : string) (out : PyOut) : M PyOut :=
  for_each (Py.splitlines_keepends text)
           (fun line o => s <- numbered line ;; ret (iadd o s)) out.

(** The order in which [parse] writes the parameters of a command. *)
Definition params_order : list string :=
  ["X"; "Y"; "Z"; "A"; "B"; "I"; "J"; "F"; "S"; "T"; "Q"; "R"; "L"; "P"].

(** One round of the parameter loop of [parse], lines 351-371. *)
Definition add_parameter (g : Globals) (command : string) (c : Command)
    (outstring : list string) (param : string) : list string :=
  match Parameters c !! param with
  | None => outstring
  | Some v =>
      let precision_string := Py.format_f (PRECISION g) in
      if String.eqb param "I" then
        let pos := Units.add v (CURRENT_X g) in
        Py.list_append outstring (param ++ precision_string (Units.getValueAs pos (UNIT_FORMAT g)))
      else if String.eqb param "J" then
        let pos := Units.add v (CURRENT_Y g) in
        Py.list_append outstring (param ++ precision_string (Units.getValueAs pos (UNIT_FORMAT g)))
      else if String.eqb param "F" then
        if negb (Py.in_list command RAPID_MOVES) then
          if Py.Qgtb (Units.getValueAs v (UNIT_SPEED_FORMAT g)) 0 then
            Py.list_append outstring (param ++ precision_string (Units.getValueAs v (UNIT_SPEED_FORMAT g)))
          else outstring
        else outstring
      else if Py.in_list param ["T"; "H"; "D"; "S"; "P"; "L"] then
        Py.list_append outstring (param ++ Py.str_float v)
      else if Py.in_list param ["A"; "B"; "C"] then
        Py.list_append outstring (param ++ precision_string v)
      else
        Py.list_append outstring (param ++ precision_string (Units.getValueAs v (UNIT_FORMAT g)))
  end.

(** The parameter loop of [parse], lines 350-371. *)
Definition add_parameters (g : Globals) (command : string) (c : Command)
    (outstring : list string) : list string :=
  fold_left (add_parameter g command c) params_order outstring.

(** The tool-change block of [parse], lines 332-342. *)
Definition tool_change (command : string) (out : PyOut) (outstring : list string)
  : M (PyOut * list string) :=
  if Py.in_list command ["M6"; "M06"] then
    comments <- gets OUTPUT_COMMENTS ;;
    out <- (if comments
            then s <- numbered ("(begin toolchange)" ++ nl) ;; ret (iadd out s)
            else ret out) ;;
    r <- (if negb OUTPUT_TOOL_CHANGE
          then ret (out, Py.list_append (Py.list_insert 0 "(" outstring) ")")
          else out' <- emit_block TOOL_CHANGE out ;; ret (out', outstring)) ;;
    modify (set_START_OR_M6 true) ;;
    ret r
  else ret (out, outstring).

(** The keys of a dictionary, as [for p in d] visits them. *)
Definition keys (d : gmap string Q) : list string := (map_to_list d).*1.

(** [len(list(d.values()))] *)
Definition len_values (d : gmap string Q) : nat := length (map_to_list d).*2.

(** The motion block of [parse], lines 376-411. *)
Definition motion_bookkeeping (command : string) (c : Command) (outstring : list string)
  : M (list string) :=
  if Py.in_list command MOTION_COMMANDS then
    let outstring := if Nat.eqb (len_values (Parameters c)) 0 then [] else outstring in
    match Parameters c !! "X" with
    | Some v => modify (set_CURRENT_X v) | None => ret tt end ;;
    match Parameters c !! "Y" with
    | Some v => modify (set_CURRENT_Y v) | None => ret tt end ;;
    match Parameters c !! "Z" with
    | Some v => modify (set_CURRENT_Z (Units.Qty v)) | None => ret tt end ;;
    force <- gets START_OR_M6 ;;
    if force then
      let x_ok := existsb (fun p => String.eqb p "X") (keys (Parameters c)) in
      let y_ok := existsb (fun p => String.eqb p "Y") (keys (Parameters c)) in
      let z_ok := existsb (fun p => String.eqb p "Z") (keys (Parameters c)) in
      g <- gets id ;;
      let precision_string := Py.format_f (PRECISION g) in
      let outstring :=
        if negb x_ok
        then Py.list_insert 1 ("X" ++ precision_string (CURRENT_X g)) outstring
        else outstring in
      let outstring :=
        if negb y_ok
        then Py.list_insert 2 ("Y" ++ precision_string (CURRENT_Y g)) outstring
        else outstring in
      let outstring :=
        if negb z_ok
        then Py.list_insert 3 ("Z" ++ precision_string (Units.float_of (CURRENT_Z g)))
                            outstring
        else outstring in
      modify (set_START_OR_M6 false) ;;
      ret outstring
    else ret outstring
  else ret outstring.

(** [linenumber() + 'G0 Z' + format(float(z.getValueAs(UNIT_FORMAT)),
    strFormat) + newline]; the line number is taken before [getValueAs] is
    called. *)
Definition rapid_Z (z : Units.Number) : M string :=
  g <- gets id ;;
  s <- linenumber ;;
  v <- getValueAs_of z (UNIT_FORMAT g) ;;
  ret (s ++ "G0 Z" ++ Py.format_f (PRECISION g) v ++ nl).

(** [linenumber() + 'G1 Z' + format(z) + ' F' + format(speed, '.2f') + newline] *)
Definition feed_Z (z speed : Q) : M string :=
  g <- gets id ;;
  numbered ("G1 Z" ++ Py.format_f (PRECISION g) (Units.getValueAs z (UNIT_FORMAT g))
            ++ " F" ++ Py.format_f 2 (Units.getValueAs speed (UNIT_SPEED_FORMAT g)) ++ nl).

(** The [while 1] loop of the G83 branch, lines 509-517. *)
Fixpoint peck_loop (fuel : nat) (drill_Z : Q) (RETRACT_Z : Units.Number)
    (drill_Step drill_Speed : Q) (next_Stop_Z : Q) (trBuff : string) : M string :=
  match fuel with
  | O => out_of_fuel
  | S fuel' =>
      if Py.Qgtb next_Stop_Z drill_Z then
        l1 <- feed_Z next_Stop_Z drill_Speed ;;
        l2 <- rapid_Z RETRACT_Z ;;
        peck_loop fuel' drill_Z RETRACT_Z drill_Step drill_Speed
                  (Units.sub next_Stop_Z drill_Step) (trBuff ++ l1 ++ l2)
      else
        l1 <- feed_Z drill_Z drill_Speed ;;
        l2 <- rapid_Z RETRACT_Z ;;
        ret (trBuff ++ l1 ++ l2)
  end.

(** The retract plane after the G98 adjustment, lines 479-480: the
    Quantity computed from R, or whatever [CURRENT_Z] holds. *)
Definition retract_plane (g : Globals) (RETRACT_Z : Q) : Units.Number :=
  if (String.eqb (DRILL_RETRACT_MODE g) "G98"
      && Py.Qgeb (Units.float_of (CURRENT_Z g)) RETRACT_Z)%bool
  then CURRENT_Z g else Units.Qty RETRACT_Z.

(** The moves of a cycle once its numbers are known, lines 489-522. *)
Definition drill_moves (fuel : nat) (cmd : string)
    (drill_X drill_Y drill_Z : Q) (RETRACT_Z : Units.Number) (drill_Speed : Q)
    (drill_Step drill_DwellTime : option Q) (trBuff : string) : M string :=
  g <- gets id ;;
  trBuff <- (if String.eqb (MOTION_MODE g) "G91"
             then s <- numbered ("G90" ++ nl) ;; ret (trBuff ++ s)
             else ret trBuff) ;;
  trBuff <- (if Py.Qltb (Units.float_of (CURRENT_Z g)) (Units.float_of RETRACT_Z)
             then s <- rapid_Z RETRACT_Z ;; ret (trBuff ++ s)
             else ret trBuff) ;;
  s <- numbered ("G0 X" ++ Py.format_f (PRECISION g) (Units.getValueAs drill_X (UNIT_FORMAT g))
                 ++ " Y" ++ Py.format_f (PRECISION g) (Units.getValueAs drill_Y (UNIT_FORMAT g))
                 ++ nl) ;;
  let trBuff := trBuff ++ s in
  trBuff <- (if Py.Qgtb (Units.float_of (CURRENT_Z g)) (Units.float_of RETRACT_Z)
             then s <- rapid_Z (CURRENT_Z g) ;; ret (trBuff ++ s)
             else ret trBuff) ;;
  trBuff <- (if Py.in_list cmd ["G81"; "G82"] then
               s <- feed_Z drill_Z drill_Speed ;;
               let trBuff := trBuff ++ s in
               trBuff <- (if String.eqb cmd "G82" then
                            match drill_DwellTime with
                            | Some p => s <- numbered ("G4 P" ++ Py.str_float p ++ nl) ;;
                                        ret (trBuff ++ s)
                            | None => raise (UnboundLocalError "drill_DwellTime")
                            end
                          else ret trBuff) ;;
               s <- rapid_Z RETRACT_Z ;;
               ret (trBuff ++ s)
             else
               match drill_Step with
               | Some step =>
                   peck_loop fuel drill_Z RETRACT_Z step drill_Speed
                             (Units.sub (Units.float_of RETRACT_Z) step) trBuff
               | None => raise (UnboundLocalError "drill_Step")
               end) ;;
  if String.eqb (MOTION_MODE g) "G91"
  then s <- numbered "G91" ;; ret (trBuff ++ s)
  else ret trBuff.

(** The local numbers of a cycle: the absolute target, the retract plane,
    the feed rate, and the step (G83) or dwell time (G82) where bound. *)
Record Cycle := mkCycle {
  cyc_X : Q; cyc_Y : Q; cyc_Z : Q;
  cyc_retract : Units.Number;
  cyc_speed : Q;
  cyc_step : option Q;
  cyc_dwell : option Q
}.

(** The comment that stands for the original command, lines 455-461. *)
Definition cycle_comment (outstring : list string) (cmd : string) : M string :=
  comments <- gets OUTPUT_COMMENTS ;;
  if comments then
    s1 <- numbered ("(Translated " ++ cmd ++ " drilling cycle to G0/G1 moves)" ++ nl) ;;
    let outstring := Py.list_append (Py.list_insert 0 "(" outstring) ")" in
    s2 <- numbered (format_outstring outstring ++ nl) ;;
    ret (s1 ++ s2)
  else ret "".

(** The parameters read and made absolute, lines 468-487. *)
Definition cycle_numbers (cmd : string) (params : gmap string Q) : M Cycle :=
  g <- gets id ;;
  target <- (if String.eqb (MOTION_MODE g) "G90" then
               x <- getitem params "X" ;;
               y <- getitem params "Y" ;;
               z <- getitem params "Z" ;;
               r <- getitem params "R" ;;
               ret (x, y, z, r)
             else
               x <- getitem params "X" ;;
               y <- getitem params "Y" ;;
               z <- getitem params "Z" ;;
               r <- getitem params "R" ;;
               ret (Units.add (CURRENT_X g) x, Units.add (CURRENT_Y g) y,
                    Units.add (Units.float_of (CURRENT_Z g)) z,
                    Units.add (Units.float_of (CURRENT_Z g)) r)) ;;
  let '(drill_X, drill_Y, drill_Z, RETRACT_Z) := target in
  let RETRACT_Z := retract_plane g RETRACT_Z in
  drill_Speed <- getitem params "F" ;;
  if String.eqb cmd "G83" then
    drill_Step <- getitem params "Q" ;;
    ret (mkCycle drill_X drill_Y drill_Z RETRACT_Z drill_Speed (Some drill_Step) None)
  else if String.eqb cmd "G82" then
    drill_DwellTime <- getitem params "P" ;;
    ret (mkCycle drill_X drill_Y drill_Z RETRACT_Z drill_Speed None (Some drill_DwellTime))
  else
    ret (mkCycle drill_X drill_Y drill_Z RETRACT_Z drill_Speed None None).

(** [drill_translate(outstring, cmd, params)], lines 443-522. *)
Definition drill_translate (fuel : nat) (outstring : list string) (cmd : string)
    (params : gmap string Q) : M string :=
  trBuff <- cycle_comment outstring cmd ;;
  cyc <- cycle_numbers cmd params ;;
  drill_moves fuel cmd (cyc_X cyc) (cyc_Y cyc) (cyc_Z cyc) (cyc_retract cyc)
              (cyc_speed cyc) (cyc_step cyc) (cyc_dwell cyc) trBuff.

(** The substitution of the unit codes, lines 324-327. *)
Definition translate_code (name : string) : string :=
  if String.eqb name "G21" then "G71"
  else if String.eqb name "G20" then "G70"
  else name.

(** [command == lastcommand], where [lastcommand] starts as [None]. *)
Definition same_command (command : string) (lastcommand : option string) : bool :=
  match lastcommand with
  | Some l => String.eqb command l
  | None => false
  end.

(** The body of the command loop of [parse], lines 320-438; the loop
    carries [out] and [lastcommand]. *)
Definition parse_command (fuel : nat) (c : Command) (carried : PyOut * option string)
  : M (PyOut * option string) :=
  let '(out, lastcommand) := carried in
  let command := translate_code (Name c) in
  let outstring := [command] in
  r <- tool_change command out outstring ;;
  let '(out, outstring) := r in
  outstring <- (if MODAL then
                  if (same_command command lastcommand
                      && Py.in_list command MODAL_COMMANDS)%bool
                  then pop0 outstring else ret outstring
                else ret outstring) ;;
  g <- gets id ;;
  let outstring := add_parameters g command c outstring in
  let lastcommand := Some command in
  outstring <- motion_bookkeeping command c outstring ;;
  (if Py.in_list command ["G98"; "G99"]
   then modify (set_DRILL_RETRACT_MODE command) else ret tt) ;;
  (if Py.in_list command ["G90"; "G91"]
   then modify (set_MOTION_MODE command) else ret tt) ;;
  r <- (if Py.in_list command ["G81"; "G82"; "G83"] then
          s <- drill_translate fuel outstring command (Parameters c) ;;
          ret (iadd out s, [])
        else ret (out, outstring)) ;;
  let '(out, outstring) := r in
  r <- (if String.eqb command "message" then
          comments <- gets OUTPUT_COMMENTS ;;
          if negb comments then ret (OList [], outstring)
          else outstring' <- pop0 outstring ;; ret (out, outstring')
        else ret (out, outstring)) ;;
  let '(out, outstring) := r in
  let outstring := if Py.in_list command SUPPRESS_COMMANDS
                   then Py.list_append (Py.list_insert 0 "(" outstring) ")"
                   else outstring in
  out <- (if Nat.leb 1 (length outstring)
          then s <- numbered (format_outstring outstring ++ nl) ;; ret (iadd out s)
          else ret out) ;;
  ret (out, lastcommand).

(** The command loop of the leaf branch of [parse], lines 319-440. *)
Definition parse_commands (fuel : nat) (cs : list Command) (out : PyOut) : M PyOut :=
  r <- for_each cs (parse_command fuel) (out, None) ;;
  ret (fst r).

(** [parse(pathobj)], lines 287-440. *)
Fixpoint parse (fuel : nat) (pathobj : PathNode) : M PyOut :=
  match pathobj with
  | Compound label _ group =>
      comments <- gets OUTPUT_COMMENTS ;;
      out <- (if comments
              then numbered ("(compound: " ++ label ++ ")" ++ nl)
              else ret "") ;;
      out <- (fix children (ps : list PathNode) (out : string) : M string :=
                match ps with
                | [] => ret out
                | p :: ps' =>
                    sub <- parse fuel p ;;
                    out' <- str_iadd out sub ;;
                    children ps' out'
                end) group out ;;
      ret (OStr out)
  | Leaf label commands =>
      comments <- gets OUTPUT_COMMENTS ;;
      out <- (if comments
              then s <- numbered ("(Path: " ++ label ++ ")" ++ nl) ;; ret (OStr s)
              else ret (OStr "")) ;;
      parse_commands fuel commands out
  | Other _ => ret (OStr "")
  end.

(** The options [parser.parse_args(shlex.split(argstring))] yields. *)
Record Args := mkArgs {
  no_header : bool; header : bool;
  no_comments : bool; comments : bool;
  no_line_numbers : bool; line_numbers : bool;
  no_show_editor : bool; show_editor : bool;
  precision : nat;
  preamble : option string;
  postamble : option string
}.

(** What [parser.parse_args(shlex.split(argstring))] makes of an argument
    string: the options; a ValueError of [shlex.split], on a quotation
    that is not closed; or the exit of [argparse] on arguments it does not
    accept (an unknown option, a missing value), which is
    [SystemExit(2)]. *)
Inductive ArgString :=
| Parsed (args : Args)
| BadQuoting
| BadOptions.

(** [processArguments(argstring)], lines 128-165.  [except Exception]
    catches the ValueError; SystemExit is no [Exception] and goes
    through. *)
Definition processArguments (argstring : ArgString) : M bool :=
  match argstring with
  | BadQuoting => ret false
  | BadOptions => raise (SystemExit 2)
  | Parsed args =>
      (if no_header args then modify (set_OUTPUT_HEADER false) else ret tt) ;;
      (if header args then modify (set_OUTPUT_HEADER true) else ret tt) ;;
      (if no_comments args then modify (set_OUTPUT_COMMENTS false) else ret tt) ;;
      (if comments args then modify (set_OUTPUT_COMMENTS true) else ret tt) ;;
      (if no_line_numbers args then modify (set_OUTPUT_LINE_NUMBERS false) else ret tt) ;;
      (if line_numbers args then modify (set_OUTPUT_LINE_NUMBERS true) else ret tt) ;;
      (if no_show_editor args then modify (set_SHOW_EDITOR false) else ret tt) ;;
      (if show_editor args then modify (set_SHOW_EDITOR true) else ret tt) ;;
      modify (set_PRECISION (precision args)) ;;
      match preamble args with
      | Some p => modify (set_PREAMBLE p) | None => ret tt end ;;
      match postamble args with
      | Some p => modify (set_POSTAMBLE p) | None => ret tt end ;;
      ret true
  end.

(** What [export] takes from its surroundings: the clock, whether the GUI
    is up, and the editor dialog ([Some t] when it was accepted with text
    [t], [None] when it was dismissed). *)
Record Env := mkEnv {
  now : string;
  GuiUp : bool;
  editor_dialog : string -> option string
}.

(** [gcode += linenumber() + line] for each line of a text block. *)
Definition emit_lines (text : string) (gcode : string) : M string :=
  for_each (Py.splitlines_keepends text)
           (fun line acc => s <- numbered line ;; ret (acc ++ s)) gcode.

(** The preamble inspection of [export], lines 194-218. *)
Definition establish_modes (gcode : string) : M string :=
  pre <- gets PREAMBLE ;;
  gcode <- (if Py.str_in "G90" pre then modify (set_MOTION_MODE "G90") ;; ret gcode
            else if Py.str_in "G91" pre then modify (set_MOTION_MODE "G91") ;; ret gcode
            else mode <- gets MOTION_MODE ;;
                 s <- numbered (mode ++ nl) ;; ret (gcode ++ s)) ;;
  if Py.str_in "G71" pre then
    modify (set_UNITS "G71") ;; modify (set_UNIT_FORMAT "mm") ;;
    modify (set_UNIT_SPEED_FORMAT "mm/min") ;; ret gcode
  else if Py.str_in "G21" pre then
    modify (set_UNITS "G71") ;; modify (set_UNIT_FORMAT "mm") ;;
    modify (set_UNIT_SPEED_FORMAT "mm/min") ;; ret gcode
  else if Py.str_in "G70" pre then
    modify (set_UNITS "G70") ;; modify (set_UNIT_FORMAT "in") ;;
    modify (set_UNIT_SPEED_FORMAT "in/min") ;; ret gcode
  else if Py.str_in "G20" pre then
    modify (set_UNITS "G70") ;; modify (set_UNIT_FORMAT "in") ;;
    modify (set_UNIT_SPEED_FORMAT "in/min") ;; ret gcode
  else
    units <- gets UNITS ;;
    s <- numbered (units ++ nl) ;; ret (gcode ++ s).

(** What [export] does with one object that has a [Path], lines 226-239. *)
Definition export_object (fuel : nat) (obj : PathNode) (gcode : string) : M string :=
  comments <- gets OUTPUT_COMMENTS ;;
  gcode <- (if comments
            then s <- numbered ("(begin operation: " ++ Label_of obj ++ ")" ++ nl) ;;
                 ret (gcode ++ s)
            else ret gcode) ;;
  gcode <- emit_lines PRE_OPERATION gcode ;;
  sub <- parse fuel obj ;;
  gcode <- str_iadd gcode sub ;;
  comments <- gets OUTPUT_COMMENTS ;;
  gcode <- (if comments
            then s <- numbered ("(finish operation: " ++ Label_of obj ++ ")" ++ nl) ;;
                 ret (gcode ++ s)
            else ret gcode) ;;
  emit_lines POST_OPERATION gcode.

(** The object loop of [export], lines 220-239; [None] is the early
    [return] on an object without a [Path]. *)
Fixpoint export_objects (fuel : nat) (objectslist : list PathNode) (gcode : string)
  : M (option string) :=
  match objectslist with
  | [] => ret (Some gcode)
  | obj :: rest =>
      if negb (hasattr_Path obj) then ret None
      else
        gcode <- export_object fuel obj gcode ;;
        export_objects fuel rest gcode
  end.

(** The header block of [export], lines 182-185. *)
Definition write_header (env : Env) (gcode : string) : M string :=
  hdr <- gets OUTPUT_HEADER ;;
  if hdr then
    s1 <- numbered ("(Exported by FreeCAD)" ++ nl) ;;
    s2 <- numbered ("(Post Processor: " ++ module_name ++ ")" ++ nl) ;;
    s3 <- numbered ("(Output Time: " ++ now env ++ ")" ++ nl) ;;
    ret (gcode ++ s1 ++ s2 ++ s3)
  else ret gcode.

(** The preamble block of [export], lines 188-192. *)
Definition write_preamble (gcode : string) : M string :=
  comments <- gets OUTPUT_COMMENTS ;;
  gcode <- (if comments
            then s <- numbered ("(begin preamble)" ++ nl) ;; ret (gcode ++ s)
            else ret gcode) ;;
  pre <- gets PREAMBLE ;;
  gcode <- emit_lines pre gcode ;;
  units <- gets UNITS ;;
  s <- numbered (units ++ nl) ;;
  ret (gcode ++ s).

(** The postamble block of [export], lines 242-245. *)
Definition write_postamble (gcode : string) : M string :=
  comments <- gets OUTPUT_COMMENTS ;;
  gcode <- (if comments
            then s <- numbered ("(begin postamble)" ++ nl) ;; ret (gcode ++ s)
            else ret gcode) ;;
  post <- gets POSTAMBLE ;;
  emit_lines post gcode.

(** [export(objectslist, filename, argstring)], lines 168-264.  The result
    is the text written to [filename]; [None] when the function returns
    before writing anything. *)
Definition export (env : Env) (fuel : nat) (objectslist : list PathNode)
    (filename : string) (argstring : ArgString) : M (option string) :=
  ok <- processArguments argstring ;;
  if negb ok then ret None
  else
    gcode <- write_header env "" ;;
    gcode <- write_preamble gcode ;;
    gcode <- establish_modes gcode ;;
    body <- export_objects fuel objectslist gcode ;;
    match body with
    | None => ret None
    | Some gcode =>
        gcode <- write_postamble gcode ;;
        show <- gets SHOW_EDITOR ;;
        let final := if (GuiUp env && show)%bool
                     then match editor_dialog env gcode with
                          | Some edited => edited
                          | None => gcode
                          end
                     else gcode in
        ret (Some final)
    end.

(** ** Vocabulary of the properties *)

(** A command written down with its parameters as a list. *)
Definition command (name : string) (params : list (string * Q)) : Command :=
  mkCommand name (list_to_map params).

(** The text made of the given lines, each ended by a newline. *)
Definition unlines (ls : list string) : string :=
  fold_right (fun l acc => l ++ nl ++ acc) "" ls.

(** The options of an empty argument string, and of [--no-comments],
    [--no-header] and [--no-line-numbers] given together. *)
Definition default_args : Args :=
  mkArgs false false false false false false false false 3 None None.
Definition terse_args : Args :=
  mkArgs true false true false true false false false 3 None None.

(** A run without GUI. *)
Definition headless : Env := mkEnv "2021-01-01 00:00:00" false (fun _ => None).

(** The value of a finished computation. *)
Definition value_of {A} (r : Res A) : option A :=
  match r with Ok a _ => Some a | _ => None end.

(** The prefix [linenumber()] returns in state [g]. *)
Definition line_prefix (g : Globals) : string :=
  if OUTPUT_LINE_NUMBERS g then "N" ++ Py.str_int (LINENR g) ++ " " else "".

(** The absolute coordinate a parameter value [v] of an axis stands for
    when the axis is at [current]: the value itself under G90, the offset
    from the current position under G91 (the reading [drill_translate]
    makes of the cached position at lines 468-477). *)
Definition absolute_equivalent (motion_mode : string) (current v : Q) : Q :=
  if String.eqb motion_mode "G90" then v else (current + v)%Q.

(** A text in which every line is ended by a newline: it is empty or its
    last character is a newline. *)
Definition newline_terminated (s : string) : bool :=
  match Py.rev_string s with
  | EmptyString => true
  | String c _ => Nat.eqb (nat_of_ascii c) 10
  end.

(** The options [--no-header --no-comments --no-line-numbers] with an inch
    preamble, and with an empty postamble. *)
Definition inch_args : Args :=
  mkArgs true false true false true false false false 3 (Some ("G70" ++ nl)) None.
Definition bare_args : Args :=
  mkArgs true false true false true false false false 3 None (Some "").

(** The globals after import, comments and line numbers switched off. *)
Definition quiet_globals : Globals :=
  set_OUTPUT_COMMENTS false (set_OUTPUT_LINE_NUMBERS false initial_globals).

(** The globals after one call of [linenumber]. *)
Definition advance (g : Globals) : Globals :=
  if OUTPUT_LINE_NUMBERS g then set_LINENR (LINENR g + LINEINCR) g else g.

(** A move of an expanded cycle: a feed to a depth at a speed, or a rapid
    move to a height. *)
Inductive move :=
| Feed (z speed : Q)
| Rapid (z : Q).

Definition move_line (m : move) : M string :=
  match m with
  | Feed z speed => feed_Z z speed
  | Rapid z => rapid_Z (Units.Qty z)
  end.

(** The lines of a list of moves, added to a buffer one after the other. *)
Fixpoint emit_moves (ms : list move) (trBuff : string) : M string :=
  match ms with
  | [] => ret trBuff
  | m :: ms' => l <- move_line m ;; emit_moves ms' (trBuff ++ l)
  end.

(** The first [n] stops of a descent from [next] by [step], and the stop
    reached after them; each stop is the double the subtraction gives. *)
Fixpoint pecks (n : nat) (next step : Q) : list Q :=
  match n with
  | O => []
  | S n' => next :: pecks n' (Units.sub next step) step
  end.

Fixpoint stop_after (n : nat) (next step : Q) : Q :=
  match n with
  | O => next
  | S n' => stop_after n' (Units.sub next step) step
  end.

(** A peck cycle with [n] intermediate stops: a feed and a retract per
    stop, then the feed to the drill depth and the last retract. *)
Definition peck_moves (n : nat) (drill_Z RETRACT_Z step speed : Q) : list move :=
  (flat_map (fun s => [Feed s speed; Rapid RETRACT_Z])
            (pecks n (Units.sub RETRACT_Z step) step)
   ++ [Feed drill_Z speed; Rapid RETRACT_Z])%list.

Definition is_feed (m : move) : bool :=
  match m with Feed _ _ => true | Rapid _ => false end.

Definition feed_count (ms : list move) : nat := length (List.filter is_feed ms).

(** The moves the peck example of the specification announces for R=5,
    Z=-12, Q=4: feeds to 1, -3 and -12. *)
Definition announced_peck_example (speed : Q) : list move :=
  [Feed 1 speed; Rapid 5; Feed (-3) speed; Rapid 5; Feed (-12) speed; Rapid 5]%Q.

(** The relation between the globals before and after a piece of the
    program that is not [processArguments]: the numbering switch is left
    alone and the line counter does not go back. *)
Definition keeps_numbering (g g' : Globals) : Prop :=
  OUTPUT_LINE_NUMBERS g' = OUTPUT_LINE_NUMBERS g /\ LINENR g <= LINENR g'.

Definition steady {A} (m : M A) : Prop :=
  forall g a g', m g = Ok a g' -> keeps_numbering g g'.

(** A computation that does not end with a value. *)
Definition fails {A} (r : Res A) : Prop :=
  match r with Ok _ _ => False | _ => True end.

(** The parameters a cycle reads, in the order it reads them. *)
Definition required_parameters (cmd : string) : list string :=
  (["X"; "Y"; "Z"; "R"; "F"]
   ++ (if String.eqb cmd "G83" then ["Q"]
       else if String.eqb cmd "G82" then ["P"] else []))%list.

(** A drilling-cycle command that lacks one of its required parameters. *)
Definition lacks_required (c : Command) : bool :=
  (Py.in_list (Name c) ["G81"; "G82"; "G83"]
   && existsb (fun k => negb (has_key k (Parameters c))) (required_parameters (Name c)))%bool.

(** The commands of all the leaves of a tree, in the order of the walk. *)
Fixpoint node_commands (obj : PathNode) : list Command :=
  match obj with
  | Compound _ _ group => flat_map node_commands group
  | Leaf _ commands => commands
  | Other _ => []
  end.

(** An editor that hands the text back as it got it, when it is shown. *)
Definition passthrough (env : Env) : Prop :=
  forall s t, editor_dialog env s = Some t -> t = s.

(** Whether line numbering is on once [processArguments] has run. *)
Definition numbering_enabled (args : Args) (g : Globals) : bool :=
  if line_numbers args then true
  else if no_line_numbers args then false
  else OUTPUT_LINE_NUMBERS g.

(** A text whose first line carries the number [n]. *)
Definition starts_with_number (n : Z) (s : string) : Prop :=
  exists rest, s = "N" ++ Py.str_int n ++ " " ++ rest.

Fixpoint no_space (s : string) : bool :=
  match s with
  | EmptyString => true
  | String c r => (negb (Nat.eqb (nat_of_ascii c) 32) && no_space r)%bool
  end.

(** The loop over the children of a compound in [parse], lines 307-308,
    as a function of its own. *)
Definition parse_children (fuel : nat) : list PathNode -> string -> M string :=
  fix children (ps : list PathNode) (out : string) : M string :=
    match ps with
    | [] => ret out
    | p :: ps' =>
        sub <- parse fuel p ;;
        out' <- str_iadd out sub ;;
        children ps' out'
    end.

(** What is known of the text [gcode] gathered since the globals were [g0],
    line numbering being on: nothing was written and the counter has not
    moved, or the text starts with the number the counter had in [g0] and
    the counter has moved on. *)
Definition numbered_so_far (g0 : Globals) (gcode : string) (g : Globals) : Prop :=
  (gcode = "" /\ LINENR g = LINENR g0)
  \/ (starts_with_number (LINENR g0) gcode /\ LINENR g0 < LINENR g).

(** [s'] is [s] with something written after it. *)
Definition extends (s s' : string) : Prop := exists suffix, s' = s ++ suffix.

(** A small job, and what two exports of it in a row write and leave. *)
Definition sample_objects : list PathNode :=
  [Leaf "op" [command "G0" [("X", 1%Q); ("Y", 2%Q); ("Z", 3%Q)]]].

Definition sample_run (g : Globals) : Res (option string) :=
  export headless 0 sample_objects "out.iso" (Parsed default_args) g.

Definition text_of (r : Res (option string)) : string :=
  match r with Ok (Some t) _ => t | _ => "" end.

Definition globals_after (r : Res (option string)) (g : Globals) : Globals :=
  match r with Ok _ g' | Raise _ g' => g' | OutOfFuel => g end.

Definition sample_text1 : string :=
  Eval vm_compute in text_of (sample_run initial_globals).
Definition sample_globals1 : Globals :=
  Eval vm_compute in globals_after (sample_run initial_globals) initial_globals.
Definition sample_text2 : string :=
  Eval vm_compute in text_of (sample_run sample_globals1).
Definition sample_globals2 : Globals :=
  Eval vm_compute in globals_after (sample_run sample_globals1) sample_globals1.

(** Whether a written line mentions every parameter letter of a command. *)
Definition carries_all_parameters (c : Command) (line : string) : bool :=
  forallb (fun k => Py.str_in k line) (keys (Parameters c)).

(** ** Vocabulary of the further properties *)

(** A computation whose final globals, whether it ends with a value or
    with an exception, are related to the initial ones by [R]. *)
Definition respects (R : Globals -> Globals -> Prop) {A} (m : M A) : Prop :=
  forall g, match m g with
            | Ok _ g' | Raise _ g' => R g g'
            | OutOfFuel => True
            end.

(** The globals that hold the options and the units are the same. *)
Definition same_config (g g' : Globals) : Prop :=
  OUTPUT_HEADER g' = OUTPUT_HEADER g
  /\ OUTPUT_COMMENTS g' = OUTPUT_COMMENTS g
  /\ OUTPUT_LINE_NUMBERS g' = OUTPUT_LINE_NUMBERS g
  /\ SHOW_EDITOR g' = SHOW_EDITOR g
  /\ PRECISION g' = PRECISION g
  /\ PREAMBLE g' = PREAMBLE g
  /\ POSTAMBLE g' = POSTAMBLE g
  /\ UNITS g' = UNITS g
  /\ UNIT_FORMAT g' = UNIT_FORMAT g
  /\ UNIT_SPEED_FORMAT g' = UNIT_SPEED_FORMAT g.

(** The line counter has moved by a whole number of increments, by none
    when numbering is off. *)
Definition counter_steps (g g' : Globals) : Prop :=
  exists k : nat,
    LINENR g' = LINENR g + LINEINCR * Z.of_nat k
    /\ (OUTPUT_LINE_NUMBERS g = false -> k = 0%nat).

Definition walk_frame (g g' : Globals) : Prop :=
  same_config g g' /\ counter_steps g g'.

(** Nothing but the line counter differs. *)
Definition only_counter (g g' : Globals) : Prop := g' = set_LINENR (LINENR g') g.

(** The globals [processArguments] leaves when the argument string
    parses. *)
Definition apply_args (args : Args) (g : Globals) : Globals :=
  let switch (yes no old : bool) := if yes then true else if no then false else old in
  {| OUTPUT_HEADER := switch (header args) (no_header args) (OUTPUT_HEADER g);
     OUTPUT_COMMENTS := switch (comments args) (no_comments args) (OUTPUT_COMMENTS g);
     OUTPUT_LINE_NUMBERS :=
       switch (line_numbers args) (no_line_numbers args) (OUTPUT_LINE_NUMBERS g);
     SHOW_EDITOR := switch (show_editor args) (no_show_editor args) (SHOW_EDITOR g);
     PRECISION := precision args;
     PREAMBLE := match preamble args with Some p => p | None => PREAMBLE g end;
     POSTAMBLE := match postamble args with Some p => p | None => POSTAMBLE g end;
     LINENR := LINENR g;
     START_OR_M6 := START_OR_M6 g;
     DRILL_RETRACT_MODE := DRILL_RETRACT_MODE g;
     MOTION_MODE := MOTION_MODE g;
     UNITS := UNITS g;
     UNIT_FORMAT := UNIT_FORMAT g;
     UNIT_SPEED_FORMAT := UNIT_SPEED_FORMAT g;
     CURRENT_X := CURRENT_X g;
     CURRENT_Y := CURRENT_Y g;
     CURRENT_Z := CURRENT_Z g |}.

(** An object that is neither a group nor a path. *)
Definition is_other (obj : PathNode) : bool :=
  match obj with Other _ => true | _ => false end.

(** A token with no white space at either end (and so not empty). *)
Definition clean_start (s : string) : Prop :=
  match s with String c _ => Py.is_space c = false | EmptyString => False end.
Definition clean_token (s : string) : Prop :=
  clean_start s /\ clean_start (Py.rev_string s).

(** The option globals are the same (the units may differ). *)
Definition same_options (g g' : Globals) : Prop :=
  OUTPUT_HEADER g' = OUTPUT_HEADER g
  /\ OUTPUT_COMMENTS g' = OUTPUT_COMMENTS g
  /\ OUTPUT_LINE_NUMBERS g' = OUTPUT_LINE_NUMBERS g
  /\ SHOW_EDITOR g' = SHOW_EDITOR g
  /\ PRECISION g' = PRECISION g
  /\ PREAMBLE g' = PREAMBLE g
  /\ POSTAMBLE g' = POSTAMBLE g.

(** The lines of a text put back together. *)
Definition join_lines (ls : list string) : string :=
  fold_right (fun l acc => l ++ acc) "" ls.

(** The outcome of a cycle written in absolute coordinates, as it shows
    when the cycle is met in relative mode: the text between a [G90] line
    and an unterminated [G91], the globals being those of the caller. *)
Definition wrapped_in_absolute (g : Globals) (r : Res string) : Res string :=
  match r with
  | Ok t _ => Ok (("G90" ++ nl) ++ t ++ "G91") g
  | Raise e _ => Raise e g
  | OutOfFuel => OutOfFuel
  end.

(** The parameters of a cycle with the target and the retract height
    counted from the origin instead of the current position. *)
Definition made_absolute (g : Globals) (x y z r : Q) (params : gmap string Q)
  : gmap string Q :=
  <["X" := Units.add (CURRENT_X g) x]> (<["Y" := Units.add (CURRENT_Y g) y]>
    (<["Z" := Units.add (Units.float_of (CURRENT_Z g)) z]>
       (<["R" := Units.add (Units.float_of (CURRENT_Z g)) r]> params))).

(** The unit code, length unit and speed unit an export works with, read
    off the preamble [pre]: a metric code (G71, G21) anywhere in it wins
    over an inch code (G70, G20); without any, the units stay [old]. *)
Definition preamble_units (pre : string) (old : string * string * string)
  : string * string * string :=
  if (Py.str_in "G71" pre || Py.str_in "G21" pre)%bool then ("G71", "mm", "mm/min")
  else if (Py.str_in "G70" pre || Py.str_in "G20" pre)%bool then ("G70", "in", "in/min")
  else old.

(** The motion mode an export starts with: G90 anywhere in the preamble
    wins over G91; without any, the mode stays [old]. *)
Definition preamble_mode (pre : string) (old : string) : string :=
  if Py.str_in "G90" pre then "G90" else if Py.str_in "G91" pre then "G91" else old.

(** A line that is written only when [written] holds. *)
Definition line_if (written : bool) (text : string) : string :=
  if written then text ++ nl else "".

(** The first of its required parameters that a cycle command lacks. *)
Definition missing_parameter (c : Command) : option string :=
  if Py.in_list (Name c) ["G81"; "G82"; "G83"]
  then List.find (fun k => negb (has_key k (Parameters c))) (required_parameters (Name c))
  else None.

(** [cut_before c t t']: the tree [t] holds the command [c] in one of its
    leaves, and [t'] is [t] cut just before that command: the commands of
    the leaf that follow [c], [c] itself, and everything that comes later
    in the walk are gone. *)
Inductive cut_before (c : Command) : PathNode -> PathNode -> Prop :=
| cut_leaf label pre post :
    cut_before c (Leaf label (pre ++ c :: post)) (Leaf label pre)
| cut_group label has_path before t t' after :
    cut_before c t t' ->
    cut_before c (Compound label has_path (before ++ t :: after))
                 (Compound label has_path (before ++ [t'])).

(** A computation that always ends with a value. *)
Definition succeeds {A} (m : M A) : Prop := forall g, exists a g', m g = Ok a g'.

(** * Properties *)

(** ** The runtime pieces on a few inputs *)

Example format_f_negative : Py.format_f 3 (-12 # 1) = "-12.000".
Proof. reflexivity. Qed.
Example format_f_pads : Py.format_f 3 (254 # 100) = "2.540".
Proof. reflexivity. Qed.
Example format_f_tie_to_even : Py.format_f 2 (1 # 8) = "0.12".
Proof. reflexivity. Qed.
Example format_f_no_decimals : Py.format_f 0 (5 # 2) = "2".
Proof. reflexivity. Qed.
Example inch_conversion : Py.format_f 3 (Units.getValueAs (254 # 10) "in") = "1.000".
Proof. reflexivity. Qed.
Example feed_conversion : Py.format_f 2 (Units.getValueAs (5 # 1) "mm/min") = "300.00".
Proof. reflexivity. Qed.
Example str_float_examples :
  Py.str_float (1 # 1) = "1.0" /\ Py.str_float (-9 # 4) = "-2.25".
Proof. split; reflexivity. Qed.
Example splitlines_postamble :
  Py.splitlines_keepends ("M5" ++ nl ++ "M2" ++ nl) = ["M5" ++ nl; "M2" ++ nl].
Proof. reflexivity. Qed.
Example splitlines_no_final_newline :
  Py.splitlines_keepends ("G90" ++ nl ++ "G17") = ["G90" ++ nl; "G17"].
Proof. reflexivity. Qed.
Example strip_trailing_space : Py.strip "G0 X1.000 " = "G0 X1.000".
Proof. reflexivity. Qed.
Example format_outstring_comment :
  format_outstring ["("; "G98"; ")"] = "( G98 )".
Proof. reflexivity. Qed.
Example list_insert_past_end : Py.list_insert 3 "Z" ["Y"] = ["Y"; "Z"].
Proof. reflexivity. Qed.
Example strip_no_break_space :
  Py.strip ("G1" ++ String (ascii_of_nat 160) "") = "G1"
  /\ Py.strip (String (ascii_of_nat 133) "G1") = "G1".
Proof. split; reflexivity. Qed.
Example double_of_a_tenth :
  Py.to_double (1 # 10) = 3602879701896397 # 36028797018963968.
Proof. vm_compute. reflexivity. Qed.
Example double_sums :
  Units.add (1 # 2) (1 # 4) = 3 # 4
  /\ Units.sub 1 (Py.to_double (1 # 10)) = 8106479329266893 # 9007199254740992
  /\ Units.sub (2 ^ 53) 1 = (2 ^ 53 - 1)%Q
  /\ Units.add (2 ^ 53) 1 = (2 ^ 53)%Q.
Proof. repeat split; vm_compute; reflexivity. Qed.
Example double_underflow :
  Py.to_double (Qmake 1 (2 ^ 1074)) = Qmake 1 (2 ^ 1074)
  /\ Py.to_double (Qmake 1 (2 ^ 1075)) = 0%Q
  /\ Py.to_double (Qmake 3 (2 ^ 1075)) = Qmake 1 (2 ^ 1073).
Proof. repeat split; vm_compute; reflexivity. Qed.

(** ** The message pseudo-command *)

(** C1 (the code departs from the claim).  With comments disabled, a leaf
    holding a move and then a [message] command: the move alone yields its
    line, but once the message is processed the accumulated output is gone,
    [out] is a list holding the characters of a line for the message
    itself, and [export] ends with a TypeError when it adds that list to
    its text. *)
Theorem message_without_comments_discards_output :
  let move := command "G0" [("X", 1%Q); ("Y", 2%Q); ("Z", 3%Q)] in
  let leaf := Leaf "op" [move; command "message" []] in
  value_of (parse 0 (Leaf "op" [move]) quiet_globals)
    = Some (OStr (unlines ["G0 X1.000 Y2.000 Z3.000"]))
  /\ value_of (parse 0 leaf quiet_globals) = Some (OList (chars (unlines ["message"])))
  /\ exists g',
       export headless 0 [leaf] "out.iso" (Parsed terse_args) initial_globals
       = Raise (TypeError "can only concatenate str (not list) to str") g'.
Proof.
  repeat split; try (vm_compute; reflexivity).
  eexists. vm_compute. reflexivity.
Qed.

(** ** The cached position *)

(** C2 (the code departs from the claim).  After a move to X10 in absolute
    mode and a switch to G91, the relative move X5 leaves 5 in [CURRENT_X],
    while the tool stands at the absolute coordinate 15. *)
Theorem relative_move_caches_offset :
  let before := [command "G0" [("X", 10%Q); ("Y", 0%Q); ("Z", 0%Q)]; command "G91" []] in
  exists carried g1 carried' g2,
    for_each before (parse_command 0) (OStr "", None) quiet_globals = Ok carried g1
    /\ MOTION_MODE g1 = "G91" /\ CURRENT_X g1 = 10%Q
    /\ parse_command 0 (command "G1" [("X", 5%Q)]) carried g1 = Ok carried' g2
    /\ CURRENT_X g2 = 5%Q
    /\ absolute_equivalent (MOTION_MODE g1) (CURRENT_X g1) 5 = 15%Q
    /\ ~ (CURRENT_X g2 == absolute_equivalent (MOTION_MODE g1) (CURRENT_X g1) 5)%Q.
Proof.
  do 4 eexists.
  split; [vm_compute; reflexivity|].
  split; [reflexivity|]. split; [reflexivity|].
  split; [vm_compute; reflexivity|].
  split; [reflexivity|]. split; [reflexivity|].
  vm_compute. discriminate.
Qed.

(** ** Full coordinates after a tool change *)

(** C3 (the code departs from the claim).  With an inch preamble, a move to
    (25.4, 50.8, 76.2) mm, a tool change and a move that names X only: the
    move after the tool change carries the three axes, but the injected Y
    and Z are the cached values in mm, not in the output unit as the
    parameters of the first move are. *)
Theorem injected_axes_ignore_output_unit :
  let cs := [command "G0" [("X", 254 # 10); ("Y", 508 # 10); ("Z", 762 # 10)]%Q;
             command "M6" [("T", 1%Q)];
             command "G1" [("X", 0%Q)]] in
  value_of (export headless 0 [Leaf "op" cs] "out.iso" (Parsed inch_args) initial_globals)
  = Some (Some (unlines ["G70"; "G71"; "G90";
                         "G0 X1.000 Y2.000 Z3.000";
                         "M6 T1.0";
                         "G1 X0.000 Y50.800 Z76.200";
                         "M5"; "M2"]))
  /\ "Y" ++ Py.format_f 3 (Units.getValueAs (508 # 10) "in") = "Y2.000"
  /\ "Z" ++ Py.format_f 3 (Units.getValueAs (762 # 10) "in") = "Z3.000".
Proof. repeat split; vm_compute; reflexivity. Qed.

(** ** Motion commands without parameters *)

(** C5 (the code departs from the claim).  The first command of a run is a
    G0 without parameters: its token list is emptied, then refilled with
    the three cached coordinates because [START_OR_M6] is set, and a line
    without a code is written. *)
Theorem empty_motion_refilled_at_start :
  value_of (export headless 0 [Leaf "op" [command "G0" []]] "out.iso"
                   (Parsed terse_args) initial_globals)
  = Some (Some (unlines ["G71"; "G90"; "G71"; "X0.000 Y0.000 Z0.000"; "M5"; "M2"])).
Proof. vm_compute. reflexivity. Qed.

(** ** Newline-terminated lines *)

(** C7 (the code departs from the claim).  A G81 cycle expanded in relative
    mode ends with a G91 that has no newline: the exported text does not
    end with a newline when nothing follows, and the next line is glued to
    it otherwise. *)
Theorem relative_restore_lacks_newline :
  let cs := [command "G0" [("X", 1%Q); ("Y", 2%Q); ("Z", 3%Q)];
             command "G91" [];
             command "G81" [("X", 1%Q); ("Y", 2%Q); ("Z", (-12)%Q); ("R", 5%Q); ("F", 5%Q)]] in
  let moves := unlines ["G71"; "G90"; "G71"; "G0 X1.000 Y2.000 Z3.000"; "G91"; "G90";
                        "G0 Z8.000"; "G0 X2.000 Y4.000"; "G1 Z-9.000 F300.00";
                        "G0 Z8.000"] in
  value_of (export headless 0 [Leaf "op" cs] "out.iso" (Parsed bare_args) initial_globals)
  = Some (Some (moves ++ "G91"))
  /\ newline_terminated (moves ++ "G91") = false
  /\ value_of (export headless 0 [Leaf "op" cs] "out.iso" (Parsed terse_args) initial_globals)
     = Some (Some (moves ++ unlines ["G91M5"; "M2"])).
Proof. repeat split; vm_compute; reflexivity. Qed.

(** ** Running the line builders *)

Lemma advance_fields g :
  OUTPUT_LINE_NUMBERS (advance g) = OUTPUT_LINE_NUMBERS g
  /\ OUTPUT_COMMENTS (advance g) = OUTPUT_COMMENTS g
  /\ PRECISION (advance g) = PRECISION g
  /\ UNIT_FORMAT (advance g) = UNIT_FORMAT g
  /\ UNIT_SPEED_FORMAT (advance g) = UNIT_SPEED_FORMAT g
  /\ MOTION_MODE (advance g) = MOTION_MODE g
  /\ DRILL_RETRACT_MODE (advance g) = DRILL_RETRACT_MODE g
  /\ START_OR_M6 (advance g) = START_OR_M6 g
  /\ CURRENT_X (advance g) = CURRENT_X g
  /\ CURRENT_Y (advance g) = CURRENT_Y g
  /\ CURRENT_Z (advance g) = CURRENT_Z g.
Proof.
  unfold advance. destruct g as [a1 a2 [] a4 a5 a6 a7 a8 a9 a10 a11 a12 a13 a14 a15 a16 a17];
    cbn; repeat split.
Qed.

Lemma linenumber_run g : linenumber g = Ok (line_prefix g) (advance g).
Proof.
  unfold linenumber, line_prefix, advance, bind, gets, modify, ret.
  destruct (OUTPUT_LINE_NUMBERS g); reflexivity.
Qed.

Lemma numbered_run text g : numbered text g = Ok (line_prefix g ++ text) (advance g).
Proof. unfold numbered, bind. rewrite linenumber_run. reflexivity. Qed.

Lemma rapid_Z_run z g :
  rapid_Z (Units.Qty z) g
  = Ok (line_prefix g ++ "G0 Z"
          ++ Py.format_f (PRECISION g) (Units.getValueAs z (UNIT_FORMAT g)) ++ nl)
       (advance g).
Proof.
  unfold rapid_Z, bind, gets. cbv beta iota. rewrite linenumber_run.
  unfold getValueAs_of, ret, id. reflexivity.
Qed.

(** On an int the line number is used up and no line comes back. *)
Lemma rapid_Z_int n g :
  rapid_Z (Units.Int n) g
  = Raise (AttributeError "'int' object has no attribute 'getValueAs'") (advance g).
Proof. unfold rapid_Z, bind, gets. cbv beta iota. now rewrite linenumber_run. Qed.

Lemma feed_Z_run z speed g :
  feed_Z z speed g
  = Ok (line_prefix g ++ "G1 Z"
          ++ Py.format_f (PRECISION g) (Units.getValueAs z (UNIT_FORMAT g))
          ++ " F" ++ Py.format_f 2 (Units.getValueAs speed (UNIT_SPEED_FORMAT g)) ++ nl)
       (advance g).
Proof. unfold feed_Z, bind, gets. cbn. apply numbered_run. Qed.

Lemma string_app_assoc (a b c : string) : (a ++ b) ++ c = a ++ b ++ c.
Proof.
  induction a as [|x a IH]; [reflexivity|].
  change (String x ((a ++ b) ++ c) = String x (a ++ b ++ c)). now rewrite IH.
Qed.

(** ** The peck cycle *)

Lemma Qgtb_true a b : Py.Qgtb a b = true <-> (b < a)%Q.
Proof.
  unfold Py.Qgtb. rewrite negb_true_iff.
  split.
  - intros H. apply Qnot_le_lt. intros Hle. apply Qle_bool_iff in Hle. congruence.
  - intros H. destruct (Qle_bool a b) eqn:E; [|reflexivity].
    apply Qle_bool_iff in E. exfalso. apply (Qlt_not_le _ _ H E).
Qed.

Lemma Qgtb_false a b : Py.Qgtb a b = false <-> (a <= b)%Q.
Proof.
  unfold Py.Qgtb. rewrite negb_false_iff. apply Qle_bool_iff.
Qed.

(** The loop run for [n] intermediate stops. *)
Lemma peck_loop_run drill_Z RETRACT_Z step speed n :
  forall next fuel trBuff g,
    Forall (fun s => (drill_Z < s)%Q) (pecks n next step) ->
    (stop_after n next step <= drill_Z)%Q ->
    (n < fuel)%nat ->
    peck_loop fuel drill_Z (Units.Qty RETRACT_Z) step speed next trBuff g
    = emit_moves (flat_map (fun s => [Feed s speed; Rapid RETRACT_Z]) (pecks n next step)
                  ++ [Feed drill_Z speed; Rapid RETRACT_Z])%list trBuff g.
Proof.
  induction n as [|n IH]; intros next fuel trBuff g Hall Hstop Hfuel;
    (destruct fuel as [|fuel]; [lia|]); cbn [peck_loop pecks flat_map app emit_moves move_line].
  - cbn in Hstop. apply Qgtb_false in Hstop. rewrite Hstop.
    unfold bind. rewrite !feed_Z_run, !rapid_Z_run. unfold ret.
    now rewrite !string_app_assoc.
  - inversion Hall as [|s l Hs Hrest]; subst.
    apply Qgtb_true in Hs. rewrite Hs.
    unfold bind at 1 2. rewrite feed_Z_run, rapid_Z_run.
    rewrite IH by (try assumption; lia).
    unfold bind at 1. rewrite feed_Z_run.
    unfold bind at 1. rewrite rapid_Z_run.
    now rewrite !string_app_assoc.
Qed.

(** With fuel for [n] rounds or fewer the loop is still going. *)
Lemma peck_loop_short drill_Z RETRACT_Z step speed n :
  forall next fuel trBuff g,
    Forall (fun s => (drill_Z < s)%Q) (pecks n next step) ->
    (fuel <= n)%nat ->
    peck_loop fuel drill_Z (Units.Qty RETRACT_Z) step speed next trBuff g = OutOfFuel.
Proof.
  induction n as [|n IH]; intros next fuel trBuff g Hall Hfuel;
    (destruct fuel as [|fuel]; [reflexivity|]); [lia|].
  cbn [peck_loop]. inversion Hall as [|s l Hs Hrest]; subst.
  apply Qgtb_true in Hs. rewrite Hs.
  unfold bind at 1 2. rewrite feed_Z_run, rapid_Z_run.
  apply IH; [assumption | lia].
Qed.

Lemma pecks_length step n : forall next, length (pecks n next step) = n.
Proof. induction n as [|n IH]; intros next; cbn; [reflexivity | now rewrite IH]. Qed.

(** C4, the example against the code: for R=5, Z=-12, Q=4 the loop also
    stops at -7 and -11, so it writes five feed moves, not the three the
    claim announces. *)
Lemma peck_example_has_five_feeds :
  value_of (peck_loop 10 (-12) (Units.Qty 5) 4 5 (Units.sub 5 4) "" quiet_globals)
  = Some (unlines ["G1 Z1.000 F300.00"; "G0 Z5.000";
                   "G1 Z-3.000 F300.00"; "G0 Z5.000";
                   "G1 Z-7.000 F300.00"; "G0 Z5.000";
                   "G1 Z-11.000 F300.00"; "G0 Z5.000";
                   "G1 Z-12.000 F300.00"; "G0 Z5.000"])
  /\ value_of (emit_moves (announced_peck_example 5) "" quiet_globals)
     = Some (unlines ["G1 Z1.000 F300.00"; "G0 Z5.000";
                      "G1 Z-3.000 F300.00"; "G0 Z5.000";
                      "G1 Z-12.000 F300.00"; "G0 Z5.000"])
  /\ peck_loop 10 (-12) (Units.Qty 5) 4 5 (Units.sub 5 4) "" quiet_globals
     <> emit_moves (announced_peck_example 5) "" quiet_globals.
Proof.
  split; [vm_compute; reflexivity|]. split; [vm_compute; reflexivity|].
  vm_compute. discriminate.
Qed.

Lemma feed_count_peck_moves n drill_Z RETRACT_Z step speed :
  feed_count (peck_moves n drill_Z RETRACT_Z step speed) = S n.
Proof.
  unfold peck_moves, feed_count.
  rewrite List.filter_app, length_app.
  replace (length (List.filter is_feed [Feed drill_Z speed; Rapid RETRACT_Z])) with 1%nat
    by reflexivity.
  assert (E : forall l : list Q,
             length (List.filter is_feed
                       (flat_map (fun s => [Feed s speed; Rapid RETRACT_Z]) l)) = length l).
  { induction l as [|s l IH]; cbn; [reflexivity | now rewrite IH]. }
  rewrite E, pecks_length. lia.
Qed.

(** C4, as amended.  The stops of the descent are the doubles
    [RETRACT_Z - step], that minus [step], and so on.  When the first [n]
    of them are strictly above the drill depth and the next one is not,
    the loop makes [n + 1] rounds, neither more nor fewer: it writes, for
    each of the [n] stops, a feed to it and a rapid retract to
    [RETRACT_Z], then one feed to exactly [drill_Z] and one last retract,
    [n + 1] feed moves in all. *)
Theorem peck_cycle_reaches_bottom (drill_Z RETRACT_Z step speed : Q) (n : nat) :
  Forall (fun s => (drill_Z < s)%Q) (pecks n (Units.sub RETRACT_Z step) step) ->
  (stop_after n (Units.sub RETRACT_Z step) step <= drill_Z)%Q ->
  peck_moves n drill_Z RETRACT_Z step speed
  = (flat_map (fun s => [Feed s speed; Rapid RETRACT_Z])
              (pecks n (Units.sub RETRACT_Z step) step)
     ++ [Feed drill_Z speed; Rapid RETRACT_Z])%list
  /\ feed_count (peck_moves n drill_Z RETRACT_Z step speed) = S n
  /\ (forall fuel trBuff g,
        (n < fuel)%nat ->
        peck_loop fuel drill_Z (Units.Qty RETRACT_Z) step speed
                  (Units.sub RETRACT_Z step) trBuff g
        = emit_moves (peck_moves n drill_Z RETRACT_Z step speed) trBuff g)
  /\ (forall fuel trBuff g,
        (fuel <= n)%nat ->
        peck_loop fuel drill_Z (Units.Qty RETRACT_Z) step speed
                  (Units.sub RETRACT_Z step) trBuff g
        = OutOfFuel).
Proof.
  intros Hall Hstop. split; [reflexivity|]. split; [apply feed_count_peck_moves|].
  split.
  - intros fuel trBuff g Hfuel. unfold peck_moves. now apply peck_loop_run.
  - intros fuel trBuff g Hfuel. now apply (peck_loop_short _ _ _ _ n).
Qed.

Lemma peck_cycle_reaches_bottom_witness :
  (Forall (fun s => (-12 < s)%Q) (pecks 4 (Units.sub 5 4) 4)
   /\ (stop_after 4 (Units.sub 5 4) 4 <= -12)%Q)
  /\ peck_moves 4 (-12) 5 4 5
     = (flat_map (fun s => [Feed s 5; Rapid 5]) (pecks 4 (Units.sub 5 4) 4)
        ++ [Feed (-12) 5; Rapid 5])%list
  /\ feed_count (peck_moves 4 (-12) 5 4 5) = 5%nat
  /\ (forall fuel trBuff g,
        (4 < fuel)%nat ->
        peck_loop fuel (-12) (Units.Qty 5) 4 5 (Units.sub 5 4) trBuff g
        = emit_moves (peck_moves 4 (-12) 5 4 5) trBuff g)
  /\ (forall fuel trBuff g,
        (fuel <= 4)%nat ->
        peck_loop fuel (-12) (Units.Qty 5) 4 5 (Units.sub 5 4) trBuff g = OutOfFuel).
Proof.
  assert (H1 : Forall (fun s => (-12 < s)%Q) (pecks 4 (Units.sub 5 4) 4))
    by (vm_compute; repeat constructor).
  assert (H2 : (stop_after 4 (Units.sub 5 4) 4 <= -12)%Q)
    by (vm_compute; discriminate).
  split; [split; assumption|].
  exact (peck_cycle_reaches_bottom (-12) 5 4 5 4 H1 H2).
Defined.

(** A step of one tenth from R=1 down to Z=0: the doubles 0.9, 0.8, ...
    do not land on 0 after ten subtractions but on 5 * 2^-55 above it, so
    there are ten intermediate stops and eleven feed moves. *)
Example peck_tenths_has_eleven_feeds :
  let tenth := Py.to_double (1 # 10) in
  Forall (fun s => (0 < s)%Q) (pecks 10 (Units.sub 1 tenth) tenth)
  /\ nth 9 (pecks 10 (Units.sub 1 tenth) tenth) 0%Q = 5 # 36028797018963968
  /\ (stop_after 10 (Units.sub 1 tenth) tenth <= 0)%Q
  /\ feed_count (peck_moves 10 0 1 tenth 5) = 11%nat.
Proof.
  split; [vm_compute; repeat constructor|].
  split; [vm_compute; reflexivity|].
  split; [vm_compute; discriminate | reflexivity].
Qed.

(** ** The retract plane *)

Ltac unfold_monad :=
  unfold getitem, bind, gets, modify, raise, out_of_fuel, ret, id in *; cbv beta in *.

Lemma retract_plane_clamped g r :
  DRILL_RETRACT_MODE g = "G98" -> (r <= Units.float_of (CURRENT_Z g))%Q ->
  retract_plane g r = CURRENT_Z g.
Proof.
  intros Hmode Hle. unfold retract_plane, Py.Qgeb. rewrite Hmode.
  apply Qle_bool_iff in Hle. now rewrite Hle.
Qed.

Lemma cycle_comment_run outstring cmd g :
  exists text g',
    cycle_comment outstring cmd g = Ok text g'
    /\ (g' = g \/ g' = advance (advance g)).
Proof.
  unfold cycle_comment. unfold_monad.
  destruct (OUTPUT_COMMENTS g).
  - rewrite numbered_run. rewrite numbered_run. eauto.
  - eauto.
Qed.

(** C6 (the code departs from the claim).  Right after import [CURRENT_Z]
    is the int 0.  A G81 with R=-1 met then, in mode G98, is in the
    situation of the claim: the current Z is at or above the retract
    height, and line 480 rebinds [RETRACT_Z] to what [CURRENT_Z] holds.
    But that is an int: the retract of line 506 asks it for [getValueAs]
    and the cycle ends with an AttributeError, which [export] passes on;
    nothing is written.  Once a move has named Z the same cycle is
    written, and its retract goes to the current Z, 0, not to R. *)
Theorem clamped_retract_raises_before_a_Z_move :
  let cycle := command "G81" [("X", 1%Q); ("Y", 2%Q); ("Z", (-5)%Q); ("R", (-1)%Q);
                              ("F", 5%Q)] in
  let no_getValueAs := AttributeError "'int' object has no attribute 'getValueAs'" in
  DRILL_RETRACT_MODE initial_globals = "G98"
  /\ (-1 <= Units.float_of (CURRENT_Z initial_globals))%Q
  /\ retract_plane initial_globals (-1) = Units.Int 0
  /\ (exists g', drill_translate 0 ["G81"] "G81" (Parameters cycle) quiet_globals
                 = Raise no_getValueAs g')
  /\ (exists g', export headless 0 [Leaf "op" [cycle]] "out.iso" (Parsed terse_args)
                        initial_globals
                 = Raise no_getValueAs g')
  /\ value_of (export headless 0 [Leaf "op" [command "G0" [("Z", 0%Q)]; cycle]] "out.iso"
                      (Parsed terse_args) initial_globals)
     = Some (Some (unlines ["G71"; "G90"; "G71"; "G0 X0.000 Y0.000 Z0.000";
                            "G0 X1.000 Y2.000"; "G1 Z-5.000 F300.00"; "G0 Z0.000";
                            "M5"; "M2"])).
Proof.
  split; [reflexivity|]. split; [vm_compute; discriminate|]. split; [reflexivity|].
  split; [eexists; vm_compute; reflexivity|].
  split; [eexists; vm_compute; reflexivity|].
  vm_compute. reflexivity.
Qed.

(** ** Stepping through the monad *)

Lemma bind_ok {A B} (m : M A) (k : A -> M B) g b g' :
  bind m k g = Ok b g' -> exists a g1, m g = Ok a g1 /\ k a g1 = Ok b g'.
Proof. unfold bind. destruct (m g) as [a g1| |]; [eauto | discriminate..]. Qed.

Lemma bind_fails {A B} (m : M A) (k : A -> M B) g :
  fails (m g) -> fails (bind m k g).
Proof. unfold bind. destruct (m g); cbn; tauto. Qed.

Lemma bind_fails_after {A B} (m : M A) (k : A -> M B) g :
  (forall a g1, m g = Ok a g1 -> fails (k a g1)) -> fails (bind m k g).
Proof. unfold bind. intros H. destruct (m g) as [a g1| |]; cbn; auto. Qed.

Lemma for_each_fails {A S} (body : A -> S -> M S) (x : A) :
  (forall acc g, fails (body x acc g)) ->
  forall xs acc g, In x xs -> fails (for_each xs body acc g).
Proof.
  intros Hx. induction xs as [|y xs IH]; intros acc g Hin; [destruct Hin|].
  cbn [for_each]. destruct Hin as [->|Hin].
  - apply bind_fails, Hx.
  - apply bind_fails_after. intros; now apply IH.
Qed.

(** ** The numbering switch and the line counter *)

Lemma keeps_numbering_refl g : keeps_numbering g g.
Proof. split; [reflexivity | lia]. Qed.

Lemma keeps_numbering_trans g1 g2 g3 :
  keeps_numbering g1 g2 -> keeps_numbering g2 g3 -> keeps_numbering g1 g3.
Proof. intros [E1 L1] [E2 L2]. split; [congruence | lia]. Qed.

Lemma keeps_numbering_advance g : keeps_numbering g (advance g).
Proof.
  unfold keeps_numbering, advance, LINEINCR.
  destruct g as [a1 a2 [] a4 a5 a6 a7 a8 a9 a10 a11 a12 a13 a14 a15 a16 a17]; cbn;
    split; (reflexivity || lia).
Qed.

Lemma steady_ret {A} (a : A) : steady (ret a).
Proof. intros g a' g' H. inversion H; subst. apply keeps_numbering_refl. Qed.

Lemma steady_raise {A} e : steady (@raise A e).
Proof. intros g a' g' H. discriminate. Qed.

Lemma steady_out_of_fuel {A} : steady (@out_of_fuel A).
Proof. intros g a' g' H. discriminate. Qed.

Lemma steady_gets {A} (f : Globals -> A) : steady (gets f).
Proof. intros g a' g' H. inversion H; subst. apply keeps_numbering_refl. Qed.

Lemma steady_modify (f : Globals -> Globals) :
  (forall g, keeps_numbering g (f g)) -> steady (modify f).
Proof. intros Hf g a' g' H. inversion H; subst. apply Hf. Qed.

Lemma steady_bind {A B} (m : M A) (k : A -> M B) :
  steady m -> (forall a, steady (k a)) -> steady (bind m k).
Proof.
  intros Hm Hk g b g' H. apply bind_ok in H as (a & g1 & H1 & H2).
  eapply keeps_numbering_trans; [eapply Hm | eapply Hk]; eassumption.
Qed.

Lemma steady_for_each {A S} (body : A -> S -> M S) (xs : list A) :
  (forall x acc, steady (body x acc)) -> forall acc, steady (for_each xs body acc).
Proof.
  intros Hb. induction xs as [|x xs IH]; intros acc; cbn [for_each].
  - apply steady_ret.
  - apply steady_bind; [apply Hb | intros; apply IH].
Qed.

Lemma steady_linenumber : steady linenumber.
Proof.
  intros g a g' H. rewrite linenumber_run in H. inversion H; subst.
  apply keeps_numbering_advance.
Qed.

Lemma setters_keep_numbering g :
  (forall v, keeps_numbering g (set_START_OR_M6 v g))
  /\ (forall v, keeps_numbering g (set_DRILL_RETRACT_MODE v g))
  /\ (forall v, keeps_numbering g (set_MOTION_MODE v g))
  /\ (forall v, keeps_numbering g (set_UNITS v g))
  /\ (forall v, keeps_numbering g (set_UNIT_FORMAT v g))
  /\ (forall v, keeps_numbering g (set_UNIT_SPEED_FORMAT v g))
  /\ (forall v, keeps_numbering g (set_CURRENT_X v g))
  /\ (forall v, keeps_numbering g (set_CURRENT_Y v g))
  /\ (forall v, keeps_numbering g (set_CURRENT_Z v g)).
Proof.
  destruct g; repeat split; cbn; lia.
Qed.

Create HintDb steady.
#[local] Hint Resolve steady_ret steady_raise steady_out_of_fuel steady_gets
  steady_linenumber : steady.

(** One step of a proof that a piece of the program is [steady]. *)
Ltac steady_step :=
  match goal with
  | |- steady (bind _ _) => apply steady_bind; [|intros]
  | |- steady (modify _) =>
      apply steady_modify; intros ?g; apply setters_keep_numbering
  | |- steady (for_each _ _ _) => apply steady_for_each; intros
  | |- steady (if ?b then _ else _) => destruct b
  | |- steady (match ?x with _ => _ end) => destruct x
  | |- steady _ => solve [auto with steady]
  end.
Ltac steady_tac := repeat steady_step.

Lemma steady_numbered text : steady (numbered text).
Proof. unfold numbered. steady_tac. Qed.
#[local] Hint Resolve steady_numbered : steady.

Lemma steady_emit_block text out : steady (emit_block text out).
Proof. unfold emit_block. steady_tac. Qed.
#[local] Hint Resolve steady_emit_block : steady.

Lemma steady_emit_lines text gcode : steady (emit_lines text gcode).
Proof. unfold emit_lines. steady_tac. Qed.
#[local] Hint Resolve steady_emit_lines : steady.

Lemma steady_tool_change command out outstring :
  steady (tool_change command out outstring).
Proof. unfold tool_change. steady_tac. Qed.

Lemma steady_motion_bookkeeping command c outstring :
  steady (motion_bookkeeping command c outstring).
Proof. unfold motion_bookkeeping. steady_tac. Qed.

Lemma steady_rapid_Z z : steady (rapid_Z z).
Proof. unfold rapid_Z, getValueAs_of. steady_tac. Qed.

Lemma steady_feed_Z z speed : steady (feed_Z z speed).
Proof. unfold feed_Z. steady_tac. Qed.
#[local] Hint Resolve steady_tool_change steady_motion_bookkeeping steady_rapid_Z
  steady_feed_Z : steady.

Lemma steady_peck_loop fuel drill_Z RETRACT_Z step speed :
  forall next trBuff, steady (peck_loop fuel drill_Z RETRACT_Z step speed next trBuff).
Proof.
  induction fuel as [|fuel IH]; intros next trBuff; cbn [peck_loop].
  - apply steady_out_of_fuel.
  - steady_tac.
Qed.
#[local] Hint Resolve steady_peck_loop : steady.

Lemma steady_drill_moves fuel cmd x y z r speed step dwell trBuff :
  steady (drill_moves fuel cmd x y z r speed step dwell trBuff).
Proof. unfold drill_moves. steady_tac. Qed.

Lemma steady_cycle_comment outstring cmd : steady (cycle_comment outstring cmd).
Proof. unfold cycle_comment. steady_tac. Qed.

Lemma steady_getitem d k : steady (getitem d k).
Proof. unfold getitem. steady_tac. Qed.
#[local] Hint Resolve steady_drill_moves steady_cycle_comment steady_getitem : steady.

Lemma steady_cycle_numbers cmd params : steady (cycle_numbers cmd params).
Proof. unfold cycle_numbers. steady_tac. Qed.
#[local] Hint Resolve steady_cycle_numbers : steady.

Lemma steady_drill_translate fuel outstring cmd params :
  steady (drill_translate fuel outstring cmd params).
Proof. unfold drill_translate. steady_tac. Qed.

Lemma steady_pop0 l : steady (pop0 l).
Proof. unfold pop0. steady_tac. Qed.
#[local] Hint Resolve steady_drill_translate steady_pop0 : steady.

Lemma steady_parse_command fuel c carried : steady (parse_command fuel c carried).
Proof. unfold parse_command. destruct carried. steady_tac. Qed.
#[local] Hint Resolve steady_parse_command : steady.

Lemma steady_parse_commands fuel cs out : steady (parse_commands fuel cs out).
Proof. unfold parse_commands. steady_tac. Qed.
#[local] Hint Resolve steady_parse_commands : steady.

Lemma steady_str_iadd acc v : steady (str_iadd acc v).
Proof. unfold str_iadd. steady_tac. Qed.
#[local] Hint Resolve steady_str_iadd : steady.

(** ** The walk over the tree *)

Lemma parse_Compound fuel label has_path group :
  parse fuel (Compound label has_path group)
  = (comments <- gets OUTPUT_COMMENTS ;;
     out <- (if comments
             then numbered ("(compound: " ++ label ++ ")" ++ nl)
             else ret "") ;;
     out <- parse_children fuel group out ;;
     ret (OStr out)).
Proof. reflexivity. Qed.

Lemma parse_Leaf fuel label commands :
  parse fuel (Leaf label commands)
  = (comments <- gets OUTPUT_COMMENTS ;;
     out <- (if comments
             then s <- numbered ("(Path: " ++ label ++ ")" ++ nl) ;; ret (OStr s)
             else ret (OStr "")) ;;
     parse_commands fuel commands out).
Proof. reflexivity. Qed.

(** Induction over a tree, with the property known of all children. *)
Lemma PathNode_nested_ind (P : PathNode -> Prop) :
  (forall label has_path group, Forall P group -> P (Compound label has_path group)) ->
  (forall label commands, P (Leaf label commands)) ->
  (forall label, P (Other label)) ->
  forall obj, P obj.
Proof.
  intros Hc Hl Ho. fix IH 1. intros [label has_path group | label commands | label].
  - apply Hc. induction group as [|p ps IHps]; constructor; [apply IH | exact IHps].
  - apply Hl.
  - apply Ho.
Qed.

Lemma steady_parse fuel obj : steady (parse fuel obj).
Proof.
  induction obj as [label has_path group IH | label commands | label]
    using PathNode_nested_ind.
  - rewrite parse_Compound. steady_tac.
    match goal with |- steady (parse_children _ _ ?o) => generalize o end.
    induction IH as [|p ps Hp _ IHps]; intros out; cbn [parse_children]; steady_tac.
  - rewrite parse_Leaf. steady_tac.
  - apply steady_ret.
Qed.
#[local] Hint Resolve steady_parse : steady.

Lemma steady_establish_modes gcode : steady (establish_modes gcode).
Proof. unfold establish_modes. steady_tac. Qed.

Lemma steady_export_object fuel obj gcode : steady (export_object fuel obj gcode).
Proof. unfold export_object. steady_tac. Qed.
#[local] Hint Resolve steady_export_object : steady.

Lemma steady_export_objects fuel objs :
  forall gcode, steady (export_objects fuel objs gcode).
Proof.
  induction objs as [|obj rest IH]; intros gcode; cbn [export_objects]; steady_tac.
Qed.
#[local] Hint Resolve steady_establish_modes steady_export_objects : steady.

(** ** Line numbers across calls *)

Lemma bind_assoc {A B C} (m : M A) (k1 : A -> M B) (k2 : B -> M C) g :
  bind (bind m k1) k2 g = bind m (fun a => bind (k1 a) k2) g.
Proof. unfold bind. destruct (m g); reflexivity. Qed.

Lemma bind_ret {A B} (a : A) (k : A -> M B) g : bind (ret a) k g = k a g.
Proof. reflexivity. Qed.

Lemma bind_gets {A B} (f : Globals -> A) (k : A -> M B) g :
  bind (gets f) k g = k (f g) g.
Proof. reflexivity. Qed.

Lemma bind_modify {B} (f : Globals -> Globals) (k : unit -> M B) g :
  bind (modify f) k g = k tt (f g).
Proof. reflexivity. Qed.

Lemma bind_raise {A B} e (k : A -> M B) g : bind (raise e) k g = Raise e g.
Proof. reflexivity. Qed.

Lemma bind_numbered {B} text (k : string -> M B) g :
  bind (numbered text) k g = k (line_prefix g ++ text) (advance g).
Proof. unfold bind. now rewrite numbered_run. Qed.

Ltac run_in H :=
  repeat first [ rewrite bind_assoc in H | rewrite bind_ret in H
               | rewrite bind_gets in H | rewrite bind_modify in H
               | rewrite bind_raise in H | rewrite bind_numbered in H
               | progress cbv beta in H ].

Ltac run :=
  repeat first [ rewrite bind_assoc | rewrite bind_ret | rewrite bind_gets
               | rewrite bind_modify | rewrite bind_raise | rewrite bind_numbered
               | progress cbv beta ].

Lemma starts_with_number_app n s t :
  starts_with_number n s -> starts_with_number n (s ++ t).
Proof.
  intros [rest ->]. exists (rest ++ t). now rewrite !string_app_assoc.
Qed.

Lemma advance_numbering g :
  OUTPUT_LINE_NUMBERS g = true ->
  LINENR (advance g) = LINENR g + 10 /\ OUTPUT_LINE_NUMBERS (advance g) = true.
Proof.
  unfold advance. intros H. rewrite H.
  destruct g; cbn in *. subst. split; reflexivity.
Qed.

Lemma numbered_appended g0 gcode g text :
  OUTPUT_LINE_NUMBERS g = true ->
  numbered_so_far g0 gcode g ->
  numbered_so_far g0 (gcode ++ line_prefix g ++ text) (advance g)
  /\ starts_with_number (LINENR g0) (gcode ++ line_prefix g ++ text)
  /\ LINENR g0 < LINENR (advance g)
  /\ OUTPUT_LINE_NUMBERS (advance g) = true.
Proof.
  intros Hon Hinv. destruct (advance_numbering g Hon) as [Hn Hon'].
  assert (Hs : starts_with_number (LINENR g0) (gcode ++ line_prefix g ++ text)
               /\ LINENR g0 < LINENR (advance g)).
  { destruct Hinv as [[-> E] | [Hs Hlt]].
    - split; [|lia]. unfold line_prefix. rewrite Hon, E.
      exists text. change ("" ++ ?x) with x. now rewrite !string_app_assoc.
    - split; [now apply starts_with_number_app | lia]. }
  destruct Hs as [Hs Hlt]. split; [right; split; assumption|]. auto.
Qed.

Lemma emit_lines_numbered g0 text :
  forall gcode g s' g',
    OUTPUT_LINE_NUMBERS g = true ->
    numbered_so_far g0 gcode g ->
    emit_lines text gcode g = Ok s' g' ->
    numbered_so_far g0 s' g' /\ OUTPUT_LINE_NUMBERS g' = true.
Proof.
  unfold emit_lines. induction (Py.splitlines_keepends text) as [|line ls IH];
    intros gcode g s' g' Hon Hinv H; cbn [for_each] in H.
  - inversion H; subst. auto.
  - run_in H.
    destruct (numbered_appended g0 gcode g line Hon Hinv) as (Hinv' & _ & _ & Hon').
    apply (IH _ _ _ _ Hon' Hinv' H).
Qed.

Lemma write_header_numbered env g0 g s' g' :
  OUTPUT_LINE_NUMBERS g = true ->
  numbered_so_far g0 "" g ->
  write_header env "" g = Ok s' g' ->
  numbered_so_far g0 s' g' /\ OUTPUT_LINE_NUMBERS g' = true.
Proof.
  intros Hon Hinv H. unfold write_header in H. run_in H.
  destruct (OUTPUT_HEADER g); run_in H; inversion H; subst; clear H; [|auto].
  destruct (numbered_appended g0 "" g ("(Exported by FreeCAD)" ++ nl) Hon Hinv)
    as (_ & Hs & Hlt & Hon1).
  destruct (advance_numbering _ Hon1) as [Hn2 Hon2].
  destruct (advance_numbering _ Hon2) as [Hn3 Hon3].
  split; [|exact Hon3]. right. split; [|lia].
  change ("" ++ ?x) with x in *. now apply starts_with_number_app.
Qed.

Lemma write_preamble_numbered g0 gcode g s' g' :
  OUTPUT_LINE_NUMBERS g = true ->
  numbered_so_far g0 gcode g ->
  write_preamble gcode g = Ok s' g' ->
  starts_with_number (LINENR g0) s' /\ LINENR g0 < LINENR g'
  /\ OUTPUT_LINE_NUMBERS g' = true.
Proof.
  intros Hon Hinv H. unfold write_preamble in H. run_in H.
  assert (Hc : exists gcode1 g1,
             numbered_so_far g0 gcode1 g1 /\ OUTPUT_LINE_NUMBERS g1 = true
             /\ (gcode2 <- emit_lines (PREAMBLE g1) gcode1 ;;
                 units <- gets UNITS ;;
                 s <- numbered (units ++ nl) ;;
                 ret (gcode2 ++ s)) g1 = Ok s' g').
  { destruct (OUTPUT_COMMENTS g); run_in H.
    - destruct (numbered_appended g0 gcode g ("(begin preamble)" ++ nl) Hon Hinv)
        as (Hinv' & _ & _ & Hon').
      eauto.
    - eauto. }
  clear H. destruct Hc as (gcode1 & g1 & Hinv1 & Hon1 & H).
  apply bind_ok in H as (gcode2 & g2 & Hlines & H). run_in H.
  destruct (emit_lines_numbered _ _ _ _ _ _ Hon1 Hinv1 Hlines) as [Hinv2 Hon2].
  inversion H; subst; clear H.
  destruct (numbered_appended g0 gcode2 g2 (UNITS g2 ++ nl) Hon2 Hinv2)
    as (_ & Hs & Hlt & Hon3).
  auto.
Qed.

Lemma string_app_nil_r (s : string) : s ++ "" = s.
Proof.
  induction s as [|c s IH]; [reflexivity|].
  change (String c (s ++ "") = String c s). now rewrite IH.
Qed.

Lemma extends_refl s : extends s s.
Proof. exists "". now rewrite string_app_nil_r. Qed.

Lemma extends_app s t : extends s (s ++ t).
Proof. now exists t. Qed.

Lemma extends_trans s1 s2 s3 : extends s1 s2 -> extends s2 s3 -> extends s1 s3.
Proof. intros [a ->] [b ->]. exists (a ++ b). now rewrite string_app_assoc. Qed.

Lemma starts_with_number_extends n s s' :
  starts_with_number n s -> extends s s' -> starts_with_number n s'.
Proof. intros Hs [t ->]. now apply starts_with_number_app. Qed.

Lemma emit_lines_grows text :
  forall gcode g s' g', emit_lines text gcode g = Ok s' g' -> extends gcode s'.
Proof.
  unfold emit_lines. induction (Py.splitlines_keepends text) as [|line ls IH];
    intros gcode g s' g' H; cbn [for_each] in H.
  - inversion H; subst. apply extends_refl.
  - run_in H. apply IH in H. eapply extends_trans; [apply extends_app | exact H].
Qed.

Lemma establish_modes_grows gcode g s' g' :
  establish_modes gcode g = Ok s' g' -> extends gcode s'.
Proof.
  unfold establish_modes. intros H. run_in H.
  assert (Hc : exists gcode1 g1,
             extends gcode gcode1
             /\ (if Py.str_in "G71" (PREAMBLE g) then
                   modify (set_UNITS "G71") ;; modify (set_UNIT_FORMAT "mm") ;;
                   modify (set_UNIT_SPEED_FORMAT "mm/min") ;; ret gcode1
                 else if Py.str_in "G21" (PREAMBLE g) then
                   modify (set_UNITS "G71") ;; modify (set_UNIT_FORMAT "mm") ;;
                   modify (set_UNIT_SPEED_FORMAT "mm/min") ;; ret gcode1
                 else if Py.str_in "G70" (PREAMBLE g) then
                   modify (set_UNITS "G70") ;; modify (set_UNIT_FORMAT "in") ;;
                   modify (set_UNIT_SPEED_FORMAT "in/min") ;; ret gcode1
                 else if Py.str_in "G20" (PREAMBLE g) then
                   modify (set_UNITS "G70") ;; modify (set_UNIT_FORMAT "in") ;;
                   modify (set_UNIT_SPEED_FORMAT "in/min") ;; ret gcode1
                 else
                   units <- gets UNITS ;;
                   s <- numbered (units ++ nl) ;; ret (gcode1 ++ s)) g1 = Ok s' g').
  { destruct (Py.str_in "G90" (PREAMBLE g)); [|destruct (Py.str_in "G91" (PREAMBLE g))];
      run_in H; do 2 eexists; (split; [|exact H]);
      (apply extends_refl || apply extends_app). }
  clear H. destruct Hc as (gcode1 & g1 & Hext & H).
  eapply extends_trans; [exact Hext|].
  destruct (Py.str_in "G71" (PREAMBLE g)); [|destruct (Py.str_in "G21" (PREAMBLE g));
    [|destruct (Py.str_in "G70" (PREAMBLE g)); [|destruct (Py.str_in "G20" (PREAMBLE g))]]];
    run_in H; inversion H; subst; (apply extends_refl || apply extends_app).
Qed.

Lemma str_iadd_grows acc v g s' g' : str_iadd acc v g = Ok s' g' -> extends acc s'.
Proof.
  destruct v; cbn; intros H; inversion H; subst. apply extends_app.
Qed.

(** One object of the loop: its tree was walked to the end, and the text
    has only grown. *)
Lemma export_object_inv fuel obj gcode g s' g' :
  export_object fuel obj gcode g = Ok s' g' ->
  extends gcode s' /\ exists g1 sub g2, parse fuel obj g1 = Ok sub g2.
Proof.
  unfold export_object. intros H. run_in H.
  apply bind_ok in H as (gcode1 & g1 & H1 & H).
  assert (E1 : extends gcode gcode1).
  { destruct (OUTPUT_COMMENTS g); run_in H1; inversion H1; subst;
      (apply extends_refl || apply extends_app). }
  apply bind_ok in H as (gcode2 & g2 & H2 & H). apply emit_lines_grows in H2.
  apply bind_ok in H as (sub & g3 & Hparse & H).
  apply bind_ok in H as (gcode3 & g4 & H3 & H). apply str_iadd_grows in H3.
  run_in H.
  apply bind_ok in H as (gcode4 & g5 & H4 & H).
  assert (E4 : extends gcode3 gcode4).
  { destruct (OUTPUT_COMMENTS g4); run_in H4; inversion H4; subst;
      (apply extends_refl || apply extends_app). }
  apply emit_lines_grows in H.
  split; [|eauto].
  repeat (eapply extends_trans; [eassumption|]). apply extends_refl.
Qed.

Lemma export_objects_grows fuel objs :
  forall gcode g s' g',
    export_objects fuel objs gcode g = Ok (Some s') g' -> extends gcode s'.
Proof.
  induction objs as [|obj rest IH]; intros gcode g s' g' H; cbn [export_objects] in H.
  - inversion H; subst. apply extends_refl.
  - destruct (hasattr_Path obj); cbn [negb] in H; [|inversion H].
    apply bind_ok in H as (gcode1 & g1 & H1 & H).
    apply export_object_inv in H1 as [E1 _]. apply IH in H.
    eapply extends_trans; eassumption.
Qed.

Lemma write_postamble_grows gcode g s' g' :
  write_postamble gcode g = Ok s' g' -> extends gcode s'.
Proof.
  unfold write_postamble. intros H. run_in H.
  apply bind_ok in H as (gcode1 & g1 & H1 & H). run_in H.
  apply emit_lines_grows in H.
  eapply extends_trans; [|exact H].
  destruct (OUTPUT_COMMENTS g); run_in H1; inversion H1; subst;
    (apply extends_refl || apply extends_app).
Qed.

Lemma steady_write_postamble gcode : steady (write_postamble gcode).
Proof. unfold write_postamble. steady_tac. Qed.

(** ** Decimal numerals *)

Lemma str_int_inj a b : Py.str_int a = Py.str_int b -> a = b.
Proof.
  unfold Py.str_int. intros H. apply DecimalZ.to_int_inj.
  assert (Hn : forall n, Z.to_int n <> Decimal.Pos Decimal.Nil
                         /\ Z.to_int n <> Decimal.Neg Decimal.Nil).
  { intros [|p|p]; cbn; split; try discriminate;
      intros E; inversion E as [E'];
      now apply DecimalPos.Unsigned.to_uint_nonnil in E'. }
  destruct (Hn a) as [Ha1 Ha2], (Hn b) as [Hb1 Hb2].
  pose proof (NilZero.isi _ Ha1 Ha2) as Ea.
  pose proof (NilZero.isi _ Hb1 Hb2) as Eb.
  rewrite H in Ea. congruence.
Qed.

Lemma string_cons_app c (s t : string) : String c s ++ t = String c (s ++ t).
Proof. reflexivity. Qed.

Lemma string_nil_app (t : string) : "" ++ t = t.
Proof. reflexivity. Qed.

Lemma no_space_uint d : no_space (NilEmpty.string_of_uint d) = true.
Proof. induction d; cbn; auto. Qed.

Lemma no_space_str_int n : no_space (Py.str_int n) = true.
Proof.
  unfold Py.str_int, NilZero.string_of_int, NilZero.string_of_uint.
  destruct (Z.to_int n) as [d|d]; destruct d; cbn; try reflexivity;
    apply no_space_uint.
Qed.

(** Two numerals followed by a space and then anything: equal texts have
    equal numerals. *)
Lemma numeral_prefix_inj s1 :
  forall s2 r1 r2,
    no_space s1 = true -> no_space s2 = true ->
    s1 ++ " " ++ r1 = s2 ++ " " ++ r2 -> s1 = s2.
Proof.
  induction s1 as [|c s1 IH]; intros [|c2 s2] r1 r2 H1 H2 E;
    repeat (rewrite string_cons_app in E || rewrite string_nil_app in E).
  - reflexivity.
  - inversion E; subst. vm_compute in H2. discriminate.
  - inversion E; subst. vm_compute in H1. discriminate.
  - inversion E; subst. cbn [no_space] in H1, H2.
    apply andb_prop in H1 as [_ H1]. apply andb_prop in H2 as [_ H2].
    f_equal. exact (IH s2 r1 r2 H1 H2 H3).
Qed.

Lemma starts_with_number_inj a b s :
  starts_with_number a s -> starts_with_number b s -> a = b.
Proof.
  intros [r1 ->] [r2 E].
  repeat (rewrite string_cons_app in E || rewrite string_nil_app in E).
  inversion E as [E']. apply str_int_inj.
  eapply numeral_prefix_inj; [apply no_space_str_int.. | exact E'].
Qed.

(** ** [processArguments] and the first number of an export *)

Lemma processArguments_run args g :
  exists gA,
    processArguments (Parsed args) g = Ok true gA
    /\ LINENR gA = LINENR g
    /\ OUTPUT_LINE_NUMBERS gA = numbering_enabled args g.
Proof.
  unfold processArguments, numbering_enabled.
  destruct args as [a1 a2 a3 a4 a5 a6 a7 a8 p pre post]. cbn.
  destruct g as [h c n e pr pa po l s d m u uf us x y z].
  destruct a1, a2, a3, a4, a5, a6, a7, a8, pre, post; run; cbn;
    eexists; repeat split.
Qed.

Lemma export_first_number env fuel objs filename args g text g1 :
  passthrough env ->
  numbering_enabled args g = true ->
  export env fuel objs filename (Parsed args) g = Ok (Some text) g1 ->
  starts_with_number (LINENR g) text
  /\ LINENR g < LINENR g1
  /\ OUTPUT_LINE_NUMBERS g1 = true.
Proof.
  intros Hpass Hnum H. unfold export in H.
  destruct (processArguments_run args g) as (gA & HA & HlA & HonA).
  rewrite Hnum in HonA.
  apply bind_ok in H as (ok & gA' & HA' & H). rewrite HA in HA'.
  inversion HA'; subst ok gA'; clear HA'. cbn [negb] in H.
  apply bind_ok in H as (gcode1 & g2 & H1 & H).
  apply bind_ok in H as (gcode2 & g3 & H2 & H).
  apply bind_ok in H as (gcode3 & g4 & H3 & H).
  apply bind_ok in H as (body & g5 & H4 & H).
  destruct body as [gcode4|]; [|inversion H].
  apply bind_ok in H as (gcode5 & g6 & H5 & H). run_in H.
  assert (Hinv0 : numbered_so_far gA "" gA) by (left; split; reflexivity).
  destruct (write_header_numbered _ _ _ _ _ HonA Hinv0 H1) as [Hinv1 Hon2].
  destruct (write_preamble_numbered _ _ _ _ _ Hon2 Hinv1 H2) as (Hs2 & Hlt3 & Hon3).
  pose proof (steady_establish_modes _ _ _ _ H3) as [Hon4 Hle4].
  pose proof (steady_export_objects _ _ _ _ _ _ H4) as [Hon5 Hle5].
  pose proof (steady_write_postamble _ _ _ _ H5) as [Hon6 Hle6].
  apply establish_modes_grows in H3. apply export_objects_grows in H4.
  apply write_postamble_grows in H5.
  assert (Hs5 : starts_with_number (LINENR g) gcode5).
  { rewrite <- HlA.
    repeat (eapply starts_with_number_extends; [|eassumption]). exact Hs2. }
  inversion H; subst; clear H.
  split; [|split; [lia | congruence]].
  destruct (GuiUp env && SHOW_EDITOR g1)%bool; [|exact Hs5].
  destruct (editor_dialog env gcode5) as [edited|] eqn:Hed; [|exact Hs5].
  apply Hpass in Hed. now subst.
Qed.

(** ** Export called twice *)

(** C10.  Two calls of [export] in a row with the same arguments, line
    numbering on, the editor (if shown) leaving the text as it is, and
    both calls writing their file: the line counter is strictly larger
    after the first call than before it, the first text starts with the
    number the counter had before the first call, the second text starts
    with the number the counter reached at the end of the first call, and
    the two texts differ. *)
Theorem export_continues_line_numbers
    env1 env2 fuel objs filename args g text1 g1 text2 g2 :
  passthrough env1 -> passthrough env2 ->
  numbering_enabled args g = true ->
  export env1 fuel objs filename (Parsed args) g = Ok (Some text1) g1 ->
  export env2 fuel objs filename (Parsed args) g1 = Ok (Some text2) g2 ->
  LINENR g < LINENR g1
  /\ starts_with_number (LINENR g) text1
  /\ starts_with_number (LINENR g1) text2
  /\ text1 <> text2.
Proof.
  intros Hp1 Hp2 Hnum H1 H2.
  destruct (export_first_number _ _ _ _ _ _ _ _ Hp1 Hnum H1) as (Hs1 & Hlt & Hon1).
  assert (Hnum1 : numbering_enabled args g1 = true).
  { unfold numbering_enabled in *. destruct (line_numbers args); [reflexivity|].
    destruct (no_line_numbers args); [discriminate | exact Hon1]. }
  destruct (export_first_number _ _ _ _ _ _ _ _ Hp2 Hnum1 H2) as (Hs2 & _ & _).
  repeat split; try assumption.
  intros ->. pose proof (starts_with_number_inj _ _ _ Hs1 Hs2). lia.
Qed.

Lemma export_continues_line_numbers_witness :
  (passthrough headless
   /\ numbering_enabled default_args initial_globals = true
   /\ export headless 0 sample_objects "out.iso" (Parsed default_args) initial_globals
      = Ok (Some sample_text1) sample_globals1
   /\ export headless 0 sample_objects "out.iso" (Parsed default_args) sample_globals1
      = Ok (Some sample_text2) sample_globals2)
  /\ (LINENR initial_globals < LINENR sample_globals1
      /\ starts_with_number (LINENR initial_globals) sample_text1
      /\ starts_with_number (LINENR sample_globals1) sample_text2
      /\ sample_text1 <> sample_text2).
Proof.
  assert (Hp : passthrough headless) by (intros s t H; discriminate H).
  assert (Hn : numbering_enabled default_args initial_globals = true) by reflexivity.
  assert (H1 : export headless 0 sample_objects "out.iso" (Parsed default_args) initial_globals
               = Ok (Some sample_text1) sample_globals1) by (vm_compute; reflexivity).
  assert (H2 : export headless 0 sample_objects "out.iso" (Parsed default_args) sample_globals1
               = Ok (Some sample_text2) sample_globals2) by (vm_compute; reflexivity).
  split; [split; [exact Hp | split; [exact Hn | split; [exact H1 | exact H2]]]|].
  exact (export_continues_line_numbers headless headless 0 sample_objects "out.iso"
           default_args initial_globals _ _ _ _ Hp Hp Hn H1 H2).
Defined.

(** The second text of the witness starts where the first one stopped. *)
Example export_twice_text :
  LINENR sample_globals1 = 150
  /\ sample_text2
     = unlines ["N150 (Exported by FreeCAD)";
                "N160 (Post Processor: charly_post)";
                "N170 (Output Time: 2021-01-01 00:00:00)";
                "N180 (begin preamble)"; "N190 G71"; "N200 G90"; "N210 G71";
                "N220 (begin operation: op)"; "N230 (Path: op)";
                "N240 G0 X1.000 Y2.000 Z3.000";
                "N250 (finish operation: op)"; "N260 (begin postamble)";
                "N270 M5"; "N280 M2"].
Proof. split; vm_compute; reflexivity. Qed.

(** ** Drilling cycles with a missing parameter *)

(** The parameters are read in the order X, Y, Z, R, F, then Q or P: the
    first one that is missing gives the KeyError. *)
Lemma cycle_numbers_raises cmd params g k :
  List.find (fun k => negb (has_key k params)) (required_parameters cmd) = Some k ->
  cycle_numbers cmd params g = Raise (KeyError k) g.
Proof.
  intros H. unfold cycle_numbers, required_parameters, has_key in *. unfold_monad.
  destruct (String.eqb (MOTION_MODE g) "G90");
  (destruct (params !! "X") eqn:EX; cbn in H; rewrite EX in H; cbn in H;
   [|inversion H; reflexivity]);
  (destruct (params !! "Y") eqn:EY; [|inversion H; reflexivity]);
  (destruct (params !! "Z") eqn:EZ; [|inversion H; reflexivity]);
  (destruct (params !! "R") eqn:ER; [|inversion H; reflexivity]);
  (destruct (params !! "F") eqn:EF; [|inversion H; reflexivity]);
  (destruct (String.eqb cmd "G83");
   [destruct (params !! "Q") eqn:EQ; cbn in H; rewrite EQ in H; cbn in H;
    [discriminate | inversion H; reflexivity]
   |destruct (String.eqb cmd "G82");
    [destruct (params !! "P") eqn:EP; cbn in H; rewrite EP in H; cbn in H;
     [discriminate | inversion H; reflexivity]
    |discriminate]]).
Qed.

Lemma drill_translate_raises fuel outstring cmd params g k :
  List.find (fun k => negb (has_key k params)) (required_parameters cmd) = Some k ->
  exists g', drill_translate fuel outstring cmd params g = Raise (KeyError k) g'.
Proof.
  intros H. unfold drill_translate.
  destruct (cycle_comment_run outstring cmd g) as (text & g1 & Hc & _).
  exists g1. unfold bind. now rewrite Hc, (cycle_numbers_raises cmd params g1 k H).
Qed.

(** What the name of a cycle command rules out in [parse_command]. *)
Lemma cycle_name_facts name :
  Py.in_list name ["G81"; "G82"; "G83"] = true ->
  translate_code name = name
  /\ (forall out outstring, tool_change name out outstring = ret (out, outstring))
  /\ Py.in_list name MODAL_COMMANDS = false
  /\ (forall c outstring, motion_bookkeeping name c outstring = ret outstring)
  /\ Py.in_list name ["G98"; "G99"] = false
  /\ Py.in_list name ["G90"; "G91"] = false.
Proof.
  intros H. assert (Hn : name = "G81" \/ name = "G82" \/ name = "G83").
  { unfold Py.in_list in H. cbn [existsb] in H.
    repeat (apply orb_prop in H as [H|H]); try discriminate;
      apply String.eqb_eq in H; auto. }
  destruct Hn as [-> | [-> | ->]]; repeat split.
Qed.

Lemma missing_parameter_found c k :
  missing_parameter c = Some k ->
  Py.in_list (Name c) ["G81"; "G82"; "G83"] = true
  /\ List.find (fun k => negb (has_key k (Parameters c))) (required_parameters (Name c))
     = Some k
  /\ In k (required_parameters (Name c)) /\ Parameters c !! k = None.
Proof.
  unfold missing_parameter. destruct (Py.in_list (Name c) _); [|discriminate].
  intros H. split; [reflexivity|]. split; [exact H|].
  apply find_some in H as [Hin Hk]. split; [exact Hin|].
  unfold has_key in Hk. destruct (Parameters c !! k); [discriminate | reflexivity].
Qed.

Lemma parse_command_raises fuel c carried g k :
  missing_parameter c = Some k ->
  exists g', parse_command fuel c carried g = Raise (KeyError k) g'.
Proof.
  intros H. destruct (missing_parameter_found c k H) as (Hname & Hmiss & _).
  destruct (cycle_name_facts _ Hname) as (Etr & Etc & Emodal & Emotion & E98 & E90).
  destruct carried as [out last]. unfold parse_command.
  rewrite Etr, Etc. run. rewrite Emodal, andb_false_r. unfold MODAL. run.
  rewrite Emotion. run. rewrite E98, E90, Hname. run.
  destruct (drill_translate_raises fuel (add_parameters g (Name c) c [Name c])
              (Name c) (Parameters c) g k Hmiss) as (g' & Hr).
  exists g'. unfold id, bind at 1. now rewrite Hr.
Qed.

Lemma lacks_required_missing c :
  lacks_required c = true <-> exists k, missing_parameter c = Some k.
Proof.
  unfold lacks_required, missing_parameter.
  destruct (Py.in_list (Name c) _); cbn [andb]; [|split; [discriminate | intros [k H]; discriminate]].
  split.
  - intros H. apply existsb_exists in H as (k & Hin & Hk).
    destruct (List.find _ _) as [k'|] eqn:E; [eauto|].
    pose proof (find_none _ _ E k Hin) as Hn. cbv beta in Hn. congruence.
  - intros [k H]. apply find_some in H as [Hin Hk].
    apply existsb_exists. eauto.
Qed.

(** An exception raised by one command of a loop ends the loop. *)
Lemma for_each_raises {A S} (body : A -> S -> M S) pre x post e :
  forall acc g acc1 g1 g2,
    for_each pre body acc g = Ok acc1 g1 ->
    body x acc1 g1 = Raise e g2 ->
    for_each (pre ++ x :: post)%list body acc g = Raise e g2.
Proof.
  induction pre as [|y pre IH]; intros acc g acc1 g1 g2 Hpre Hx; cbn [app for_each].
  - inversion Hpre; subst. unfold bind. now rewrite Hx.
  - cbn [for_each] in Hpre. apply bind_ok in Hpre as (acc' & g' & Hy & Hpre).
    unfold bind at 1. rewrite Hy. exact (IH _ _ _ _ _ Hpre Hx).
Qed.

Lemma cut_before_same c t t' :
  cut_before c t t' -> Label_of t = Label_of t' /\ hasattr_Path t = hasattr_Path t'.
Proof. intros []; split; reflexivity. Qed.

(** A walk that gets through the tree cut before a command on which
    [parse_command] raises ends, on the whole tree, with that exception. *)
Lemma parse_raises_at fuel c e :
  (forall carried g, exists g', parse_command fuel c carried g = Raise e g') ->
  forall t t', cut_before c t t' ->
  forall g out g1, parse fuel t' g = Ok out g1 ->
  exists g', parse fuel t g = Raise e g'.
Proof.
  intros Hc t t' Hcut.
  induction Hcut as [label pre post | label has_path before t t' after Hcut IH];
    intros g out g1 H.
  - rewrite parse_Leaf in H |- *. unfold parse_commands in *.
    apply bind_ok in H as (comments & ga & Hcom & H).
    apply bind_ok in H as (out0 & gb & Hout & H).
    apply bind_ok in H as (r & gc & Hfor & H).
    destruct (Hc r gc) as (g' & Hraise). exists g'.
    unfold bind at 1. rewrite Hcom. unfold bind at 1. rewrite Hout.
    unfold bind. now rewrite (for_each_raises _ pre c post e _ _ _ _ _ Hfor Hraise).
  - rewrite parse_Compound in H |- *.
    apply bind_ok in H as (comments & ga & Hcom & H).
    apply bind_ok in H as (out0 & gb & Hout & H).
    apply bind_ok in H as (s & gc & Hchildren & H).
    assert (Hgoal : exists g', parse_children fuel (before ++ t :: after)%list out0 gb
                               = Raise e g').
    { clear Hcom Hout H. revert out0 gb Hchildren.
      induction before as [|b before IHb]; intros out0 gb Hchildren; cbn [app] in *.
      - change (parse_children fuel [t'] out0 gb)
          with ((sub <- parse fuel t' ;; out' <- str_iadd out0 sub ;;
                 parse_children fuel [] out') gb) in Hchildren.
        apply bind_ok in Hchildren as (sub & g2 & Hsub & _).
        destruct (IH _ _ _ Hsub) as (g' & Hraise). exists g'.
        change (parse_children fuel (t :: after) out0 gb)
          with ((sub <- parse fuel t ;; out' <- str_iadd out0 sub ;;
                 parse_children fuel after out') gb).
        unfold bind. now rewrite Hraise.
      - change (parse_children fuel (b :: before ++ [t']) out0 gb)
          with ((sub <- parse fuel b ;; out' <- str_iadd out0 sub ;;
                 parse_children fuel (before ++ [t']) out') gb) in Hchildren.
        apply bind_ok in Hchildren as (sub & g2 & Hsub & Hchildren).
        apply bind_ok in Hchildren as (out' & g3 & Hadd & Hchildren).
        destruct (IHb _ _ Hchildren) as (g' & Hraise). exists g'.
        change (parse_children fuel (b :: before ++ t :: after) out0 gb)
          with ((sub <- parse fuel b ;; out' <- str_iadd out0 sub ;;
                 parse_children fuel (before ++ t :: after) out') gb).
        unfold bind at 1. rewrite Hsub. unfold bind at 1. rewrite Hadd. exact Hraise. }
    destruct Hgoal as (g' & Hraise). exists g'.
    unfold bind at 1. rewrite Hcom. unfold bind at 1. rewrite Hout.
    unfold bind. now rewrite Hraise.
Qed.

(** The same for the list of objects of [export]. *)
Lemma export_objects_raises_at fuel c e t t' after :
  (forall carried g, exists g', parse_command fuel c carried g = Raise e g') ->
  cut_before c t t' ->
  forall before gcode g s g1,
    export_objects fuel (before ++ [t'])%list gcode g = Ok (Some s) g1 ->
    exists g', export_objects fuel (before ++ t :: after)%list gcode g = Raise e g'.
Proof.
  intros Hc Hcut. destruct (cut_before_same c t t' Hcut) as [Hlabel Hpath].
  induction before as [|b before IH]; intros gcode g s g1 H; cbn [app export_objects] in *.
  - rewrite Hpath. destruct (hasattr_Path t'); cbn [negb] in *; [|discriminate].
    apply bind_ok in H as (gcode1 & g2 & Hobj & _).
    unfold export_object in Hobj |- *. rewrite Hlabel.
    apply bind_ok in Hobj as (comments & ga & Hcom & Hobj).
    apply bind_ok in Hobj as (gcode2 & gb & Hbegin & Hobj).
    apply bind_ok in Hobj as (gcode3 & gc & Hpre & Hobj).
    apply bind_ok in Hobj as (sub & gd & Hparse & _).
    destruct (parse_raises_at fuel c e Hc t t' Hcut _ _ _ Hparse) as (g' & Hraise).
    exists g'. unfold bind at 1. unfold bind at 1. rewrite Hcom.
    unfold bind at 1. rewrite Hbegin. unfold bind at 1. rewrite Hpre.
    unfold bind. now rewrite Hraise.
  - destruct (hasattr_Path b); cbn [negb] in *; [|discriminate].
    apply bind_ok in H as (gcode1 & g2 & Hobj & H).
    destruct (IH _ _ _ _ H) as (g' & Hraise). exists g'.
    unfold bind at 1. now rewrite Hobj.
Qed.

Lemma parse_fails_on fuel c :
  (forall carried g, fails (parse_command fuel c carried g)) ->
  forall obj g, In c (node_commands obj) -> fails (parse fuel obj g).
Proof.
  intros Hc. induction obj as [label has_path group IH | label commands | label]
    using PathNode_nested_ind; intros g Hin.
  - rewrite parse_Compound. cbn [node_commands] in Hin.
    apply bind_fails_after. intros comments g1 _.
    apply bind_fails_after. intros out g2 _.
    apply bind_fails. clear g g1. revert out g2.
    induction IH as [|p ps Hp _ IHps]; intros out g; [destruct Hin|].
    cbn [flat_map] in Hin. apply in_app_or in Hin.
    change (fails ((sub <- parse fuel p ;; out' <- str_iadd out sub ;;
                    parse_children fuel ps out') g)).
    destruct Hin as [Hin|Hin].
    + apply bind_fails. now apply Hp.
    + apply bind_fails_after. intros sub g1 _.
      apply bind_fails_after. intros out' g2 _. now apply IHps.
  - rewrite parse_Leaf. cbn [node_commands] in Hin.
    apply bind_fails_after. intros comments g1 _.
    apply bind_fails_after. intros out g2 _.
    unfold parse_commands. apply bind_fails. now apply for_each_fails with (x := c).
  - destruct Hin.
Qed.

Lemma export_objects_no_text fuel c :
  (forall obj g, In c (node_commands obj) -> fails (parse fuel obj g)) ->
  forall objs gcode g s' g',
    In c (flat_map node_commands objs) ->
    export_objects fuel objs gcode g = Ok (Some s') g' -> False.
Proof.
  intros Hc. induction objs as [|obj rest IH]; intros gcode g s' g' Hin H;
    [destruct Hin|].
  cbn [export_objects] in H. cbn [flat_map] in Hin. apply in_app_or in Hin.
  destruct (hasattr_Path obj); cbn [negb] in H; [|inversion H].
  apply bind_ok in H as (gcode1 & g1 & H1 & H).
  destruct Hin as [Hin|Hin].
  - apply export_object_inv in H1 as (_ & g2 & sub & g3 & Hparse).
    pose proof (Hc obj g2 Hin) as Hf. rewrite Hparse in Hf. exact Hf.
  - exact (IH _ _ _ _ Hin H).
Qed.

(** The steps of [export] that come before the objects cannot fail. *)
Lemma succeeds_bind {A B} (m : M A) (k : A -> M B) :
  succeeds m -> (forall a, succeeds (k a)) -> succeeds (bind m k).
Proof.
  intros Hm Hk g. unfold bind. destruct (Hm g) as (a & g1 & ->). apply Hk.
Qed.

Lemma succeeds_ret {A} (a : A) : succeeds (ret a).
Proof. intros g. unfold ret. eauto. Qed.

Lemma succeeds_gets {A} (f : Globals -> A) : succeeds (gets f).
Proof. intros g. unfold gets. eauto. Qed.

Lemma succeeds_modify f : succeeds (modify f).
Proof. intros g. unfold modify. eauto. Qed.

Lemma succeeds_numbered text : succeeds (numbered text).
Proof. intros g. rewrite numbered_run. eauto. Qed.

Lemma succeeds_for_each {A S} (body : A -> S -> M S) (xs : list A) :
  (forall x acc, succeeds (body x acc)) -> forall acc, succeeds (for_each xs body acc).
Proof.
  intros Hb. induction xs as [|x xs IH]; intros acc; cbn [for_each].
  - apply succeeds_ret.
  - apply succeeds_bind; [apply Hb | intros; apply IH].
Qed.

Ltac succeeds_step :=
  match goal with
  | |- succeeds (bind _ _) => apply succeeds_bind; [|intros]
  | |- succeeds (for_each _ _ _) => apply succeeds_for_each; intros
  | |- succeeds (if ?b then _ else _) => destruct b
  | |- succeeds (ret _) => apply succeeds_ret
  | |- succeeds (gets _) => apply succeeds_gets
  | |- succeeds (modify _) => apply succeeds_modify
  | |- succeeds (numbered _) => apply succeeds_numbered
  end.

Lemma succeeds_prologue env :
  succeeds (gcode <- write_header env "" ;;
            gcode <- write_preamble gcode ;;
            establish_modes gcode).
Proof.
  unfold write_header, write_preamble, establish_modes, emit_lines.
  repeat succeeds_step.
Qed.

Lemma prologue_then env {B} (K : string -> M B) g :
  exists gcode g1,
    (gcode <- write_header env "" ;;
     gcode <- write_preamble gcode ;;
     gcode <- establish_modes gcode ;;
     K gcode) g
    = K gcode g1.
Proof.
  destruct (succeeds_prologue env g) as (gcode & g1 & H). exists gcode, g1.
  unfold bind in *.
  destruct (write_header env "" g) as [a ga| |]; try discriminate.
  destruct (write_preamble a ga) as [b gb| |]; try discriminate.
  destruct (establish_modes b gb) as [d gd| |]; try discriminate.
  now inversion H.
Qed.

Lemma bind_raises {A B} (m : M A) (k : A -> M B) g e g' :
  m g = Raise e g' -> bind m k g = Raise e g'.
Proof. intros H. unfold bind. now rewrite H. Qed.

(** A job whose first object is a leaf that starts with a command on
    which [parse_command] raises: [export] ends with that exception. *)
Lemma export_raises_at_once c e :
  (forall fuel carried g, exists g', parse_command fuel c carried g = Raise e g') ->
  forall env fuel label post rest filename args g,
    exists g', export env fuel (Leaf label (c :: post) :: rest) filename (Parsed args) g
               = Raise e g'.
Proof.
  intros Hc env fuel label post rest filename args g. unfold export.
  destruct (processArguments_run args g) as (gA & HA & _).
  unfold bind at 1. rewrite HA. cbn [negb].
  match goal with
  | |- context [bind (write_header env "") (fun a => bind (write_preamble a) (fun b =>
                  bind (establish_modes b) ?K))] =>
      destruct (prologue_then env K gA) as (gcode & g1 & ->)
  end.
  cbn [export_objects hasattr_Path negb]. unfold export_object. cbn [Label_of].
  change (emit_lines PRE_OPERATION) with (fun gcode : string => ret gcode).
  rewrite parse_Leaf. unfold parse_commands. cbn [for_each].
  assert (Hgo : forall (out : PyOut) g2 B (k : PyOut * option string -> M B),
             exists g', bind (parse_command fuel c (out, None)) k g2 = Raise e g').
  { intros out g2 B k. destruct (Hc fuel (out, None) g2) as (g' & Hr).
    exists g'. now apply bind_raises. }
  destruct (OUTPUT_COMMENTS g1) eqn:Hcom; run; rewrite ?Hcom; run;
    rewrite ?(proj1 (proj2 (advance_fields _))), ?Hcom; run; apply Hgo.
Qed.

(** C9.  A G81, G82 or G83 command that lacks one of X, Y, Z, R, F (or Q
    for G83, P for G82), [k] being the first it lacks in that order:
    processing it ends with [KeyError(k)], whatever was gathered before,
    so no line of the cycle reaches the output; a walk that gets as far as
    the command ends with that KeyError, and so does the export of a job
    that runs without error up to the command, in particular of every job
    that starts with the command: the error reaches the caller of
    [export]; and an export of a job that holds such a command anywhere
    never writes a text. *)
Theorem missing_cycle_parameter_is_an_error (c : Command) (k : string) :
  missing_parameter c = Some k ->
  (In k (required_parameters (Name c)) /\ Parameters c !! k = None)
  /\ (forall fuel carried g,
        exists g', parse_command fuel c carried g = Raise (KeyError k) g')
  /\ (forall fuel t t' g out g1,
        cut_before c t t' ->
        parse fuel t' g = Ok out g1 ->
        exists g', parse fuel t g = Raise (KeyError k) g')
  /\ (forall env fuel before t t' after filename args g text g1,
        cut_before c t t' ->
        export env fuel (before ++ [t'])%list filename (Parsed args) g = Ok (Some text) g1 ->
        exists g', export env fuel (before ++ t :: after)%list filename (Parsed args) g
                   = Raise (KeyError k) g')
  /\ (forall env fuel label post rest filename args g,
        exists g', export env fuel (Leaf label (c :: post) :: rest) filename (Parsed args) g
                   = Raise (KeyError k) g')
  /\ (forall env fuel objs filename argstring g text g',
        In c (flat_map node_commands objs) ->
        export env fuel objs filename argstring g <> Ok (Some text) g').
Proof.
  intros Hmiss.
  assert (Hc : forall fuel carried g,
             exists g', parse_command fuel c carried g = Raise (KeyError k) g')
    by (intros; now apply parse_command_raises).
  split; [apply (missing_parameter_found c k Hmiss)|].
  split; [exact Hc|]. split; [|split; [|split]].
  - intros fuel t t' g out g1 Hcut H.
    exact (parse_raises_at fuel c _ (Hc fuel) t t' Hcut g out g1 H).
  - intros env fuel before t t' after filename args g text g1 Hcut H.
    unfold export in H |- *.
    apply bind_ok in H as (ok & ga & Hargs & H).
    unfold bind at 1. rewrite Hargs.
    destruct (negb ok); [inversion H|].
    apply bind_ok in H as (gcode1 & gb & H1 & H). unfold bind at 1. rewrite H1.
    apply bind_ok in H as (gcode2 & gc & H2 & H). unfold bind at 1. rewrite H2.
    apply bind_ok in H as (gcode3 & gd & H3 & H). unfold bind at 1. rewrite H3.
    apply bind_ok in H as (body & ge & Hbody & H).
    destruct body as [gcode4|]; [|inversion H].
    destruct (export_objects_raises_at fuel c _ t t' after (Hc fuel) Hcut _ _ _ _ _ Hbody)
      as (g' & Hraise).
    exists g'. unfold bind. now rewrite Hraise.
  - now apply export_raises_at_once.
  - intros env fuel objs filename argstring g text g' Hin H.
    unfold export in H.
    apply bind_ok in H as (ok & g1 & _ & H).
    destruct (negb ok); [inversion H|].
    apply bind_ok in H as (gcode1 & g2 & _ & H).
    apply bind_ok in H as (gcode2 & g3 & _ & H).
    apply bind_ok in H as (gcode3 & g4 & _ & H).
    apply bind_ok in H as (body & g5 & Hbody & H).
    destruct body as [gcode4|]; [|inversion H].
    eapply (export_objects_no_text fuel c); [|exact Hin|exact Hbody].
    apply parse_fails_on. intros carried g0.
    destruct (Hc fuel carried g0) as (g0' & ->). exact I.
Qed.

Lemma missing_cycle_parameter_is_an_error_witness :
  let c := command "G83" [("X", 1%Q); ("Y", 2%Q); ("Z", (-12)%Q); ("R", 5%Q); ("F", 5%Q)] in
  let k := "Q" in
  missing_parameter c = Some k
  /\ ((In k (required_parameters (Name c)) /\ Parameters c !! k = None)
      /\ (forall fuel carried g,
            exists g', parse_command fuel c carried g = Raise (KeyError k) g')
      /\ (forall fuel t t' g out g1,
            cut_before c t t' ->
            parse fuel t' g = Ok out g1 ->
            exists g', parse fuel t g = Raise (KeyError k) g')
      /\ (forall env fuel before t t' after filename args g text g1,
            cut_before c t t' ->
            export env fuel (before ++ [t'])%list filename (Parsed args) g
            = Ok (Some text) g1 ->
            exists g', export env fuel (before ++ t :: after)%list filename (Parsed args) g
                       = Raise (KeyError k) g')
      /\ (forall env fuel label post rest filename args g,
            exists g', export env fuel (Leaf label (c :: post) :: rest) filename
                              (Parsed args) g
                       = Raise (KeyError k) g')
      /\ (forall env fuel objs filename argstring g text g',
            In c (flat_map node_commands objs) ->
            export env fuel objs filename argstring g <> Ok (Some text) g')).
Proof.
  intros c k.
  assert (H : missing_parameter c = Some k) by (vm_compute; reflexivity).
  split; [exact H|]. exact (missing_cycle_parameter_is_an_error c k H).
Defined.

(** The export of the witness command after a move, as the caller sees
    it; the job cut before the command is written without error. *)
Example missing_step_export :
  let c := command "G83" [("X", 1%Q); ("Y", 2%Q); ("Z", (-12)%Q); ("R", 5%Q); ("F", 5%Q)] in
  let move := command "G0" [("Z", 5%Q)] in
  cut_before c (Leaf "op" ([move] ++ c :: [])) (Leaf "op" [move])
  /\ value_of (export headless 10 [Leaf "op" [move]] "out.iso"
                      (Parsed terse_args) initial_globals)
     = Some (Some (unlines ["G71"; "G90"; "G71"; "G0 X0.000 Y0.000 Z5.000"; "M5"; "M2"]))
  /\ exists g',
       export headless 10 [Leaf "op" [move; c]] "out.iso"
              (Parsed default_args) initial_globals
       = Raise (KeyError "Q") g'.
Proof.
  split; [constructor|]. split; [vm_compute; reflexivity|].
  eexists. vm_compute. reflexivity.
Qed.

(** ** Motion commands *)

(** What the name of a motion command rules out in [parse_command]. *)
Lemma motion_name_facts name :
  Py.in_list name MOTION_COMMANDS = true ->
  translate_code name = name
  /\ (forall out outstring, tool_change name out outstring = ret (out, outstring))
  /\ Py.in_list name ["G98"; "G99"] = false
  /\ Py.in_list name ["G90"; "G91"] = false
  /\ Py.in_list name ["G81"; "G82"; "G83"] = false
  /\ String.eqb name "message" = false
  /\ Py.in_list name SUPPRESS_COMMANDS = false.
Proof.
  intros H.
  assert (Hn : In name MOTION_COMMANDS).
  { unfold Py.in_list in H. apply existsb_exists in H as (x & Hx & E).
    apply String.eqb_eq in E. now subst. }
  cbn in Hn.
  repeat (destruct Hn as [<- | Hn]; [repeat split|]). destruct Hn.
Qed.

Lemma modal_is_motion name :
  Py.in_list name MODAL_COMMANDS = true -> Py.in_list name MOTION_COMMANDS = true.
Proof.
  intros H.
  assert (Hn : In name MODAL_COMMANDS).
  { unfold Py.in_list in H. apply existsb_exists in H as (x & Hx & E).
    apply String.eqb_eq in E. now subst. }
  cbn in Hn. repeat (destruct Hn as [<- | Hn]; [reflexivity|]). destruct Hn.
Qed.

Lemma bind_ext {A B} (m : M A) (k1 k2 : A -> M B) g :
  (forall a g1, k1 a g1 = k2 a g1) -> bind m k1 g = bind m k2 g.
Proof. intros H. unfold bind. destruct (m g); auto. Qed.

(** [parse_command] on a motion command, with the blocks that do not
    apply to it left out. *)
Lemma parse_command_motion fuel c out last g :
  let code := translate_code (Name c) in
  Py.in_list code MOTION_COMMANDS = true ->
  parse_command fuel c (out, last) g
  = (outstring <- motion_bookkeeping code c
                    (add_parameters g code c
                       (if (same_command code last && Py.in_list code MODAL_COMMANDS)%bool
                        then [] else [code])) ;;
     out' <- (if Nat.leb 1 (length outstring)
              then s <- numbered (format_outstring outstring ++ nl) ;; ret (iadd out s)
              else ret out) ;;
     ret (out', Some code)) g.
Proof.
  intros code Hin.
  destruct (motion_name_facts _ Hin) as (Etr & Etc & E98 & E90 & E81 & Emsg & Esup).
  unfold parse_command. fold code. rewrite Etc. unfold MODAL. run.
  assert (Hfirst : forall B (k : list string -> M B),
             bind (if (same_command code last && Py.in_list code MODAL_COMMANDS)%bool
                   then pop0 [code] else ret [code]) k g
             = k (if (same_command code last && Py.in_list code MODAL_COMMANDS)%bool
                  then [] else [code]) g).
  { intros B k. destruct (same_command code last && Py.in_list code MODAL_COMMANDS)%bool;
      reflexivity. }
  rewrite Hfirst. run. unfold id.
  apply bind_ext. intros outstring g1.
  rewrite E98, E90, E81, Emsg, Esup. run. reflexivity.
Qed.

Lemma setters_keep_flag g :
  (forall v, START_OR_M6 (set_CURRENT_X v g) = START_OR_M6 g
             /\ line_prefix (set_CURRENT_X v g) = line_prefix g)
  /\ (forall v, START_OR_M6 (set_CURRENT_Y v g) = START_OR_M6 g
                /\ line_prefix (set_CURRENT_Y v g) = line_prefix g)
  /\ (forall v, START_OR_M6 (set_CURRENT_Z v g) = START_OR_M6 g
                /\ line_prefix (set_CURRENT_Z v g) = line_prefix g)
  /\ (forall v, START_OR_M6 (set_START_OR_M6 v g) = v
                /\ line_prefix (set_START_OR_M6 v g) = line_prefix g).
Proof. destruct g; repeat split. Qed.

(** The motion block run on a motion command: the flag is clear
    afterwards, and when it was clear before, the tokens are only emptied
    for a command without parameters. *)
Lemma motion_bookkeeping_run code c outstring g :
  Py.in_list code MOTION_COMMANDS = true ->
  exists outstring' g',
    motion_bookkeeping code c outstring g = Ok outstring' g'
    /\ START_OR_M6 g' = false
    /\ line_prefix g' = line_prefix g
    /\ (START_OR_M6 g = false ->
        outstring' = if Nat.eqb (len_values (Parameters c)) 0 then [] else outstring).
Proof.
  intros Hin. unfold motion_bookkeeping. rewrite Hin.
  assert (Hx : exists g1, (match Parameters c !! "X" with
                           | Some v => modify (set_CURRENT_X v) | None => ret tt end) g
                          = Ok tt g1
                          /\ START_OR_M6 g1 = START_OR_M6 g
                          /\ line_prefix g1 = line_prefix g).
  { destruct (Parameters c !! "X"); eexists; (split; [reflexivity|]);
      [apply setters_keep_flag | split; reflexivity]. }
  destruct Hx as (g1 & Hx & Fx & Px).
  assert (Hy : exists g2, (match Parameters c !! "Y" with
                           | Some v => modify (set_CURRENT_Y v) | None => ret tt end) g1
                          = Ok tt g2
                          /\ START_OR_M6 g2 = START_OR_M6 g1
                          /\ line_prefix g2 = line_prefix g1).
  { destruct (Parameters c !! "Y"); eexists; (split; [reflexivity|]);
      [apply setters_keep_flag | split; reflexivity]. }
  destruct Hy as (g2 & Hy & Fy & Py).
  assert (Hz : exists g3, (match Parameters c !! "Z" with
                           | Some v => modify (set_CURRENT_Z (Units.Qty v))
                           | None => ret tt end) g2
                          = Ok tt g3
                          /\ START_OR_M6 g3 = START_OR_M6 g2
                          /\ line_prefix g3 = line_prefix g2).
  { destruct (Parameters c !! "Z"); eexists; (split; [reflexivity|]);
      [apply setters_keep_flag | split; reflexivity]. }
  destruct Hz as (g3 & Hz & Fz & Pz).
  unfold bind at 1. rewrite Hx. unfold bind at 1. rewrite Hy.
  unfold bind at 1. rewrite Hz. run.
  destruct (START_OR_M6 g3) eqn:Hflag.
  - run. unfold id. do 2 eexists. split; [reflexivity|].
    destruct (setters_keep_flag g3) as (_ & _ & _ & Hs).
    destruct (Hs false) as [Hs1 Hs2].
    split; [exact Hs1|]. split; [congruence|].
    intros Hf. congruence.
  - do 2 eexists. split; [reflexivity|]. split; [exact Hflag|].
    split; [congruence|]. reflexivity.
Qed.

(** After any motion command the flag [START_OR_M6] is clear and the
    command is remembered as the last one. *)
Lemma parse_command_motion_post fuel c out last g out' last' g' :
  let code := translate_code (Name c) in
  Py.in_list code MOTION_COMMANDS = true ->
  parse_command fuel c (out, last) g = Ok (out', last') g' ->
  last' = Some code /\ START_OR_M6 g' = false.
Proof.
  intros code Hin H. rewrite parse_command_motion in H by exact Hin. fold code in H.
  apply bind_ok in H as (outstring & g2 & Hmb & H).
  match type of Hmb with
  | motion_bookkeeping _ _ ?os _ = _ =>
      destruct (motion_bookkeeping_run code c os g Hin)
        as (os' & g2' & Hrun & Hflag & _ & _)
  end.
  rewrite Hrun in Hmb. inversion Hmb; subst os' g2'; clear Hmb.
  apply bind_ok in H as (out2 & g3 & Hout & H). inversion H; subst; clear H.
  split; [reflexivity|].
  destruct (Nat.leb 1 (length outstring)); run_in Hout; inversion Hout; subst;
    [|exact Hflag].
  destruct (advance_fields g2) as (_&_&_&_&_&_&_&E&_). congruence.
Qed.

(** ** Parameter tokens *)

Lemma add_parameter_app g code c outstring param :
  add_parameter g code c outstring param
  = (outstring ++ add_parameter g code c [] param)%list.
Proof.
  unfold add_parameter, Py.list_append.
  destruct (Parameters c !! param); [|now rewrite app_nil_r].
  repeat match goal with
         | |- context [if ?b then _ else _] => destruct b
         end; cbn [app]; rewrite ?app_nil_r; reflexivity.
Qed.

Lemma add_parameters_app g code c outstring :
  add_parameters g code c outstring
  = (outstring ++ flat_map (add_parameter g code c []) params_order)%list.
Proof.
  unfold add_parameters. revert outstring.
  induction params_order as [|p ps IH]; intros outstring; cbn [fold_left flat_map].
  - now rewrite app_nil_r.
  - rewrite IH, add_parameter_app, <- app_assoc. reflexivity.
Qed.

Lemma len_values_0 (d : gmap string Q) k : len_values d = 0%nat -> d !! k = None.
Proof.
  unfold len_values. rewrite length_fmap. intros H.
  apply length_zero_iff_nil in H. apply map_to_list_empty_iff in H. subst.
  apply lookup_empty.
Qed.

Lemma add_parameters_no_parameters g code c :
  len_values (Parameters c) = 0%nat -> add_parameters g code c [] = [].
Proof.
  intros H. rewrite add_parameters_app. cbn [app].
  induction params_order as [|p ps IH]; [reflexivity|].
  cbn [flat_map]. rewrite IH. unfold add_parameter.
  now rewrite (len_values_0 _ p H).
Qed.

(** A parameter in the order list is written as one token that starts with
    its letter, a feed rate only off rapid moves and when positive. *)
Lemma add_parameter_kept g code c param v :
  Parameters c !! param = Some v ->
  (param = "F" ->
   Py.in_list code RAPID_MOVES = false
   /\ (0 < Units.getValueAs v (UNIT_SPEED_FORMAT g))%Q) ->
  exists value, add_parameter g code c [] param = [param ++ value].
Proof.
  intros Hv HF. unfold add_parameter, Py.list_append.
  destruct (Parameters c !! param) as [v'|]; inversion Hv; subst v'. cbn [app].
  destruct (String.eqb param "I"); [eauto|].
  destruct (String.eqb param "J"); [eauto|].
  destruct (String.eqb param "F") eqn:EF.
  - apply String.eqb_eq in EF. destruct (HF EF) as [Hr Hpos].
    apply Qgtb_true in Hpos.
    destruct (Py.in_list code RAPID_MOVES); [discriminate|].
    destruct (Py.Qgtb (Units.getValueAs v (UNIT_SPEED_FORMAT g)) 0); [|discriminate].
    cbn [negb]. eauto.
  - destruct (Py.in_list param ["T"; "H"; "D"; "S"; "P"; "L"]); [eauto|].
    destruct (Py.in_list param ["A"; "B"; "C"]); eauto.
Qed.

(** The three ways a parameter leaves no token: the command does not have
    it; it is the feed rate of a rapid move; it is a feed rate that is not
    positive in the output unit. *)
Lemma add_parameter_left_out g code c :
  (forall param, Parameters c !! param = None -> add_parameter g code c [] param = [])
  /\ (Py.in_list code RAPID_MOVES = true -> add_parameter g code c [] "F" = [])
  /\ (forall v : Q, Parameters c !! "F" = Some v ->
                (Units.getValueAs v (UNIT_SPEED_FORMAT g) <= 0)%Q ->
                add_parameter g code c [] "F" = []).
Proof.
  unfold add_parameter. repeat split.
  - intros param ->. reflexivity.
  - intros Hrapid. destruct (Parameters c !! "F"); [|reflexivity].
    change (String.eqb "F" "I") with false. change (String.eqb "F" "J") with false.
    change (String.eqb "F" "F") with true. cbv iota. now rewrite Hrapid.
  - intros v -> Hle.
    change (String.eqb "F" "I") with false. change (String.eqb "F" "J") with false.
    change (String.eqb "F" "F") with true. cbv iota.
    apply Qgtb_false in Hle. rewrite Hle. now destruct (negb _).
Qed.

(** ** Modal commands *)

(** C8, the example against the code: a rapid move repeated with a feed
    rate.  The second line has no code, but no F token either, although the
    command has an F parameter. *)
Lemma modal_rapid_drops_feed :
  let c1 := command "G0" [("X", 1%Q); ("Y", 0%Q); ("Z", 5%Q); ("F", 100%Q)] in
  let c2 := command "G0" [("X", 2%Q); ("F", 100%Q)] in
  exists carried g1 g2,
    parse_command 0 c1 (OStr "", None) quiet_globals = Ok carried g1
    /\ translate_code (Name c2) = translate_code (Name c1)
    /\ Py.in_list (translate_code (Name c2)) MODAL_COMMANDS = true
    /\ parse_command 0 c2 carried g1
       = Ok (OStr (unlines ["G0 X1.000 Y0.000 Z5.000"] ++ unlines ["X2.000"]), Some "G0") g2
    /\ has_key "F" (Parameters c2) = true
    /\ carries_all_parameters c2 (unlines ["X2.000"]) = false.
Proof.
  do 3 eexists. split; [vm_compute; reflexivity|].
  split; [reflexivity|]. split; [reflexivity|].
  split; [vm_compute; reflexivity|].
  split; vm_compute; reflexivity.
Qed.

(** C8, as amended.  When a command follows, in the same leaf, a command
    with the same translated code, and that code is modal: the line
    written for it is made of its parameter tokens alone, without the
    code; when no token is left no line is written.  The tokens are those
    that follow the code on a line that keeps it: going through
    [params_order], each letter gives exactly one token that starts with
    it when the command has the parameter, and none when it has not, with
    two exceptions, which give no token although the command has the
    parameter: a feed rate F on a rapid move (G0, G00), and a feed rate F
    that is not strictly positive in the output unit. *)
Theorem modal_code_omitted fuel c1 c2 carried g0 out1 last1 g1 :
  parse_command fuel c1 carried g0 = Ok (out1, last1) g1 ->
  translate_code (Name c2) = translate_code (Name c1) ->
  Py.in_list (translate_code (Name c2)) MODAL_COMMANDS = true ->
  let code := translate_code (Name c2) in
  let tokens := flat_map (add_parameter g1 code c2 []) params_order in
  (exists g2,
     parse_command fuel c2 (out1, last1) g1
     = Ok (match tokens with
           | [] => out1
           | _ => iadd out1 (line_prefix g1 ++ format_outstring tokens ++ nl)
           end, Some code) g2)
  /\ add_parameters g1 code c2 [code] = code :: tokens
  /\ (forall param v,
        Parameters c2 !! param = Some v ->
        (param = "F" ->
         Py.in_list code RAPID_MOVES = false
         /\ (0 < Units.getValueAs v (UNIT_SPEED_FORMAT g1))%Q) ->
        exists value, add_parameter g1 code c2 [] param = [param ++ value])
  /\ (forall param,
        Parameters c2 !! param = None -> add_parameter g1 code c2 [] param = [])
  /\ (Py.in_list code RAPID_MOVES = true -> add_parameter g1 code c2 [] "F" = [])
  /\ (forall v : Q,
        Parameters c2 !! "F" = Some v ->
        (Units.getValueAs v (UNIT_SPEED_FORMAT g1) <= 0)%Q ->
        add_parameter g1 code c2 [] "F" = []).
Proof.
  intros H1 Hsame Hmodal code tokens.
  split; [|split; [apply add_parameters_app
                  |split; [intros param v Hv HF;
                           exact (add_parameter_kept g1 code c2 param v Hv HF)
                          |apply add_parameter_left_out]]].
  assert (Hmotion : Py.in_list code MOTION_COMMANDS = true) by now apply modal_is_motion.
  fold code in Hmodal, Hsame.
  destruct carried as [out0 last0].
  destruct (parse_command_motion_post fuel c1 out0 last0 g0 out1 last1 g1) as [-> Hflag];
    [rewrite <- Hsame; exact Hmotion | exact H1 |].
  rewrite parse_command_motion by exact Hmotion. fold code.
  rewrite <- Hsame. fold code. cbn [same_command]. rewrite String.eqb_refl, Hmodal.
  cbn [andb]. rewrite add_parameters_app. cbn [app]. fold tokens.
  destruct (motion_bookkeeping_run code c2 tokens g1 Hmotion)
    as (os & g2 & Hrun & _ & Hprefix & Hos).
  specialize (Hos Hflag).
  assert (Eos : os = tokens).
  { rewrite Hos. destruct (Nat.eqb (len_values (Parameters c2)) 0) eqn:E; [|reflexivity].
    apply Nat.eqb_eq in E. unfold tokens.
    pose proof (add_parameters_no_parameters g1 code c2 E) as Hnone.
    rewrite add_parameters_app in Hnone. cbn [app] in Hnone. now rewrite Hnone. }
  rewrite Eos in Hrun. clear Hos Eos. unfold bind at 1. rewrite Hrun. clearbody tokens.
  destruct tokens as [|tok rest]; cbn [length Nat.leb]; run.
  - eexists. reflexivity.
  - rewrite Hprefix. eexists. reflexivity.
Qed.

Lemma modal_code_omitted_witness :
  let c1 := command "G1" [("X", 1%Q); ("Y", 0%Q); ("Z", 5%Q); ("F", 100%Q)] in
  let c2 := command "G1" [("X", 2%Q); ("F", 100%Q)] in
  let g1 := set_CURRENT_Z (Units.Qty 5) (set_CURRENT_X 1 (set_START_OR_M6 false quiet_globals)) in
  let out1 := OStr (unlines ["G1 X1.000 Y0.000 Z5.000 F6000.000"]) in
  let code := translate_code (Name c2) in
  let tokens := flat_map (add_parameter g1 code c2 []) params_order in
  (parse_command 0 c1 (OStr "", None) quiet_globals = Ok (out1, Some "G1") g1
   /\ translate_code (Name c2) = translate_code (Name c1)
   /\ Py.in_list (translate_code (Name c2)) MODAL_COMMANDS = true)
  /\ ((exists g2,
         parse_command 0 c2 (out1, Some "G1") g1
         = Ok (match tokens with
               | [] => out1
               | _ => iadd out1 (line_prefix g1 ++ format_outstring tokens ++ nl)
               end, Some code) g2)
      /\ add_parameters g1 code c2 [code] = code :: tokens
      /\ (forall param v,
            Parameters c2 !! param = Some v ->
            (param = "F" ->
             Py.in_list code RAPID_MOVES = false
             /\ (0 < Units.getValueAs v (UNIT_SPEED_FORMAT g1))%Q) ->
            exists value, add_parameter g1 code c2 [] param = [param ++ value])
      /\ (forall param,
            Parameters c2 !! param = None -> add_parameter g1 code c2 [] param = [])
      /\ (Py.in_list code RAPID_MOVES = true -> add_parameter g1 code c2 [] "F" = [])
      /\ (forall v : Q,
            Parameters c2 !! "F" = Some v ->
            (Units.getValueAs v (UNIT_SPEED_FORMAT g1) <= 0)%Q ->
            add_parameter g1 code c2 [] "F" = [])).
Proof.
  intros c1 c2 g1 out1 code tokens.
  assert (H1 : parse_command 0 c1 (OStr "", None) quiet_globals = Ok (out1, Some "G1") g1)
    by (vm_compute; reflexivity).
  assert (H2 : translate_code (Name c2) = translate_code (Name c1)) by reflexivity.
  assert (H3 : Py.in_list (translate_code (Name c2)) MODAL_COMMANDS = true) by reflexivity.
  split; [auto|].
  exact (modal_code_omitted 0 c1 c2 (OStr "", None) quiet_globals out1 (Some "G1") g1
           H1 H2 H3).
Defined.

(** The second line of the witness: the code is gone, X and F are there. *)
Example modal_feed_line :
  let c2 := command "G1" [("X", 2%Q); ("F", 100%Q)] in
  let g1 := set_CURRENT_Z (Units.Qty 5) (set_CURRENT_X 1 (set_START_OR_M6 false quiet_globals)) in
  value_of (parse_command 0 c2 (OStr "", Some "G1") g1)
  = Some (OStr (unlines ["X2.000 F6000.000"]), Some "G1").
Proof. vm_compute. reflexivity. Qed.

(** ** Motion commands without parameters, the flag being clear *)

(** The part of C5 that holds: a motion command without parameters
    writes nothing once the first move of the run, or the first move after
    a tool change, is past. *)
Lemma empty_motion_dropped fuel c out last g :
  Py.in_list (translate_code (Name c)) MOTION_COMMANDS = true ->
  len_values (Parameters c) = 0%nat ->
  START_OR_M6 g = false ->
  exists g', parse_command fuel c (out, last) g = Ok (out, Some (translate_code (Name c))) g'.
Proof.
  intros Hmotion Hnone Hflag. rewrite parse_command_motion by exact Hmotion.
  match goal with
  | |- context [motion_bookkeeping ?code c ?os] =>
      destruct (motion_bookkeeping_run code c os g Hmotion)
        as (os' & g' & Hrun & _ & _ & Hos)
  end.
  specialize (Hos Hflag). rewrite Hnone in Hos. cbn in Hos. subst os'.
  unfold bind at 1. rewrite Hrun. cbn [length Nat.leb]. run. eauto.
Qed.

(** ** The forced full move *)

Lemma key_scan (d : gmap string Q) (k : string) :
  existsb (fun p => String.eqb p k) (keys d) = has_key k d.
Proof.
  unfold keys, has_key.
  destruct (d !! k) as [v|] eqn:E.
  - apply existsb_exists. exists k. split; [|apply String.eqb_refl].
    apply list_elem_of_In, list_elem_of_fmap. exists (k, v). split; [reflexivity|].
    now apply elem_of_map_to_list.
  - apply not_true_is_false. intros H.
    apply existsb_exists in H as (p & Hp & Heq). apply String.eqb_eq in Heq. subst p.
    apply list_elem_of_In, list_elem_of_fmap in Hp as ([k' v] & Hk & Hin).
    cbn in Hk. subst k'. apply elem_of_map_to_list in Hin. congruence.
Qed.

Lemma In_list_insert {A} (i : nat) (x y : A) (l : list A) :
  In x (Py.list_insert i y l) <-> x = y \/ In x l.
Proof.
  unfold Py.list_insert. rewrite in_app_iff. cbn [In].
  assert (Hl : In x l <-> In x (firstn i l) \/ In x (skipn i l)).
  { rewrite <- in_app_iff. now rewrite firstn_skipn. }
  rewrite Hl. split; intros H; intuition (subst; auto).
Qed.

(** The part of C3 that holds whatever the unit.  On a motion command met
    with [START_OR_M6] set, the token list leaves the motion block with a
    token for each of X, Y and Z: the command's own token where it names
    the axis, and otherwise the letter followed by the cached coordinate,
    untouched by this command, formatted at the configured precision in
    the internal unit (mm). *)
Lemma forced_move_has_three_axes code c outstring g :
  Py.in_list code MOTION_COMMANDS = true ->
  START_OR_M6 g = true ->
  exists outstring' g',
    motion_bookkeeping code c outstring g = Ok outstring' g'
    /\ START_OR_M6 g' = false
    /\ (Parameters c !! "X" = None ->
        CURRENT_X g' = CURRENT_X g
        /\ In ("X" ++ Py.format_f (PRECISION g) (CURRENT_X g)) outstring')
    /\ (Parameters c !! "Y" = None ->
        CURRENT_Y g' = CURRENT_Y g
        /\ In ("Y" ++ Py.format_f (PRECISION g) (CURRENT_Y g)) outstring')
    /\ (Parameters c !! "Z" = None ->
        CURRENT_Z g' = CURRENT_Z g
        /\ In ("Z" ++ Py.format_f (PRECISION g) (Units.float_of (CURRENT_Z g))) outstring')
    /\ (forall tok, In tok outstring ->
                    len_values (Parameters c) <> 0%nat -> In tok outstring').
Proof.
  intros Hin Hflag. unfold motion_bookkeeping. rewrite Hin. rewrite !key_scan.
  unfold has_key.
  destruct g as [h cm n e pr pa po l s d m u uf us x y z]. cbn in Hflag. subst s.
  destruct (Parameters c !! "X") as [vx|], (Parameters c !! "Y") as [vy|],
    (Parameters c !! "Z") as [vz|];
    run; cbn; do 2 eexists; (split; [reflexivity|]); (split; [reflexivity|]);
    repeat split; try discriminate; intros;
    repeat (apply In_list_insert; (left; reflexivity) || right);
    destruct (len_values (Parameters c)); cbn; congruence || auto.
Qed.

(** * Further properties of the code *)

(** ** Relations kept by every step *)

Section Respects.
Variable R : Globals -> Globals -> Prop.
Hypothesis R_refl : forall g, R g g.
Hypothesis R_trans : forall g1 g2 g3, R g1 g2 -> R g2 g3 -> R g1 g3.

Lemma respects_ret {A} (a : A) : respects R (ret a).
Proof. intros g. apply R_refl. Qed.

Lemma respects_raise {A} e : respects R (@raise A e).
Proof. intros g. apply R_refl. Qed.

Lemma respects_out_of_fuel {A} : respects R (@out_of_fuel A).
Proof. intros g. exact I. Qed.

Lemma respects_gets {A} (f : Globals -> A) : respects R (gets f).
Proof. intros g. apply R_refl. Qed.

Lemma respects_modify (f : Globals -> Globals) :
  (forall g, R g (f g)) -> respects R (modify f).
Proof. intros Hf g. apply Hf. Qed.

Lemma respects_bind {A B} (m : M A) (k : A -> M B) :
  respects R m -> (forall a, respects R (k a)) -> respects R (bind m k).
Proof.
  intros Hm Hk g. unfold bind. specialize (Hm g).
  destruct (m g) as [a g1|e g1|]; [|exact Hm|exact I].
  specialize (Hk a g1). destruct (k a g1); eauto.
Qed.

Lemma respects_for_each {A S} (body : A -> S -> M S) (xs : list A) :
  (forall x acc, respects R (body x acc)) ->
  forall acc, respects R (for_each xs body acc).
Proof.
  intros Hb. induction xs as [|x xs IH]; intros acc; cbn [for_each].
  - apply respects_ret.
  - apply respects_bind; [apply Hb | intros; apply IH].
Qed.

Lemma respects_getitem d k : respects R (getitem d k).
Proof. unfold getitem. destruct (d !! k); [apply respects_ret | apply respects_raise]. Qed.

Lemma respects_pop0 l : respects R (pop0 l).
Proof. destruct l; [apply respects_raise | apply respects_ret]. Qed.

Lemma respects_str_iadd acc v : respects R (str_iadd acc v).
Proof. destruct v; [apply respects_ret | apply respects_raise]. Qed.
End Respects.

(** One step of a proof that a piece of the program respects a relation;
    [side] settles the goals left by assignments to globals. *)
Ltac respects_step refl trans side :=
  match goal with
  | |- respects _ (bind _ _) => apply (respects_bind _ trans); [|intros]
  | |- respects _ (ret _) => apply (respects_ret _ refl)
  | |- respects _ (raise _) => apply (respects_raise _ refl)
  | |- respects _ out_of_fuel => apply respects_out_of_fuel
  | |- respects _ (gets _) => apply (respects_gets _ refl)
  | |- respects _ (getitem _ _) => apply (respects_getitem _ refl)
  | |- respects _ (pop0 _) => apply (respects_pop0 _ refl)
  | |- respects _ (str_iadd _ _) => apply (respects_str_iadd _ refl)
  | |- respects _ (modify _) => apply respects_modify; intros ?g; side
  | |- respects _ (for_each _ _ _) => apply (respects_for_each _ refl trans); intros
  | |- respects _ (if ?b then _ else _) => destruct b
  | |- respects _ (match ?x with _ => _ end) => destruct x
  | |- respects _ _ => solve [eauto]
  end.

(** ** The configuration and the line counter during a walk *)

Lemma walk_frame_refl g : walk_frame g g.
Proof.
  split; [repeat split|]. exists O. split; [unfold LINEINCR; lia | reflexivity].
Qed.

Lemma walk_frame_trans g1 g2 g3 :
  walk_frame g1 g2 -> walk_frame g2 g3 -> walk_frame g1 g3.
Proof.
  intros [C1 (k1 & E1 & Z1)] [C2 (k2 & E2 & Z2)].
  split.
  - unfold same_config in *. intuition congruence.
  - exists (k1 + k2)%nat. split; [unfold LINEINCR in *; lia|].
    intros Hoff. rewrite (Z1 Hoff). rewrite Z2; [reflexivity|].
    unfold same_config in C1. intuition congruence.
Qed.

Lemma walk_frame_setters g :
  (forall v, walk_frame g (set_START_OR_M6 v g))
  /\ (forall v, walk_frame g (set_DRILL_RETRACT_MODE v g))
  /\ (forall v, walk_frame g (set_MOTION_MODE v g))
  /\ (forall v, walk_frame g (set_CURRENT_X v g))
  /\ (forall v, walk_frame g (set_CURRENT_Y v g))
  /\ (forall v, walk_frame g (set_CURRENT_Z v g)).
Proof.
  assert (Hc : forall g', same_config g g' -> LINENR g' = LINENR g -> walk_frame g g').
  { intros g' Hs Hl. split; [exact Hs|]. exists O. rewrite Hl.
    split; [unfold LINEINCR; lia | reflexivity]. }
  destruct g; repeat apply conj; intros v; apply Hc; cbn; repeat apply conj; reflexivity.
Qed.

Lemma walk_frame_advance g : walk_frame g (advance g).
Proof.
  unfold advance.
  destruct g as [a1 a2 [] a4 a5 a6 a7 a8 a9 a10 a11 a12 a13 a14 a15 a16 a17]; cbn.
  - split; [repeat split|]. exists 1%nat. cbn. split; [unfold LINEINCR; lia | discriminate].
  - apply walk_frame_refl.
Qed.

Lemma walk_linenumber : respects walk_frame linenumber.
Proof. intros g. rewrite linenumber_run. apply walk_frame_advance. Qed.

Ltac walk_tac :=
  repeat respects_step walk_frame_refl walk_frame_trans
         ltac:(apply walk_frame_setters).

Lemma walk_numbered text : respects walk_frame (numbered text).
Proof. intros g. rewrite numbered_run. apply walk_frame_advance. Qed.

Lemma walk_rapid_Z z : respects walk_frame (rapid_Z z).
Proof.
  intros g. destruct z; [rewrite rapid_Z_int | rewrite rapid_Z_run];
    apply walk_frame_advance.
Qed.

Lemma walk_feed_Z z speed : respects walk_frame (feed_Z z speed).
Proof. intros g. rewrite feed_Z_run. apply walk_frame_advance. Qed.

Lemma walk_emit_block text out : respects walk_frame (emit_block text out).
Proof. pose proof walk_numbered. unfold emit_block. walk_tac. Qed.

Lemma walk_emit_lines text gcode : respects walk_frame (emit_lines text gcode).
Proof. pose proof walk_numbered. unfold emit_lines. walk_tac. Qed.

Lemma walk_tool_change command out outstring :
  respects walk_frame (tool_change command out outstring).
Proof. pose proof walk_numbered. pose proof walk_emit_block. unfold tool_change. walk_tac. Qed.

Lemma walk_motion_bookkeeping command c outstring :
  respects walk_frame (motion_bookkeeping command c outstring).
Proof. unfold motion_bookkeeping. walk_tac. Qed.

Lemma walk_peck_loop fuel drill_Z RETRACT_Z step speed :
  forall next trBuff,
    respects walk_frame (peck_loop fuel drill_Z RETRACT_Z step speed next trBuff).
Proof.
  pose proof walk_rapid_Z. pose proof walk_feed_Z.
  induction fuel as [|fuel IH]; intros next trBuff; cbn [peck_loop]; walk_tac.
Qed.

Lemma walk_drill_translate fuel outstring cmd params :
  respects walk_frame (drill_translate fuel outstring cmd params).
Proof.
  pose proof walk_numbered. pose proof walk_rapid_Z. pose proof walk_feed_Z.
  pose proof walk_peck_loop.
  unfold drill_translate, cycle_comment, cycle_numbers, drill_moves. walk_tac.
Qed.

Lemma walk_parse_command fuel c carried :
  respects walk_frame (parse_command fuel c carried).
Proof.
  pose proof walk_numbered. pose proof walk_tool_change.
  pose proof walk_motion_bookkeeping. pose proof walk_drill_translate.
  unfold parse_command. destruct carried. walk_tac.
Qed.

Lemma walk_parse fuel obj : respects walk_frame (parse fuel obj).
Proof.
  pose proof walk_numbered. pose proof walk_parse_command.
  induction obj as [label has_path group IH | label commands | label]
    using PathNode_nested_ind.
  - rewrite parse_Compound. walk_tac.
    match goal with |- respects _ (parse_children _ _ ?o) => generalize o end.
    induction IH as [|p ps Hp _ IHps]; intros out; cbn [parse_children]; walk_tac.
  - rewrite parse_Leaf. unfold parse_commands. walk_tac.
  - apply (respects_ret _ walk_frame_refl).
Qed.

(** X1.  Whatever a walk of a tree ends with, a text or an exception, it
    leaves the options and the units as they were: the header, comment,
    numbering and editor switches, the precision, the preamble and the
    postamble, and the three unit globals.  In particular a G20 or G21
    command in a path is rewritten but does not change the unit the
    coordinates are written in. *)
Theorem parse_keeps_configuration fuel obj g :
  match parse fuel obj g with
  | Ok _ g' | Raise _ g' => same_config g g'
  | OutOfFuel => True
  end.
Proof.
  pose proof (walk_parse fuel obj g) as H.
  destruct (parse fuel obj g); try exact I; apply H.
Qed.

(** X2.  During a walk the line counter only moves by whole increments of
    10, and it does not move at all while line numbering is off, also when
    the walk ends with an exception. *)
Theorem parse_counter_steps fuel obj g :
  match parse fuel obj g with
  | Ok _ g' | Raise _ g' =>
      (exists k : nat, LINENR g' = LINENR g + 10 * Z.of_nat k)
      /\ (OUTPUT_LINE_NUMBERS g = false -> LINENR g' = LINENR g)
  | OutOfFuel => True
  end.
Proof.
  pose proof (walk_parse fuel obj g) as H.
  destruct (parse fuel obj g) as [a g'|e g'|]; try exact I;
    destruct H as [_ (k & E & Hz)]; unfold LINEINCR in E;
    (split; [eauto | intros Hoff; rewrite (Hz Hoff) in E; lia]).
Qed.

(** ** What a drilling cycle leaves untouched *)

Lemma only_counter_refl g : only_counter g g.
Proof. unfold only_counter. now destruct g. Qed.

Lemma only_counter_trans g1 g2 g3 :
  only_counter g1 g2 -> only_counter g2 g3 -> only_counter g1 g3.
Proof.
  unfold only_counter. intros H1 H2. rewrite H1 in H2.
  assert (E : forall a b g, set_LINENR a (set_LINENR b g) = set_LINENR a g)
    by (intros a b g; now destruct g).
  now rewrite E in H2.
Qed.

Lemma only_counter_advance g : only_counter g (advance g).
Proof.
  unfold only_counter, advance. destruct g as [a1 a2 [] a4 a5 a6 a7 a8 a9]; reflexivity.
Qed.

Lemma only_counter_fields g g' :
  only_counter g g' ->
  CURRENT_X g' = CURRENT_X g /\ CURRENT_Y g' = CURRENT_Y g /\ CURRENT_Z g' = CURRENT_Z g
  /\ MOTION_MODE g' = MOTION_MODE g /\ DRILL_RETRACT_MODE g' = DRILL_RETRACT_MODE g
  /\ START_OR_M6 g' = START_OR_M6 g.
Proof. unfold only_counter. intros ->. destruct g. repeat split. Qed.

Ltac counter_tac :=
  repeat respects_step only_counter_refl only_counter_trans ltac:(fail).

Lemma counter_numbered text : respects only_counter (numbered text).
Proof. intros g. rewrite numbered_run. apply only_counter_advance. Qed.

Lemma counter_rapid_Z z : respects only_counter (rapid_Z z).
Proof.
  intros g. destruct z; [rewrite rapid_Z_int | rewrite rapid_Z_run];
    apply only_counter_advance.
Qed.

Lemma counter_feed_Z z speed : respects only_counter (feed_Z z speed).
Proof. intros g. rewrite feed_Z_run. apply only_counter_advance. Qed.

Lemma counter_peck_loop fuel drill_Z RETRACT_Z step speed :
  forall next trBuff,
    respects only_counter (peck_loop fuel drill_Z RETRACT_Z step speed next trBuff).
Proof.
  pose proof counter_rapid_Z. pose proof counter_feed_Z.
  induction fuel as [|fuel IH]; intros next trBuff; cbn [peck_loop]; counter_tac.
Qed.

Lemma counter_drill_translate fuel outstring cmd params :
  respects only_counter (drill_translate fuel outstring cmd params).
Proof.
  pose proof counter_numbered. pose proof counter_rapid_Z. pose proof counter_feed_Z.
  pose proof counter_peck_loop.
  unfold drill_translate, cycle_comment, cycle_numbers, drill_moves. counter_tac.
Qed.

Lemma cycle_name_more name :
  Py.in_list name ["G81"; "G82"; "G83"] = true ->
  String.eqb name "message" = false /\ Py.in_list name SUPPRESS_COMMANDS = false.
Proof.
  intros H. assert (Hn : name = "G81" \/ name = "G82" \/ name = "G83").
  { unfold Py.in_list in H. cbn [existsb] in H.
    repeat (apply orb_prop in H as [H|H]); try discriminate;
      apply String.eqb_eq in H; auto. }
  destruct Hn as [-> | [-> | ->]]; split; reflexivity.
Qed.

Lemma counter_cycle_command fuel c carried :
  Py.in_list (Name c) ["G81"; "G82"; "G83"] = true ->
  respects only_counter (parse_command fuel c carried).
Proof.
  intros Hname.
  destruct (cycle_name_facts _ Hname) as (Etr & Etc & Emodal & Emotion & E98 & E90).
  destruct (cycle_name_more _ Hname) as (Emsg & Esup).
  pose proof counter_numbered. pose proof counter_drill_translate.
  destruct carried as [out last]. unfold parse_command.
  rewrite Etr. unfold MODAL. rewrite Emodal, andb_false_r, E98, E90, Emsg, Esup.
  intros g. rewrite Etc. rewrite bind_ret. revert g.
  change (respects only_counter
            (outstring <- ret [Name c] ;;
             g0 <- gets id ;;
             outstring0 <- motion_bookkeeping (Name c) c
                             (add_parameters g0 (Name c) c outstring) ;;
             ret tt ;; ret tt ;;
             r <- (if Py.in_list (Name c) ["G81"; "G82"; "G83"]
                   then s <- drill_translate fuel outstring0 (Name c) (Parameters c) ;;
                        ret (iadd out s, [])
                   else ret (out, outstring0)) ;;
             (let '(out0, outstring1) := r in
              r0 <- ret (out0, outstring1) ;;
              (let '(out1, outstring2) := r0 in
               out2 <- (if Nat.leb 1 (length outstring2)
                        then s <- numbered (format_outstring outstring2 ++ nl) ;;
                             ret (iadd out1 s)
                        else ret out1) ;;
               ret (out2, Some (Name c)))))).
  assert (Hm : forall c0 os, respects only_counter (motion_bookkeeping (Name c) c0 os)).
  { intros c0 os. rewrite Emotion. apply (respects_ret _ only_counter_refl). }
  counter_tac.
Qed.

(** X3.  A drilling-cycle command leaves the cached position and the
    modes alone, whether its expansion succeeds or raises: afterwards the
    cached position is still the one from before the cycle, not the place
    of the hole, and the motion mode, the retract mode and the flag
    [START_OR_M6] are as before. *)
Theorem cycle_leaves_position_and_modes fuel c carried g :
  Py.in_list (Name c) ["G81"; "G82"; "G83"] = true ->
  match parse_command fuel c carried g with
  | Ok _ g' | Raise _ g' =>
      CURRENT_X g' = CURRENT_X g /\ CURRENT_Y g' = CURRENT_Y g
      /\ CURRENT_Z g' = CURRENT_Z g
      /\ MOTION_MODE g' = MOTION_MODE g
      /\ DRILL_RETRACT_MODE g' = DRILL_RETRACT_MODE g
      /\ START_OR_M6 g' = START_OR_M6 g
  | OutOfFuel => True
  end.
Proof.
  intros Hname. pose proof (counter_cycle_command fuel c carried Hname g) as H.
  destruct (parse_command fuel c carried g); try exact I;
    now apply only_counter_fields.
Qed.

Lemma cycle_leaves_position_and_modes_witness :
  let c := command "G81" [("X", 1%Q); ("Y", 2%Q); ("Z", (-5)%Q); ("R", 2%Q); ("F", 5%Q)] in
  let g := set_CURRENT_Z (Units.Qty 10) initial_globals in
  Py.in_list (Name c) ["G81"; "G82"; "G83"] = true
  /\ match parse_command 0 c (OStr "", None) g with
     | Ok _ g' | Raise _ g' =>
         CURRENT_X g' = CURRENT_X g /\ CURRENT_Y g' = CURRENT_Y g
         /\ CURRENT_Z g' = CURRENT_Z g
         /\ MOTION_MODE g' = MOTION_MODE g
         /\ DRILL_RETRACT_MODE g' = DRILL_RETRACT_MODE g
         /\ START_OR_M6 g' = START_OR_M6 g
     | OutOfFuel => True
     end.
Proof.
  intros c g. assert (H : Py.in_list (Name c) ["G81"; "G82"; "G83"] = true) by reflexivity.
  split; [exact H|].
  exact (cycle_leaves_position_and_modes 0 c (OStr "", None) g H).
Defined.

(** ** A peck cycle that does not come down *)

Lemma peck_loop_stuck drill_Z RETRACT_Z step speed :
  forall fuel next trBuff g,
    (forall i, (drill_Z < stop_after i next step)%Q) ->
    peck_loop fuel drill_Z (Units.Qty RETRACT_Z) step speed next trBuff g = OutOfFuel.
Proof.
  induction fuel as [|fuel IH]; intros next trBuff g Hstops;
    cbn [peck_loop]; [reflexivity|].
  pose proof (Hstops O) as Hnext. cbn [stop_after] in Hnext.
  apply Qgtb_true in Hnext. rewrite Hnext.
  unfold bind at 1. rewrite feed_Z_run. unfold bind at 1. rewrite rapid_Z_run.
  apply IH. intros i. exact (Hstops (S i)).
Qed.

(** A stop that the subtraction of the step leaves where it is stays
    there. *)
Lemma stuck_stop z s step :
  Units.sub s step = s -> (z < s)%Q -> forall i, (z < stop_after i s step)%Q.
Proof.
  intros Hfix Hz. induction i as [|i IH]; cbn [stop_after]; [exact Hz|].
  now rewrite Hfix.
Qed.

Lemma bind_rapid_Z {B} z (k : string -> M B) g :
  bind (rapid_Z (Units.Qty z)) k g
  = k (line_prefix g ++ "G0 Z"
         ++ Py.format_f (PRECISION g) (Units.getValueAs z (UNIT_FORMAT g)) ++ nl)
      (advance g).
Proof. unfold bind. now rewrite rapid_Z_run. Qed.

Lemma bind_rapid_Z_int {B} n (k : string -> M B) g :
  bind (rapid_Z (Units.Int n)) k g
  = Raise (AttributeError "'int' object has no attribute 'getValueAs'") (advance g).
Proof. unfold bind. now rewrite rapid_Z_int. Qed.

Lemma bind_feed_Z {B} z speed (k : string -> M B) g :
  bind (feed_Z z speed) k g
  = k (line_prefix g ++ "G1 Z"
         ++ Py.format_f (PRECISION g) (Units.getValueAs z (UNIT_FORMAT g))
         ++ " F" ++ Py.format_f 2 (Units.getValueAs speed (UNIT_SPEED_FORMAT g)) ++ nl)
      (advance g).
Proof. unfold bind. now rewrite feed_Z_run. Qed.

Ltac run_moves :=
  repeat first [ rewrite bind_rapid_Z | rewrite bind_rapid_Z_int | rewrite bind_feed_Z
               | progress run ].

(** X4.  A peck cycle met when [CURRENT_Z] holds a Quantity and whose
    stops, the doubles [RETRACT_Z - step], that minus [step], and so on,
    all stay above the drill depth never finishes: whatever the number of
    rounds allowed, the moves of the cycle are not produced.  This is what
    a step of zero does, and also a positive step too small to change the
    stop in double arithmetic. *)
Theorem peck_cycle_never_ends fuel x y z RETRACT_Z speed step dwell trBuff g cz :
  CURRENT_Z g = Units.Qty cz ->
  (forall i, (z < stop_after i (Units.sub RETRACT_Z step) step)%Q) ->
  drill_moves fuel "G83" x y z (Units.Qty RETRACT_Z) speed (Some step) dwell trBuff g
  = OutOfFuel.
Proof.
  intros HZ Hstops. unfold drill_moves. run. unfold id. rewrite HZ.
  cbn [Units.float_of].
  assert (Hpeck : forall buf g1,
             peck_loop fuel z (Units.Qty RETRACT_Z) step speed
                       (Units.sub RETRACT_Z step) buf g1 = OutOfFuel)
    by (intros; now apply peck_loop_stuck).
  change (Py.in_list "G83" ["G81"; "G82"]) with false. cbv iota.
  destruct (String.eqb (MOTION_MODE g) "G91"), (Py.Qltb cz RETRACT_Z),
    (Py.Qgtb cz RETRACT_Z); run_moves; unfold bind; now rewrite Hpeck.
Qed.

Lemma peck_cycle_never_ends_witness :
  let g := set_CURRENT_Z (Units.Qty 5) initial_globals in
  (CURRENT_Z g = Units.Qty 5
   /\ forall i, (-12 < stop_after i (Units.sub 5 0) 0)%Q)
  /\ drill_moves 1000 "G83" 1 2 (-12) (Units.Qty 5) 5 (Some 0%Q) None "" g = OutOfFuel.
Proof.
  intros g.
  assert (H1 : CURRENT_Z g = Units.Qty 5) by reflexivity.
  assert (H2 : forall i, (-12 < stop_after i (Units.sub 5 0) 0)%Q)
    by (apply stuck_stop; reflexivity).
  split; [split; assumption|].
  exact (peck_cycle_never_ends 1000 1 2 (-12) 5 5 0 None "" g 5 H1 H2).
Defined.

(** A positive step that leaves the stop where it is: taking 1 from 2^60
    gives 2^60 again. *)
Example small_step_is_lost :
  (0 < 1)%Q /\ Units.sub (2 ^ 60) 1 = (2 ^ 60)%Q
  /\ forall i, (0 < stop_after i (Units.sub (2 ^ 60) 1) 1)%Q.
Proof.
  split; [reflexivity|]. split; [vm_compute; reflexivity|].
  apply stuck_stop; vm_compute; reflexivity.
Qed.

(** ** The argument string *)

Lemma processArguments_apply args g :
  processArguments (Parsed args) g = Ok true (apply_args args g).
Proof.
  unfold processArguments, apply_args.
  destruct args as [a1 a2 a3 a4 a5 a6 a7 a8 p pre post]. cbn.
  destruct g as [h c n e pr pa po l s d m u uf us x y z].
  destruct a1, a2, a3, a4, a5, a6, a7, a8, pre, post; reflexivity.
Qed.

(** X5.  A parsed argument string sets each switch from its pair of
    flags, the positive flag winning when both are given and the old value
    staying when neither is; it always overwrites the precision, replaces
    the preamble and the postamble only when they are given, and touches
    no other global: the line counter, the cached position, the modes and
    the units are left as they are. *)
Theorem processArguments_effect args g :
  exists g',
    processArguments (Parsed args) g = Ok true g'
    /\ OUTPUT_HEADER g'
       = (if header args then true
          else if no_header args then false else OUTPUT_HEADER g)
    /\ OUTPUT_COMMENTS g'
       = (if comments args then true
          else if no_comments args then false else OUTPUT_COMMENTS g)
    /\ OUTPUT_LINE_NUMBERS g'
       = (if line_numbers args then true
          else if no_line_numbers args then false else OUTPUT_LINE_NUMBERS g)
    /\ SHOW_EDITOR g'
       = (if show_editor args then true
          else if no_show_editor args then false else SHOW_EDITOR g)
    /\ PRECISION g' = precision args
    /\ PREAMBLE g' = match preamble args with Some p => p | None => PREAMBLE g end
    /\ POSTAMBLE g' = match postamble args with Some p => p | None => POSTAMBLE g end
    /\ LINENR g' = LINENR g /\ START_OR_M6 g' = START_OR_M6 g
    /\ DRILL_RETRACT_MODE g' = DRILL_RETRACT_MODE g /\ MOTION_MODE g' = MOTION_MODE g
    /\ UNITS g' = UNITS g /\ UNIT_FORMAT g' = UNIT_FORMAT g
    /\ UNIT_SPEED_FORMAT g' = UNIT_SPEED_FORMAT g
    /\ CURRENT_X g' = CURRENT_X g /\ CURRENT_Y g' = CURRENT_Y g
    /\ CURRENT_Z g' = CURRENT_Z g.
Proof.
  exists (apply_args args g). split; [apply processArguments_apply|].
  repeat split.
Qed.

(** X6.  Processing the same argument string a second time changes
    nothing: the globals after two calls are the globals after one. *)
Theorem processArguments_idempotent args g :
  exists g',
    processArguments (Parsed args) g = Ok true g'
    /\ processArguments (Parsed args) g' = Ok true g'.
Proof.
  exists (apply_args args g). split; [apply processArguments_apply|].
  rewrite processArguments_apply. f_equal.
  unfold apply_args. cbn.
  destruct (header args), (no_header args), (comments args), (no_comments args),
    (line_numbers args), (no_line_numbers args), (show_editor args),
    (no_show_editor args), (preamble args), (postamble args); reflexivity.
Qed.

(** ** Exports that write nothing *)

Lemma export_objects_none fuel objs :
  forall gcode g g',
    export_objects fuel objs gcode g = Ok None g' ->
    exists obj, In obj objs /\ hasattr_Path obj = false.
Proof.
  induction objs as [|obj rest IH]; intros gcode g g' H; cbn [export_objects] in H.
  - inversion H.
  - destruct (hasattr_Path obj) eqn:E; cbn [negb] in H.
    + apply bind_ok in H as (gcode1 & g1 & _ & H).
      destruct (IH _ _ _ H) as (o & Ho & Hp). exists o. split; [now right | exact Hp].
    + exists obj. split; [now left | exact E].
Qed.

Lemma export_objects_without_path fuel objs :
  forall gcode g text g',
    (exists obj, In obj objs /\ hasattr_Path obj = false) ->
    export_objects fuel objs gcode g <> Ok (Some text) g'.
Proof.
  induction objs as [|obj rest IH]; intros gcode g text g' (o & Ho & Hp) H;
    [destruct Ho|].
  cbn [export_objects] in H.
  destruct (hasattr_Path obj) eqn:E; cbn [negb] in H; [|inversion H].
  apply bind_ok in H as (gcode1 & g1 & _ & H).
  destruct Ho as [-> | Ho]; [congruence|].
  eapply IH; [|exact H]. eauto.
Qed.

(** X7.  When one of the objects handed to [export] has no [Path], no
    text is written, wherever the object stands in the list and whatever
    the other objects hold. *)
Theorem export_without_path_writes_nothing env fuel objs filename argstring g text g' :
  (exists obj, In obj objs /\ hasattr_Path obj = false) ->
  export env fuel objs filename argstring g <> Ok (Some text) g'.
Proof.
  intros Hobj H. unfold export in H.
  apply bind_ok in H as (ok & g1 & _ & H).
  destruct (negb ok); [inversion H|].
  apply bind_ok in H as (gcode1 & g2 & _ & H).
  apply bind_ok in H as (gcode2 & g3 & _ & H).
  apply bind_ok in H as (gcode3 & g4 & _ & H).
  apply bind_ok in H as (body & g5 & Hbody & H).
  destruct body as [gcode4|]; [|inversion H].
  exact (export_objects_without_path _ _ _ _ _ _ Hobj Hbody).
Qed.

Lemma export_without_path_writes_nothing_witness :
  let objs := [Leaf "op" [command "G0" [("X", 1%Q)]]; Other "stock"] in
  (exists obj, In obj objs /\ hasattr_Path obj = false)
  /\ forall text g',
       export headless 0 objs "out.iso" (Parsed default_args) initial_globals
       <> Ok (Some text) g'.
Proof.
  intros objs.
  assert (H : exists obj, In obj objs /\ hasattr_Path obj = false).
  { exists (Other "stock"). split; [right; left; reflexivity | reflexivity]. }
  split; [exact H|]. intros text g'.
  exact (export_without_path_writes_nothing headless 0 objs "out.iso" (Parsed default_args)
           initial_globals text g' H).
Defined.

(** X8.  [export] returns without writing and without an exception in two
    cases only: the argument string has a quotation that is not closed
    (the ValueError of [shlex.split] is caught), and then no global has
    changed; or the arguments parse and one of the objects has no [Path].
    Arguments that [argparse] does not accept give no silent return: its
    SystemExit is not caught and leaves [export], no global changed. *)
Theorem export_silent_return env fuel objs filename g :
  export env fuel objs filename BadQuoting g = Ok None g
  /\ export env fuel objs filename BadOptions g = Raise (SystemExit 2) g
  /\ forall argstring g',
       export env fuel objs filename argstring g = Ok None g' ->
       argstring = BadQuoting
       \/ exists args, argstring = Parsed args
                       /\ exists obj, In obj objs /\ hasattr_Path obj = false.
Proof.
  split; [reflexivity|]. split; [reflexivity|].
  intros [args| |] g' H; [right; exists args; split; [reflexivity|]
                         | now left | discriminate].
  unfold export in H.
  apply bind_ok in H as (ok & g1 & Hargs & H).
  rewrite processArguments_apply in Hargs. inversion Hargs; subst ok g1; clear Hargs.
  cbn [negb] in H.
  apply bind_ok in H as (gcode1 & g2 & _ & H).
  apply bind_ok in H as (gcode2 & g3 & _ & H).
  apply bind_ok in H as (gcode3 & g4 & _ & H).
  apply bind_ok in H as (body & g5 & Hbody & H).
  destruct body as [gcode4|].
  - apply bind_ok in H as (gcode5 & g6 & _ & H). run_in H. inversion H.
  - eapply export_objects_none; eassumption.
Qed.

(** ** Joining the tokens of a line *)

Lemma rev_string_onto_app s : forall acc,
  Py.rev_string_onto s acc = Py.rev_string s ++ acc.
Proof.
  unfold Py.rev_string.
  induction s as [|c s IH]; intros acc; cbn [Py.rev_string_onto]; [reflexivity|].
  rewrite IH, (IH (String c "")), string_app_assoc. reflexivity.
Qed.

Lemma rev_string_cons c s : Py.rev_string (String c s) = Py.rev_string s ++ String c "".
Proof. unfold Py.rev_string at 1. cbn [Py.rev_string_onto]. apply rev_string_onto_app. Qed.

Lemma rev_string_app a b : Py.rev_string (a ++ b) = Py.rev_string b ++ Py.rev_string a.
Proof.
  induction a as [|c a IH].
  - rewrite string_nil_app. change (Py.rev_string "") with "". now rewrite string_app_nil_r.
  - rewrite string_cons_app, !rev_string_cons, IH, string_app_assoc. reflexivity.
Qed.

Lemma rev_string_involutive s : Py.rev_string (Py.rev_string s) = s.
Proof.
  induction s as [|c s IH]; [reflexivity|].
  rewrite rev_string_cons, rev_string_app, IH. reflexivity.
Qed.

Lemma lstrip_clean s : clean_start s -> Py.lstrip s = s.
Proof. destruct s as [|c s]; cbn; [tauto|]. now intros ->. Qed.

Lemma clean_start_app s t : clean_start s -> clean_start (s ++ t).
Proof. destruct s as [|c s]; cbn; [tauto|]. rewrite string_cons_app. auto. Qed.

Lemma strip_final_space s :
  clean_start s -> clean_start (Py.rev_string s) -> Py.strip (s ++ " ") = s.
Proof.
  intros Hs He. unfold Py.strip, Py.rstrip.
  rewrite (lstrip_clean (s ++ " ")) by now apply clean_start_app.
  rewrite rev_string_app. change (Py.rev_string " ") with " ".
  rewrite string_cons_app, string_nil_app. cbn [Py.lstrip].
  change (Py.is_space " ") with true. cbv iota.
  rewrite (lstrip_clean _ He). apply rev_string_involutive.
Qed.

Lemma fold_tokens l : forall acc,
  fold_left (fun s w => s ++ w ++ COMMAND_SPACE) l acc
  = acc ++ fold_right (fun w r => w ++ " " ++ r) "" l.
Proof.
  induction l as [|w l IH]; intros acc; cbn [fold_left fold_right].
  - now rewrite string_app_nil_r.
  - rewrite IH. unfold COMMAND_SPACE. now rewrite !string_app_assoc.
Qed.

Lemma spaced_tokens w l :
  fold_right (fun w r => w ++ " " ++ r) "" (w :: l) = String.concat " " (w :: l) ++ " ".
Proof.
  revert w. induction l as [|w' l IH]; intros w.
  - reflexivity.
  - cbn [fold_right] in *. rewrite IH. cbn [String.concat].
    now rewrite !string_app_assoc.
Qed.

Lemma concat_clean w l :
  Forall clean_token (w :: l) -> clean_token (String.concat " " (w :: l)).
Proof.
  revert w. induction l as [|w' l IH]; intros w Hall.
  - inversion Hall; subst. assumption.
  - inversion Hall as [|? ? [Hs He] Hrest]; subst.
    destruct (IH w' Hrest) as [Hs' He'].
    change (String.concat " " (w :: w' :: l))
      with (w ++ " " ++ String.concat " " (w' :: l)).
    split; [now apply clean_start_app|].
    rewrite !rev_string_app. do 2 apply clean_start_app. exact He'.
Qed.

(** X9.  [format_outstring] gives the empty string for no token, and for
    tokens that are not empty and have no white space at their ends it
    gives the tokens separated by single spaces, with nothing before the
    first and nothing after the last. *)
Theorem format_outstring_joins (tokens : list string) :
  Forall clean_token tokens ->
  format_outstring tokens = String.concat " " tokens.
Proof.
  intros Hall. unfold format_outstring. rewrite fold_tokens, string_nil_app.
  destruct tokens as [|w l]; [reflexivity|].
  rewrite spaced_tokens. destruct (concat_clean w l Hall) as [Hs He].
  now apply strip_final_space.
Qed.

Lemma format_outstring_joins_witness :
  Forall clean_token ["G1"; "X1.000"; "F300.000"]
  /\ format_outstring ["G1"; "X1.000"; "F300.000"]
     = String.concat " " ["G1"; "X1.000"; "F300.000"].
Proof.
  assert (H : Forall clean_token ["G1"; "X1.000"; "F300.000"])
    by (repeat constructor).
  split; [exact H|]. exact (format_outstring_joins _ H).
Defined.

(** ** The options during an export *)

Lemma respects_weaken (R R' : Globals -> Globals -> Prop) {A} (m : M A) :
  (forall g g', R g g' -> R' g g') -> respects R m -> respects R' m.
Proof. intros Hw Hm g. specialize (Hm g). destruct (m g); auto. Qed.

Lemma same_options_refl g : same_options g g.
Proof. repeat split. Qed.

Lemma same_options_trans g1 g2 g3 :
  same_options g1 g2 -> same_options g2 g3 -> same_options g1 g3.
Proof. unfold same_options. intuition congruence. Qed.

Lemma walk_frame_options g g' : walk_frame g g' -> same_options g g'.
Proof. intros [C _]. unfold same_config in C. unfold same_options. intuition. Qed.

Lemma same_options_setters g :
  (forall v, same_options g (set_MOTION_MODE v g))
  /\ (forall v, same_options g (set_UNITS v g))
  /\ (forall v, same_options g (set_UNIT_FORMAT v g))
  /\ (forall v, same_options g (set_UNIT_SPEED_FORMAT v g)).
Proof. destruct g; repeat split. Qed.

Ltac options_tac :=
  repeat respects_step same_options_refl same_options_trans
         ltac:(apply same_options_setters).

Lemma options_numbered text : respects same_options (numbered text).
Proof. apply (respects_weaken walk_frame); [apply walk_frame_options | apply walk_numbered]. Qed.

Lemma options_emit_lines text gcode : respects same_options (emit_lines text gcode).
Proof.
  apply (respects_weaken walk_frame); [apply walk_frame_options | apply walk_emit_lines].
Qed.

Lemma options_parse fuel obj : respects same_options (parse fuel obj).
Proof. apply (respects_weaken walk_frame); [apply walk_frame_options | apply walk_parse]. Qed.

Lemma options_write_header env gcode : respects same_options (write_header env gcode).
Proof. pose proof options_numbered. unfold write_header. options_tac. Qed.

Lemma options_write_preamble gcode : respects same_options (write_preamble gcode).
Proof.
  pose proof options_numbered. pose proof options_emit_lines.
  unfold write_preamble. options_tac.
Qed.

Lemma options_establish_modes gcode : respects same_options (establish_modes gcode).
Proof. pose proof options_numbered. unfold establish_modes. options_tac. Qed.

Lemma options_export_object fuel obj gcode :
  respects same_options (export_object fuel obj gcode).
Proof.
  pose proof options_numbered. pose proof options_emit_lines. pose proof options_parse.
  unfold export_object. options_tac.
Qed.

Lemma options_export_objects fuel objs :
  forall gcode, respects same_options (export_objects fuel objs gcode).
Proof.
  pose proof options_export_object.
  induction objs as [|obj rest IH]; intros gcode; cbn [export_objects]; options_tac.
Qed.

Lemma options_write_postamble gcode : respects same_options (write_postamble gcode).
Proof.
  pose proof options_numbered. pose proof options_emit_lines.
  unfold write_postamble. options_tac.
Qed.

Lemma options_export_body env fuel objs :
  respects same_options
    (gcode <- write_header env "" ;;
     gcode <- write_preamble gcode ;;
     gcode <- establish_modes gcode ;;
     body <- export_objects fuel objs gcode ;;
     match body with
     | None => ret None
     | Some gcode =>
         gcode <- write_postamble gcode ;;
         show <- gets SHOW_EDITOR ;;
         ret (Some (if (GuiUp env && show)%bool
                    then match editor_dialog env gcode with
                         | Some edited => edited
                         | None => gcode
                         end
                    else gcode))
     end).
Proof.
  pose proof options_write_header. pose proof options_write_preamble.
  pose proof options_establish_modes. pose proof options_export_objects.
  pose proof options_write_postamble. options_tac.
Qed.

Lemma export_options env fuel objs filename args g :
  match export env fuel objs filename (Parsed args) g with
  | Ok _ g' | Raise _ g' => same_options (apply_args args g) g'
  | OutOfFuel => True
  end.
Proof.
  unfold export. unfold bind at 1. rewrite processArguments_apply. cbn [negb].
  apply options_export_body.
Qed.

(** X10.  An export changes the options only through its argument string:
    whatever it ends with, a written text, a silent return or an
    exception, the switches, the precision, the preamble and the postamble
    are afterwards what [processArguments] made of them; no command of
    the job and no step of the export alters them. *)
Theorem export_keeps_options env fuel objs filename args g :
  match export env fuel objs filename (Parsed args) g with
  | Ok _ g' | Raise _ g' => same_options (apply_args args g) g'
  | OutOfFuel => True
  end.
Proof. apply export_options. Qed.

(** ** Text blocks copied line by line *)

Lemma snoc_app cur c rest : Py.snoc cur c ++ rest = cur ++ String c rest.
Proof. unfold Py.snoc. now rewrite string_app_assoc. Qed.

Lemma splitlines_from_join n : forall s cur,
  (String.length s <= n)%nat ->
  join_lines (Py.splitlines_from cur s) = cur ++ s.
Proof.
  induction n as [|n IH]; intros s cur Hlen.
  - destruct s; [|cbn in Hlen; lia]. cbn. destruct cur; [reflexivity|].
    cbn [join_lines fold_right]. reflexivity.
  - destruct s as [|c rest].
    + cbn. destruct cur; [reflexivity|]. cbn [join_lines fold_right]. reflexivity.
    + cbn [String.length] in Hlen. cbn [Py.splitlines_from].
      destruct (Nat.eqb (nat_of_ascii c) 13).
      * destruct rest as [|c' rest'].
        { cbn [join_lines fold_right]. now rewrite snoc_app. }
        destruct (Nat.eqb (nat_of_ascii c') 10); cbn [join_lines fold_right];
          fold (join_lines (Py.splitlines_from "" rest'));
          fold (join_lines (Py.splitlines_from "" (String c' rest'))).
        -- rewrite IH by (cbn [String.length] in Hlen; lia).
           rewrite string_nil_app, !snoc_app. reflexivity.
        -- rewrite IH by lia. rewrite string_nil_app, snoc_app. reflexivity.
      * destruct (Py.is_linebreak c).
        -- cbn [join_lines fold_right]. fold (join_lines (Py.splitlines_from "" rest)).
           rewrite IH by lia. rewrite string_nil_app, snoc_app. reflexivity.
        -- rewrite IH by lia. apply snoc_app.
Qed.

Lemma splitlines_join s : join_lines (Py.splitlines_keepends s) = s.
Proof.
  unfold Py.splitlines_keepends. now rewrite (splitlines_from_join (String.length s)).
Qed.

Lemma numbering_off g :
  OUTPUT_LINE_NUMBERS g = false -> line_prefix g = "" /\ advance g = g.
Proof. unfold line_prefix, advance. now intros ->. Qed.

Lemma emit_lines_off text gcode g :
  OUTPUT_LINE_NUMBERS g = false -> emit_lines text gcode g = Ok (gcode ++ text) g.
Proof.
  intros Hoff. destruct (numbering_off g Hoff) as [Hp Ha].
  unfold emit_lines. rewrite <- (splitlines_join text) at 2.
  revert gcode. induction (Py.splitlines_keepends text) as [|line ls IH]; intros gcode.
  - cbn. now rewrite string_app_nil_r.
  - cbn [for_each join_lines fold_right]. run. rewrite Hp, Ha, string_nil_app.
    rewrite IH. unfold join_lines. now rewrite string_app_assoc.
Qed.

Lemma write_postamble_off gcode g :
  OUTPUT_LINE_NUMBERS g = false ->
  write_postamble gcode g
  = Ok (gcode ++ (if OUTPUT_COMMENTS g then "(begin postamble)" ++ nl else "")
          ++ POSTAMBLE g) g.
Proof.
  intros Hoff. destruct (numbering_off g Hoff) as [Hp Ha].
  unfold write_postamble. run.
  destruct (OUTPUT_COMMENTS g); run; rewrite ?Hp, ?Ha.
  - rewrite emit_lines_off by exact Hoff. now rewrite string_nil_app, string_app_assoc.
  - rewrite emit_lines_off by exact Hoff. now rewrite string_nil_app.
Qed.

Lemma steady_write_header env gcode : steady (write_header env gcode).
Proof. unfold write_header. steady_tac. Qed.

Lemma steady_write_preamble gcode : steady (write_preamble gcode).
Proof. unfold write_preamble. steady_tac. Qed.

(** X11.  With line numbering off and an editor that is not shown or hands
    the text back unchanged, every text [export] writes ends with the
    postamble, character for character, preceded by the line
    [(begin postamble)] when comments are on; the postamble is the one
    given in the argument string, or the one in force before the call. *)
Theorem export_ends_with_postamble env fuel objs filename args g text g' :
  passthrough env ->
  numbering_enabled args g = false ->
  export env fuel objs filename (Parsed args) g = Ok (Some text) g' ->
  (exists body,
     text = body ++ (if OUTPUT_COMMENTS g' then "(begin postamble)" ++ nl else "")
                 ++ POSTAMBLE g')
  /\ POSTAMBLE g' = match postamble args with Some p => p | None => POSTAMBLE g end.
Proof.
  intros Hpass Hnum H. split.
  - unfold export in H.
    destruct (processArguments_run args g) as (gA & HA & _ & HonA). rewrite Hnum in HonA.
    apply bind_ok in H as (ok & gA' & HA' & H). rewrite HA in HA'.
    inversion HA'; subst ok gA'; clear HA'. cbn [negb] in H.
    apply bind_ok in H as (gcode1 & g2 & H1 & H).
    apply bind_ok in H as (gcode2 & g3 & H2 & H).
    apply bind_ok in H as (gcode3 & g4 & H3 & H).
    apply bind_ok in H as (body & g5 & H4 & H).
    destruct body as [gcode4|]; [|inversion H].
    apply steady_write_header in H1 as [E1 _].
    apply steady_write_preamble in H2 as [E2 _].
    apply steady_establish_modes in H3 as [E3 _].
    apply steady_export_objects in H4 as [E4 _].
    assert (Hoff : OUTPUT_LINE_NUMBERS g5 = false) by congruence.
    unfold bind at 1 in H. rewrite (write_postamble_off gcode4 g5 Hoff) in H.
    run_in H. inversion H; subst; clear H.
    exists gcode4.
    destruct (GuiUp env && SHOW_EDITOR g')%bool; [|reflexivity].
    destruct (editor_dialog env _) as [edited|] eqn:Hed; [|reflexivity].
    now apply Hpass in Hed.
  - pose proof (export_options env fuel objs filename args g) as Ho. rewrite H in Ho.
    destruct Ho as (_ & _ & _ & _ & _ & _ & Hpost). rewrite Hpost. reflexivity.
Qed.

Lemma export_ends_with_postamble_witness :
  (passthrough headless
   /\ numbering_enabled terse_args initial_globals = false
   /\ export headless 0 sample_objects "out.iso" (Parsed terse_args) initial_globals
      = Ok (Some (unlines ["G71"; "G90"; "G71"; "G0 X1.000 Y2.000 Z3.000"; "M5"; "M2"]))
           (set_CURRENT_Z (Units.Qty 3) (set_CURRENT_Y 2 (set_CURRENT_X 1 (set_START_OR_M6 false
              (apply_args terse_args initial_globals))))))
  /\ exists body,
       unlines ["G71"; "G90"; "G71"; "G0 X1.000 Y2.000 Z3.000"; "M5"; "M2"]
       = body ++ "" ++ unlines ["M5"; "M2"].
Proof.
  assert (Hp : passthrough headless) by (intros s t H; discriminate H).
  assert (Hn : numbering_enabled terse_args initial_globals = false) by reflexivity.
  assert (H : export headless 0 sample_objects "out.iso" (Parsed terse_args) initial_globals
              = Ok (Some (unlines ["G71"; "G90"; "G71"; "G0 X1.000 Y2.000 Z3.000";
                                   "M5"; "M2"]))
                   (set_CURRENT_Z (Units.Qty 3) (set_CURRENT_Y 2 (set_CURRENT_X 1
                      (set_START_OR_M6 false (apply_args terse_args initial_globals))))))
    by (vm_compute; reflexivity).
  split; [auto|].
  exact (proj1 (export_ends_with_postamble headless 0 sample_objects "out.iso" terse_args
                  initial_globals _ _ Hp Hn H)).
Defined.

(** ** Groups *)

Lemma parse_children_cons fuel p ps out g :
  parse_children fuel (p :: ps) out g
  = (sub <- parse fuel p ;; out' <- str_iadd out sub ;; parse_children fuel ps out') g.
Proof. reflexivity. Qed.

Lemma parse_children_skip fuel ps :
  forall out g,
    parse_children fuel ps out g
    = parse_children fuel (List.filter (fun p => negb (is_other p)) ps) out g.
Proof.
  induction ps as [|p ps IH]; intros out g; [reflexivity|].
  cbn [List.filter]. destruct p as [label hp group | label commands | label]; cbn [is_other negb].
  - rewrite !parse_children_cons. apply bind_ext. intros sub g1.
    apply bind_ext. intros out' g2. apply IH.
  - rewrite !parse_children_cons. apply bind_ext. intros sub g1.
    apply bind_ext. intros out' g2. apply IH.
  - rewrite parse_children_cons. change (parse fuel (Other label)) with (ret (OStr "")).
    run. cbn [str_iadd]. run. rewrite string_app_nil_r. apply IH.
Qed.

(** X12.  Children of a group that are neither groups nor paths (stock and
    the like) are invisible: the walk of a group gives the same text, the
    same exception and the same globals as the walk of the group without
    them. *)
Theorem non_path_children_are_skipped fuel label has_path group g :
  parse fuel (Compound label has_path group) g
  = parse fuel (Compound label has_path
                  (List.filter (fun p => negb (is_other p)) group)) g.
Proof.
  rewrite !parse_Compound. apply bind_ext. intros comments g1.
  apply bind_ext. intros out g2. unfold bind. rewrite <- parse_children_skip. reflexivity.
Qed.

Lemma parse_children_app fuel ps qs :
  forall out g,
    parse_children fuel (ps ++ qs)%list out g
    = (o <- parse_children fuel ps out ;; parse_children fuel qs o) g.
Proof.
  induction ps as [|p ps IH]; intros out g; [reflexivity|].
  cbn [app]. rewrite parse_children_cons.
  change (parse_children fuel (p :: ps) out)
    with (sub <- parse fuel p ;; out' <- str_iadd out sub ;; parse_children fuel ps out').
  rewrite !bind_assoc.
  apply bind_ext. intros sub g1. rewrite bind_assoc.
  apply bind_ext. intros out' g2. apply IH.
Qed.

(** The children of a group only add to what was gathered before them. *)
Lemma parse_children_acc fuel ps :
  forall out g,
    parse_children fuel ps out g
    = (r <- parse_children fuel ps "" ;; ret (out ++ r)) g.
Proof.
  induction ps as [|p ps IH]; intros out g.
  - cbn. now rewrite string_app_nil_r.
  - rewrite parse_children_cons.
    change (parse_children fuel (p :: ps) "")
      with (sub <- parse fuel p ;; out' <- str_iadd "" sub ;; parse_children fuel ps out').
    rewrite !bind_assoc. apply bind_ext. intros sub g1.
    destruct sub as [s | l]; cbn [str_iadd]; run; [|reflexivity].
    pose proof (IH (out ++ s) g1) as E1. pose proof (IH ("" ++ s) g1) as E2.
    rewrite E1. unfold bind. rewrite E2. unfold bind.
    destruct (parse_children fuel ps "" g1); try reflexivity.
    unfold ret. now rewrite string_nil_app, string_app_assoc.
Qed.

Lemma walk_parse_children fuel ps :
  forall out, respects walk_frame (parse_children fuel ps out).
Proof.
  pose proof walk_parse.
  induction ps as [|p ps IH]; intros out; cbn [parse_children]; walk_tac.
Qed.

Lemma nested_group_inlined fuel label' has_path' ps qs out g :
  OUTPUT_COMMENTS g = false ->
  parse_children fuel (Compound label' has_path' ps :: qs) out g
  = parse_children fuel (ps ++ qs)%list out g.
Proof.
  intros Hoff. rewrite parse_children_app, parse_children_cons, parse_Compound.
  run. rewrite Hoff. run. unfold bind.
  rewrite (parse_children_acc fuel ps out g). unfold bind.
  destruct (parse_children fuel ps "" g) as [r g1| |]; reflexivity.
Qed.

Lemma nested_group_anywhere fuel label' has_path' pre ps qs out g :
  OUTPUT_COMMENTS g = false ->
  parse_children fuel (pre ++ Compound label' has_path' ps :: qs)%list out g
  = parse_children fuel (pre ++ ps ++ qs)%list out g.
Proof.
  intros Hoff. rewrite !(parse_children_app fuel pre).
  pose proof (walk_parse_children fuel pre out g) as Hw.
  unfold bind.
  destruct (parse_children fuel pre out g) as [o g1| |]; try reflexivity.
  destruct Hw as [Hc _]. destruct Hc as (_ & Hcomm & _).
  apply nested_group_inlined. congruence.
Qed.

(** X13.  With comments off grouping is invisible: a group standing
    anywhere among the children of another group is walked exactly as if
    its own children stood in its place. *)
Theorem nested_group_is_flattened fuel label has_path label' has_path' pre ps qs g :
  OUTPUT_COMMENTS g = false ->
  parse fuel (Compound label has_path (pre ++ Compound label' has_path' ps :: qs)) g
  = parse fuel (Compound label has_path (pre ++ ps ++ qs)) g.
Proof.
  intros Hoff. rewrite !parse_Compound. run. rewrite Hoff. run.
  unfold bind. now rewrite (nested_group_anywhere fuel label' has_path' pre ps qs "" g Hoff).
Qed.

Lemma nested_group_is_flattened_witness :
  let a := Leaf "a" [command "G0" [("X", 1%Q)]] in
  let b := Leaf "b" [command "G1" [("Y", 2%Q)]] in
  let c := Leaf "c" [command "M5" []] in
  OUTPUT_COMMENTS quiet_globals = false
  /\ parse 0 (Compound "job" true ([a] ++ Compound "inner" true [b] :: [c])) quiet_globals
     = parse 0 (Compound "job" true ([a] ++ [b] ++ [c])) quiet_globals.
Proof.
  intros a b c. assert (H : OUTPUT_COMMENTS quiet_globals = false) by reflexivity.
  split; [exact H|].
  exact (nested_group_is_flattened 0 "job" true "inner" true [a] [b] [c] quiet_globals H).
Defined.

(** ** Parameters that are written and parameters that are not *)

Lemma fold_left_ext_in {A B} (f f' : A -> B -> A) (l : list B) :
  (forall a x, In x l -> f a x = f' a x) ->
  forall a, fold_left f l a = fold_left f' l a.
Proof.
  induction l as [|x l IH]; intros H a; [reflexivity|].
  cbn [fold_left]. rewrite H by (left; reflexivity). apply IH.
  intros a' y Hy. apply H. now right.
Qed.

(** X14.  Only the letters of the order list are ever written: a parameter
    with any other letter (K, C, H, D, U, V, W, ...) leaves no token, so
    the tokens of a command are those of the same command without that
    parameter. *)
Theorem unlisted_parameter_is_dropped g code name (params : gmap string Q) k outstring :
  ~ In k params_order ->
  add_parameters g code (mkCommand name (delete k params)) outstring
  = add_parameters g code (mkCommand name params) outstring.
Proof.
  intros Hk. unfold add_parameters. apply fold_left_ext_in.
  intros os p Hp. unfold add_parameter. cbn [Parameters].
  assert (k <> p) by (intros ->; contradiction).
  now rewrite lookup_delete_ne.
Qed.

Lemma unlisted_parameter_is_dropped_witness :
  let params : gmap string Q := list_to_map [("X", 1%Q); ("I", 2%Q); ("K", 3%Q)] in
  ~ In "K" params_order
  /\ add_parameters initial_globals "G2" (mkCommand "G2" (delete "K" params)) ["G2"]
     = add_parameters initial_globals "G2" (mkCommand "G2" params) ["G2"].
Proof.
  intros params.
  assert (H : ~ In "K" params_order).
  { cbn. intros H. repeat (destruct H as [H|H]; [discriminate H|]). exact H. }
  split; [exact H|].
  exact (unlisted_parameter_is_dropped initial_globals "G2" "G2" params "K" ["G2"] H).
Defined.

(** The token one round of the parameter loop adds, if any: the letter
    followed by a value, and none for F on a rapid move. *)
Lemma add_parameter_token g code c param tok :
  In tok (add_parameter g code c [] param) ->
  (exists value, tok = param ++ value)
  /\ (param = "F" -> Py.in_list code RAPID_MOVES = false).
Proof.
  unfold add_parameter, Py.list_append.
  destruct (Parameters c !! param) as [v|]; [|intros []].
  destruct (String.eqb param "I") eqn:EI.
  { intros [<-|[]]. split; [eauto|]. intros ->. discriminate. }
  destruct (String.eqb param "J") eqn:EJ.
  { intros [<-|[]]. split; [eauto|]. intros ->. discriminate. }
  destruct (String.eqb param "F") eqn:EF.
  - destruct (Py.in_list code RAPID_MOVES); cbn [negb]; [intros []|].
    destruct (Py.Qgtb _ _); [|intros []].
    intros [<-|[]]. split; [eauto | reflexivity].
  - assert (HF : param = "F" -> Py.in_list code RAPID_MOVES = false).
    { intros ->. discriminate. }
    destruct (Py.in_list param ["T"; "H"; "D"; "S"; "P"; "L"]);
      [|destruct (Py.in_list param ["A"; "B"; "C"])];
      intros [<-|[]]; split; eauto.
Qed.

(** X15.  A rapid move (G0, G00) never carries a feed rate: none of the
    tokens written for its parameters starts with F, whatever its F
    parameter is. *)
Theorem rapid_move_has_no_feed g code c tok :
  Py.in_list code RAPID_MOVES = true ->
  In tok (add_parameters g code c []) ->
  String.prefix "F" tok = false.
Proof.
  intros Hrapid Hin. rewrite add_parameters_app in Hin. cbn [app] in Hin.
  apply in_flat_map in Hin as (p & Hp & Htok).
  destruct (add_parameter_token _ _ _ _ _ Htok) as [[value ->] HF].
  cbn in Hp.
  repeat (destruct Hp as [<-|Hp]; [try reflexivity|]); [|destruct Hp].
  specialize (HF eq_refl). congruence.
Qed.

Lemma rapid_move_has_no_feed_witness :
  let c := command "G0" [("X", 2%Q); ("F", 100%Q)] in
  (Py.in_list "G0" RAPID_MOVES = true
   /\ In "X2.000" (add_parameters initial_globals "G0" c []))
  /\ String.prefix "F" "X2.000" = false.
Proof.
  intros c.
  assert (H1 : Py.in_list "G0" RAPID_MOVES = true) by reflexivity.
  assert (H2 : In "X2.000" (add_parameters initial_globals "G0" c []))
    by (vm_compute; left; reflexivity).
  split; [split; assumption|].
  exact (rapid_move_has_no_feed initial_globals "G0" c "X2.000" H1 H2).
Defined.

(** ** Commands that are passed through, commented out, or change the tool *)

Lemma in_list_In x l : Py.in_list x l = true <-> In x l.
Proof.
  unfold Py.in_list. rewrite existsb_exists. split.
  - intros (y & Hy & E). apply String.eqb_eq in E. now subst.
  - intros H. exists x. split; [exact H | apply String.eqb_refl].
Qed.

Lemma in_list_false_sub x (small big : list string) :
  (forall y, In y small -> In y big) ->
  Py.in_list x big = false -> Py.in_list x small = false.
Proof.
  intros Hsub Hbig. apply not_true_is_false. intros H.
  apply in_list_In, Hsub, in_list_In in H. congruence.
Qed.

Lemma motion_bookkeeping_skip code c outstring :
  Py.in_list code MOTION_COMMANDS = false ->
  motion_bookkeeping code c outstring = ret outstring.
Proof. intros H. unfold motion_bookkeeping. now rewrite H. Qed.

(** The parameter loop reads five globals only. *)
Lemma add_parameters_fields g g' code c outstring :
  PRECISION g' = PRECISION g -> CURRENT_X g' = CURRENT_X g ->
  CURRENT_Y g' = CURRENT_Y g -> UNIT_FORMAT g' = UNIT_FORMAT g ->
  UNIT_SPEED_FORMAT g' = UNIT_SPEED_FORMAT g ->
  add_parameters g' code c outstring = add_parameters g code c outstring.
Proof.
  intros E1 E2 E3 E4 E5. unfold add_parameters. apply fold_left_ext_in.
  intros os p _. unfold add_parameter. now rewrite E1, E2, E3, E4, E5.
Qed.

(** [parse_command] on a command that is not a motion, not a cycle and not
    a message, with the blocks that do not apply to it left out. *)
Lemma parse_command_other fuel c out last g :
  let code := translate_code (Name c) in
  Py.in_list code MOTION_COMMANDS = false ->
  Py.in_list code ["G81"; "G82"; "G83"] = false ->
  String.eqb code "message" = false ->
  parse_command fuel c (out, last) g
  = (r <- tool_change code out [code] ;;
     g1 <- gets id ;;
     (if Py.in_list code ["G98"; "G99"]
      then modify (set_DRILL_RETRACT_MODE code) else ret tt) ;;
     (if Py.in_list code ["G90"; "G91"]
      then modify (set_MOTION_MODE code) else ret tt) ;;
     let outstring := add_parameters g1 code c (snd r) in
     let outstring := if Py.in_list code SUPPRESS_COMMANDS
                      then Py.list_append (Py.list_insert 0 "(" outstring) ")"
                      else outstring in
     out' <- (if Nat.leb 1 (length outstring)
              then s <- numbered (format_outstring outstring ++ nl) ;;
                   ret (iadd (fst r) s)
              else ret (fst r)) ;;
     ret (out', Some code)) g.
Proof.
  intros code Hmotion Hcycle Hmsg.
  assert (Hmodal : Py.in_list code MODAL_COMMANDS = false).
  { apply (in_list_false_sub _ _ MOTION_COMMANDS); [|exact Hmotion].
    cbn. intuition. }
  unfold parse_command. fold code. apply bind_ext. intros [out1 os1] g1.
  unfold MODAL. rewrite Hmodal, andb_false_r. run.
  rewrite (motion_bookkeeping_skip _ _ _ Hmotion). run.
  rewrite Hcycle, Hmsg. cbn [fst snd]. unfold id.
  apply bind_ext. intros u1 g2. apply bind_ext. intros u2 g3. run. reflexivity.
Qed.

Lemma tool_change_skip code out outstring :
  Py.in_list code ["M6"; "M06"] = false ->
  tool_change code out outstring = ret (out, outstring).
Proof. intros H. unfold tool_change. now rewrite H. Qed.

Lemma line_prefix_modes g :
  (forall v, line_prefix (set_DRILL_RETRACT_MODE v g) = line_prefix g)
  /\ (forall v, line_prefix (set_MOTION_MODE v g) = line_prefix g)
  /\ (forall v, line_prefix (set_START_OR_M6 v g) = line_prefix g).
Proof. destruct g; repeat split. Qed.

(** X16.  A command that is no tool change, no motion, no cycle, no
    message and not in the suppressed list (M3, M5, G4, a comment, G90,
    G91, a unit code, ...) is passed through as exactly one line: its
    translated code followed by its parameter tokens; it uses one line
    number; and it changes no other global, except that G90 and G91 are
    recorded as the motion mode. *)
Theorem plain_command_is_one_line fuel c out last g :
  let code := translate_code (Name c) in
  let tokens := flat_map (add_parameter g code c []) params_order in
  Py.in_list code ["M6"; "M06"] = false ->
  Py.in_list code MOTION_COMMANDS = false ->
  Py.in_list code ["G81"; "G82"; "G83"] = false ->
  String.eqb code "message" = false ->
  Py.in_list code SUPPRESS_COMMANDS = false ->
  parse_command fuel c (out, last) g
  = Ok (iadd out (line_prefix g ++ format_outstring (code :: tokens) ++ nl), Some code)
       (advance (if Py.in_list code ["G90"; "G91"] then set_MOTION_MODE code g else g)).
Proof.
  intros code tokens Htool Hmotion Hcycle Hmsg Hsup.
  assert (H98 : Py.in_list code ["G98"; "G99"] = false).
  { apply (in_list_false_sub _ _ SUPPRESS_COMMANDS); [|exact Hsup]. cbn. intuition. }
  rewrite parse_command_other by assumption. fold code.
  rewrite (tool_change_skip _ _ _ Htool). run. cbn [fst snd]. unfold id.
  rewrite H98, Hsup. run. rewrite add_parameters_app. cbn [app]. fold tokens.
  destruct (Py.in_list code ["G90"; "G91"]); run; cbn [length Nat.leb]; run;
    rewrite ?(proj1 (proj2 (line_prefix_modes g))); reflexivity.
Qed.

Lemma plain_command_is_one_line_witness :
  let c := command "G91" [] in
  let code := translate_code (Name c) in
  let tokens := flat_map (add_parameter initial_globals code c []) params_order in
  (Py.in_list code ["M6"; "M06"] = false
   /\ Py.in_list code MOTION_COMMANDS = false
   /\ Py.in_list code ["G81"; "G82"; "G83"] = false
   /\ String.eqb code "message" = false
   /\ Py.in_list code SUPPRESS_COMMANDS = false)
  /\ parse_command 0 c (OStr "", None) initial_globals
     = Ok (iadd (OStr "") (line_prefix initial_globals
                           ++ format_outstring (code :: tokens) ++ nl), Some code)
          (advance (if Py.in_list code ["G90"; "G91"]
                    then set_MOTION_MODE code initial_globals else initial_globals)).
Proof.
  intros c code tokens.
  split; [repeat split|].
  exact (plain_command_is_one_line 0 c (OStr "") None initial_globals
           eq_refl eq_refl eq_refl eq_refl eq_refl).
Defined.

Lemma suppressed_name_facts code :
  Py.in_list code SUPPRESS_COMMANDS = true ->
  Py.in_list code ["M6"; "M06"] = false
  /\ Py.in_list code MOTION_COMMANDS = false
  /\ Py.in_list code ["G81"; "G82"; "G83"] = false
  /\ String.eqb code "message" = false
  /\ Py.in_list code ["G90"; "G91"] = false.
Proof.
  intros H. apply in_list_In in H. cbn in H.
  repeat (destruct H as [<-|H]; [repeat split|]). destruct H.
Qed.

(** X17.  A command of the suppressed list (G98, G99, G80, G17, G53 to
    G59) never reaches the output as a live instruction: it is written as
    one line made of an opening parenthesis, the code, its parameter
    tokens and a closing parenthesis; it still uses one line number; and
    G98 and G99 are recorded as the retract mode all the same. *)
Theorem suppressed_command_is_commented fuel c out last g :
  let code := translate_code (Name c) in
  let tokens := flat_map (add_parameter g code c []) params_order in
  Py.in_list code SUPPRESS_COMMANDS = true ->
  parse_command fuel c (out, last) g
  = Ok (iadd out (line_prefix g
                  ++ format_outstring ("(" :: code :: tokens ++ [")"])%list ++ nl),
        Some code)
       (advance (if Py.in_list code ["G98"; "G99"]
                 then set_DRILL_RETRACT_MODE code g else g)).
Proof.
  intros code tokens Hsup.
  destruct (suppressed_name_facts code Hsup) as (Htool & Hmotion & Hcycle & Hmsg & H90).
  rewrite parse_command_other by assumption. fold code.
  rewrite (tool_change_skip _ _ _ Htool). run. cbn [fst snd]. unfold id.
  rewrite H90, Hsup. rewrite add_parameters_app. cbn [app]. fold tokens.
  change (Py.list_append (Py.list_insert 0 "(" (code :: tokens)) ")")
    with ("(" :: code :: tokens ++ [")"])%list.
  destruct (Py.in_list code ["G98"; "G99"]); run; cbn [length Nat.leb]; run;
    rewrite ?(proj1 (line_prefix_modes g)); reflexivity.
Qed.

Lemma suppressed_command_is_commented_witness :
  let c := command "G98" [] in
  let code := translate_code (Name c) in
  let tokens := flat_map (add_parameter initial_globals code c []) params_order in
  Py.in_list code SUPPRESS_COMMANDS = true
  /\ parse_command 0 c (OStr "", None) initial_globals
     = Ok (iadd (OStr "") (line_prefix initial_globals
                           ++ format_outstring ("(" :: code :: tokens ++ [")"])%list ++ nl),
           Some code)
          (advance (if Py.in_list code ["G98"; "G99"]
                    then set_DRILL_RETRACT_MODE code initial_globals
                    else initial_globals)).
Proof.
  intros c code tokens. split; [reflexivity|].
  exact (suppressed_command_is_commented 0 c (OStr "") None initial_globals eq_refl).
Defined.

(** The line of the witness as it is written. *)
Example suppressed_line_text :
  value_of (parse_command 0 (command "G98" []) (OStr "", None) initial_globals)
  = Some (OStr (unlines ["N10 ( G98 )"]), Some "G98").
Proof. vm_compute. reflexivity. Qed.

Lemma tool_change_name_facts code :
  Py.in_list code ["M6"; "M06"] = true ->
  Py.in_list code MOTION_COMMANDS = false
  /\ Py.in_list code ["G81"; "G82"; "G83"] = false
  /\ String.eqb code "message" = false
  /\ Py.in_list code ["G98"; "G99"] = false
  /\ Py.in_list code ["G90"; "G91"] = false
  /\ Py.in_list code SUPPRESS_COMMANDS = false.
Proof.
  intros H. apply in_list_In in H. cbn in H.
  repeat (destruct H as [<-|H]; [repeat split|]). destruct H.
Qed.

Lemma emit_no_tool_change_block out : emit_block TOOL_CHANGE out = ret out.
Proof. reflexivity. Qed.

Lemma flag_keeps_fields v g :
  PRECISION (set_START_OR_M6 v g) = PRECISION g
  /\ CURRENT_X (set_START_OR_M6 v g) = CURRENT_X g
  /\ CURRENT_Y (set_START_OR_M6 v g) = CURRENT_Y g
  /\ UNIT_FORMAT (set_START_OR_M6 v g) = UNIT_FORMAT g
  /\ UNIT_SPEED_FORMAT (set_START_OR_M6 v g) = UNIT_SPEED_FORMAT g.
Proof. destruct g; repeat split. Qed.

(** X18.  A tool change (M6, M06) is written as a live line, preceded by
    the comment line [(begin toolchange)] when comments are on; it raises
    the flag that makes the next motion carry all three axes, and it
    leaves every other global but the line counter as it was. *)
Theorem tool_change_is_written_and_flagged fuel c out last g :
  let code := translate_code (Name c) in
  let tokens := flat_map (add_parameter g code c []) params_order in
  let g1 := if OUTPUT_COMMENTS g then advance g else g in
  let out1 := if OUTPUT_COMMENTS g
              then iadd out (line_prefix g ++ "(begin toolchange)" ++ nl) else out in
  Py.in_list code ["M6"; "M06"] = true ->
  parse_command fuel c (out, last) g
  = Ok (iadd out1 (line_prefix g1 ++ format_outstring (code :: tokens) ++ nl), Some code)
       (advance (set_START_OR_M6 true g1)).
Proof.
  intros code tokens g1 out1 Htool.
  destruct (tool_change_name_facts code Htool)
    as (Hmotion & Hcycle & Hmsg & H98 & H90 & Hsup).
  rewrite parse_command_other by assumption. fold code.
  unfold tool_change. rewrite Htool. run.
  change (negb OUTPUT_TOOL_CHANGE) with false. cbv iota.
  rewrite H98, H90, Hsup.
  assert (Htok : forall g', PRECISION g' = PRECISION g -> CURRENT_X g' = CURRENT_X g ->
            CURRENT_Y g' = CURRENT_Y g -> UNIT_FORMAT g' = UNIT_FORMAT g ->
            UNIT_SPEED_FORMAT g' = UNIT_SPEED_FORMAT g ->
            add_parameters g' code c [code] = (code :: tokens)%list).
  { intros g' E1 E2 E3 E4 E5.
    rewrite (add_parameters_fields g g') by assumption.
    now rewrite add_parameters_app. }
  destruct (advance_fields g) as (_ & _ & A1 & A2 & A3 & _ & _ & _ & A4 & A5 & _).
  assert (Hflag : forall g', add_parameters (set_START_OR_M6 true g') code c [code]
                             = add_parameters g' code c [code]).
  { intros g'. destruct (flag_keeps_fields true g') as (F1 & F2 & F3 & F4 & F5).
    now apply add_parameters_fields. }
  unfold g1, out1. destruct (OUTPUT_COMMENTS g); run;
    rewrite emit_no_tool_change_block; run; cbn [fst snd]; unfold id;
    rewrite Hflag, Htok by (assumption || reflexivity);
    cbn [length Nat.leb]; run;
    rewrite (proj2 (proj2 (line_prefix_modes _))); reflexivity.
Qed.

Lemma tool_change_is_written_and_flagged_witness :
  let g := initial_globals in
  let c := command "M6" [("T", 2%Q)] in
  let code := translate_code (Name c) in
  let tokens := flat_map (add_parameter g code c []) params_order in
  let g1 := if OUTPUT_COMMENTS g then advance g else g in
  let out1 := if OUTPUT_COMMENTS g
              then iadd (OStr "") (line_prefix g ++ "(begin toolchange)" ++ nl)
              else OStr "" in
  Py.in_list code ["M6"; "M06"] = true
  /\ parse_command 0 c (OStr "", None) g
     = Ok (iadd out1 (line_prefix g1 ++ format_outstring (code :: tokens) ++ nl),
           Some code)
          (advance (set_START_OR_M6 true g1)).
Proof.
  intros g c code tokens g1 out1. split; [reflexivity|].
  exact (tool_change_is_written_and_flagged 0 c (OStr "") None g eq_refl).
Defined.

(** The two lines of the witness as they are written. *)
Example tool_change_text :
  value_of (parse_command 0 (command "M6" [("T", 2%Q)]) (OStr "", None) initial_globals)
  = Some (OStr (unlines ["N10 (begin toolchange)"; "N20 M6 T2.0"]), Some "M6").
Proof. vm_compute. reflexivity. Qed.

(** ** The first move of a run and the first move after a tool change *)

Lemma own_axis_token g code c axis v first :
  In axis ["X"; "Y"; "Z"] ->
  Parameters c !! axis = Some v ->
  exists value, In (axis ++ value) (add_parameters g code c first)
                /\ len_values (Parameters c) <> 0%nat.
Proof.
  intros Haxis Hv.
  destruct (add_parameter_kept g code c axis v Hv) as (value & Hvalue).
  { intros ->. cbn in Haxis. intuition discriminate. }
  exists value. split.
  - rewrite add_parameters_app. apply in_or_app. right.
    apply in_flat_map. exists axis. split.
    + cbn in Haxis. cbn. intuition.
    + rewrite Hvalue. now left.
  - intros H0. rewrite (len_values_0 _ axis H0) in Hv. discriminate.
Qed.

(** X19.  A motion command met while the flag [START_OR_M6] is set (the
    first move of the run, or the first one after a tool change) always
    writes a line, also when the code is the same as the last one or the
    command has no parameter at all; the line has a token for each of X, Y
    and Z; and the flag is clear afterwards. *)
Theorem flagged_move_names_three_axes fuel c out last g :
  let code := translate_code (Name c) in
  Py.in_list code MOTION_COMMANDS = true ->
  START_OR_M6 g = true ->
  exists tokens g',
    parse_command fuel c (out, last) g
    = Ok (iadd out (line_prefix g ++ format_outstring tokens ++ nl), Some code) g'
    /\ START_OR_M6 g' = false
    /\ (forall axis, In axis ["X"; "Y"; "Z"] -> exists value, In (axis ++ value) tokens).
Proof.
  intros code Hmotion Hflag. rewrite parse_command_motion by exact Hmotion. fold code.
  set (first := if (same_command code last && Py.in_list code MODAL_COMMANDS)%bool
                then [] else [code]).
  destruct (forced_move_has_three_axes code c (add_parameters g code c first) g
              Hmotion Hflag) as (tokens & g2 & Hrun & Hclear & HX & HY & HZ & Hkept).
  destruct (motion_bookkeeping_run code c (add_parameters g code c first) g Hmotion)
    as (tokens' & g2' & Hrun' & _ & Hprefix & _).
  rewrite Hrun in Hrun'. inversion Hrun'; subst tokens' g2'; clear Hrun'.
  assert (Haxes : forall axis, In axis ["X"; "Y"; "Z"] ->
                               exists value, In (axis ++ value) tokens).
  { intros axis Haxis.
    destruct (Parameters c !! axis) as [v|] eqn:Hv.
    - destruct (own_axis_token g code c axis v first Haxis Hv) as (value & Hin & Hlen).
      exists value. now apply Hkept.
    - cbn in Haxis. destruct Haxis as [<-|[<-|[<-|[]]]]; eexists;
        [apply (HX Hv) | apply (HY Hv) | apply (HZ Hv)]. }
  exists tokens, (advance g2). split; [|split; [|exact Haxes]].
  - unfold bind at 1. rewrite Hrun.
    destruct (Haxes "X") as (value & Hin); [now left|].
    destruct tokens as [|t ts]; [destruct Hin|]. cbn [length Nat.leb]. run.
    now rewrite Hprefix.
  - destruct (advance_fields g2) as (_&_&_&_&_&_&_&E&_). congruence.
Qed.

Lemma flagged_move_names_three_axes_witness :
  let c := command "G1" [] in
  let code := translate_code (Name c) in
  (Py.in_list code MOTION_COMMANDS = true /\ START_OR_M6 initial_globals = true)
  /\ exists tokens g',
       parse_command 0 c (OStr "", Some "G1") initial_globals
       = Ok (iadd (OStr "") (line_prefix initial_globals
                             ++ format_outstring tokens ++ nl), Some code) g'
       /\ START_OR_M6 g' = false
       /\ (forall axis, In axis ["X"; "Y"; "Z"] -> exists value, In (axis ++ value) tokens).
Proof.
  intros c code. split; [split; reflexivity|].
  exact (flagged_move_names_three_axes 0 c (OStr "") (Some "G1") initial_globals
           eq_refl eq_refl).
Defined.

(** ** A cycle in relative mode *)

Lemma absolute_mode_fields g :
  OUTPUT_LINE_NUMBERS (set_MOTION_MODE "G90" g) = OUTPUT_LINE_NUMBERS g
  /\ OUTPUT_COMMENTS (set_MOTION_MODE "G90" g) = OUTPUT_COMMENTS g
  /\ PRECISION (set_MOTION_MODE "G90" g) = PRECISION g
  /\ UNIT_FORMAT (set_MOTION_MODE "G90" g) = UNIT_FORMAT g
  /\ UNIT_SPEED_FORMAT (set_MOTION_MODE "G90" g) = UNIT_SPEED_FORMAT g
  /\ CURRENT_Z (set_MOTION_MODE "G90" g) = CURRENT_Z g
  /\ MOTION_MODE (set_MOTION_MODE "G90" g) = "G90"
  /\ (forall R, retract_plane (set_MOTION_MODE "G90" g) R = retract_plane g R).
Proof. destruct g; repeat split. Qed.

Ltac quiet_fields Hadv Hpre Hadv' Hpre' E3 E4 E5 :=
  rewrite ?Hadv, ?Hadv', ?Hpre, ?Hpre', ?E3, ?E4, ?E5, ?string_nil_app.

(** The peck loop run with numbering off: a text put in front of the
    buffer stays in front, and the motion mode plays no part. *)
Lemma peck_loop_wrapped fuel dz rz st sp g :
  OUTPUT_LINE_NUMBERS g = false ->
  forall next t u,
    peck_loop fuel dz rz st sp next (t ++ u) g
    = match peck_loop fuel dz rz st sp next u (set_MOTION_MODE "G90" g) with
      | Ok s _ => Ok (t ++ s) g
      | Raise e _ => Raise e g
      | OutOfFuel => OutOfFuel
      end.
Proof.
  intros Hq.
  destruct (absolute_mode_fields g) as (E1 & _ & E3 & E4 & E5 & _).
  destruct (numbering_off g Hq) as [Hpre Hadv].
  destruct (numbering_off (set_MOTION_MODE "G90" g)) as [Hpre' Hadv']; [congruence|].
  induction fuel as [|fuel IH]; intros next t u; cbn [peck_loop]; [reflexivity|].
  destruct rz as [n|rz], (Py.Qgtb next dz); run_moves;
    quiet_fields Hadv Hpre Hadv' Hpre' E3 E4 E5; try reflexivity.
  - rewrite string_app_assoc. apply IH.
  - now rewrite string_app_assoc.
Qed.

Lemma drill_moves_wrapped fuel cmd x y z R speed step dwell g :
  OUTPUT_LINE_NUMBERS g = false ->
  MOTION_MODE g = "G91" ->
  drill_moves fuel cmd x y z R speed step dwell "" g
  = wrapped_in_absolute g
      (drill_moves fuel cmd x y z R speed step dwell "" (set_MOTION_MODE "G90" g)).
Proof.
  intros Hq Hmode.
  destruct (absolute_mode_fields g) as (E1 & _ & E3 & E4 & E5 & E6 & E7 & _).
  destruct (numbering_off g Hq) as [Hpre Hadv].
  destruct (numbering_off (set_MOTION_MODE "G90" g)) as [Hpre' Hadv']; [congruence|].
  unfold drill_moves. run. unfold id. rewrite Hmode, E6, E7.
  change (String.eqb "G91" "G91") with true.
  change (String.eqb "G90" "G91") with false. cbv iota.
  set (pre := "G90" ++ nl).
  destruct (CURRENT_Z g) as [cn|cz], R as [rn|rq];
  match goal with
  | |- context [Py.Qltb ?a ?b] => destruct (Py.Qltb a b), (Py.Qgtb a b)
  end;
    (destruct (Py.in_list cmd ["G81"; "G82"]);
     [ destruct (String.eqb cmd "G82"); [destruct dwell|] | destruct step ]);
    run_moves; quiet_fields Hadv Hpre Hadv' Hpre' E3 E4 E5;
    first
      [ reflexivity
      | unfold wrapped_in_absolute, ret; fold pre; rewrite ?string_app_assoc; reflexivity
      | unfold bind; rewrite ?string_app_assoc;
        rewrite (peck_loop_wrapped _ _ _ _ _ g Hq);
        match goal with
        | |- context [peck_loop ?f ?a ?b ?c ?d ?e ?u (set_MOTION_MODE "G90" g)] =>
            destruct (peck_loop f a b c d e u (set_MOTION_MODE "G90" g)) as [s g'|e' g'|]
        end;
        try reflexivity;
        rewrite !numbered_run, Hpre, Hadv, string_nil_app; cbn [wrapped_in_absolute];
        fold pre; now rewrite ?string_app_assoc ].
Qed.

Lemma bind_getitem {B} (d : gmap string Q) k v (f : Q -> M B) g :
  d !! k = Some v -> bind (getitem d k) f g = f v g.
Proof. intros H. unfold getitem. now rewrite H. Qed.

Lemma cycle_numbers_wrapped cmd params x y z r g :
  MOTION_MODE g = "G91" ->
  params !! "X" = Some x -> params !! "Y" = Some y ->
  params !! "Z" = Some z -> params !! "R" = Some r ->
  cycle_numbers cmd params g
  = match cycle_numbers cmd (made_absolute g x y z r params) (set_MOTION_MODE "G90" g) with
    | Ok cyc _ => Ok cyc g
    | Raise e _ => Raise e g
    | OutOfFuel => OutOfFuel
    end.
Proof.
  intros Hmode HX HY HZ HR.
  destruct (absolute_mode_fields g) as (_ & _ & _ & _ & _ & _ & E7 & Eplane).
  set (params' := made_absolute g x y z r params).
  assert (HX' : params' !! "X" = Some (Units.add (CURRENT_X g) x))
    by (unfold params', made_absolute; now simplify_map_eq).
  assert (HY' : params' !! "Y" = Some (Units.add (CURRENT_Y g) y))
    by (unfold params', made_absolute; now simplify_map_eq).
  assert (HZ' : params' !! "Z" = Some (Units.add (Units.float_of (CURRENT_Z g)) z))
    by (unfold params', made_absolute; now simplify_map_eq).
  assert (HR' : params' !! "R" = Some (Units.add (Units.float_of (CURRENT_Z g)) r))
    by (unfold params', made_absolute; now simplify_map_eq).
  assert (Hother : forall k, k <> "X" -> k <> "Y" -> k <> "Z" -> k <> "R" ->
                             getitem params' k = getitem params k).
  { intros k ? ? ? ?. unfold getitem, params', made_absolute.
    now rewrite !lookup_insert_ne by congruence. }
  unfold cycle_numbers. run. unfold id. rewrite Hmode, E7.
  change (String.eqb "G91" "G90") with false.
  change (String.eqb "G90" "G90") with true. cbv iota. run.
  repeat first [ erewrite bind_getitem by eassumption | progress run ].
  run. rewrite Eplane, !Hother by discriminate.
  unfold getitem, bind.
  destruct (params !! "F"); [|reflexivity].
  destruct (String.eqb cmd "G83").
  { destruct (params !! "Q"); reflexivity. }
  destruct (String.eqb cmd "G82"); [|reflexivity].
  destruct (params !! "P"); reflexivity.
Qed.

Lemma cycle_numbers_reads_only cmd params g cyc g' :
  cycle_numbers cmd params g = Ok cyc g' -> g' = g.
Proof.
  unfold cycle_numbers, getitem. intros H. run_in H. unfold id in H.
  repeat first
    [ match type of H with
      | context [match ?d !! ?k with _ => _ end] => destruct (d !! k)
      | context [if ?b then _ else _] => destruct b
      end
    | progress run_in H ];
    try discriminate; now inversion H.
Qed.

(** X20.  With line numbers and comments off, a cycle met in relative
    mode (G91) whose X, Y, Z and R are given is written as the same cycle
    in absolute mode with X, Y, Z counted from the cached position and R
    from the cached Z, put between a [G90] line and a final [G91] that has
    no line end; the same exception is raised where the absolute cycle
    raises one; and the globals are left as they were. *)
Theorem relative_cycle_is_wrapped_absolute fuel outstring cmd params x y z r g :
  OUTPUT_LINE_NUMBERS g = false ->
  OUTPUT_COMMENTS g = false ->
  MOTION_MODE g = "G91" ->
  params !! "X" = Some x -> params !! "Y" = Some y ->
  params !! "Z" = Some z -> params !! "R" = Some r ->
  drill_translate fuel outstring cmd params g
  = wrapped_in_absolute g
      (drill_translate fuel outstring cmd (made_absolute g x y z r params)
         (set_MOTION_MODE "G90" g)).
Proof.
  intros Hq Hc Hmode HX HY HZ HR.
  destruct (absolute_mode_fields g) as (_ & E2 & _).
  unfold drill_translate, cycle_comment. run. rewrite E2, Hc. run.
  unfold bind.
  rewrite (cycle_numbers_wrapped cmd params x y z r g Hmode HX HY HZ HR).
  destruct (cycle_numbers cmd (made_absolute g x y z r params) (set_MOTION_MODE "G90" g))
    as [cyc g'|e g'|] eqn:Hnum; try reflexivity.
  apply cycle_numbers_reads_only in Hnum. subst g'.
  apply drill_moves_wrapped; assumption.
Qed.

Lemma relative_cycle_is_wrapped_absolute_witness :
  let g := set_CURRENT_Z (Units.Qty 10) (set_CURRENT_X 3 (set_MOTION_MODE "G91" quiet_globals)) in
  let params : gmap string Q :=
    list_to_map [("X", 1%Q); ("Y", 2%Q); ("Z", (-15)%Q); ("R", (-8)%Q); ("F", 5%Q)] in
  (OUTPUT_LINE_NUMBERS g = false /\ OUTPUT_COMMENTS g = false /\ MOTION_MODE g = "G91"
   /\ params !! "X" = Some 1%Q /\ params !! "Y" = Some 2%Q
   /\ params !! "Z" = Some (-15)%Q /\ params !! "R" = Some (-8)%Q)
  /\ drill_translate 0 ["G81"] "G81" params g
     = wrapped_in_absolute g
         (drill_translate 0 ["G81"] "G81" (made_absolute g 1 2 (-15) (-8) params)
            (set_MOTION_MODE "G90" g)).
Proof.
  intros g params.
  split; [repeat split|].
  exact (relative_cycle_is_wrapped_absolute 0 ["G81"] "G81" params 1 2 (-15) (-8) g
           eq_refl eq_refl eq_refl eq_refl eq_refl eq_refl eq_refl).
Defined.

(** The text of the witness: the hole is at X4 Y2 and its bottom at Z-5;
    under G98 the tool comes back to the height it started from. *)
Example relative_cycle_text :
  let g := set_CURRENT_Z (Units.Qty 10) (set_CURRENT_X 3 (set_MOTION_MODE "G91" quiet_globals)) in
  let params : gmap string Q :=
    list_to_map [("X", 1%Q); ("Y", 2%Q); ("Z", (-15)%Q); ("R", (-8)%Q); ("F", 5%Q)] in
  value_of (drill_translate 0 ["G81"] "G81" params g)
  = Some (unlines ["G90"; "G0 X4.000 Y2.000"; "G1 Z-5.000 F300.00"; "G0 Z10.000"]
          ++ "G91").
Proof. vm_compute. reflexivity. Qed.

(** ** The opening of the file *)

Lemma establish_modes_off buf g :
  OUTPUT_LINE_NUMBERS g = false ->
  let pre := PREAMBLE g in
  exists g',
    establish_modes buf g
    = Ok (buf ++ line_if (String.eqb (preamble_mode pre "") "") (MOTION_MODE g)
              ++ line_if (String.eqb (fst (fst (preamble_units pre ("", "", "")))) "")
                         (UNITS g)) g'
    /\ (UNITS g', UNIT_FORMAT g', UNIT_SPEED_FORMAT g')
       = preamble_units pre (UNITS g, UNIT_FORMAT g, UNIT_SPEED_FORMAT g)
    /\ MOTION_MODE g' = preamble_mode pre (MOTION_MODE g)
    /\ same_options g g'.
Proof.
  intros Hoff pre.
  unfold establish_modes, preamble_units, preamble_mode, line_if.
  destruct g as [h cm n e pr pa po l s d m u uf us x y z].
  cbn in Hoff. subst n. cbn in pre. subst pre.
  unfold same_options. run. cbn [PREAMBLE].
  destruct (Py.str_in "G90" pa), (Py.str_in "G91" pa),
    (Py.str_in "G71" pa), (Py.str_in "G21" pa),
    (Py.str_in "G70" pa), (Py.str_in "G20" pa);
    run; cbn [orb fst snd];
    rewrite ?numbered_run; unfold line_prefix, advance; cbn;
    eexists; (split; [rewrite ?string_app_nil_r, ?string_app_assoc; reflexivity|]);
    repeat split.
Qed.

(** X21.  With line numbering off, the part of the file between the header
    and the first operation is the preamble followed by a unit line that
    still carries the unit code in force before the preamble was looked
    at, then the old motion mode unless the preamble names one, then the
    old unit code once more unless the preamble names one.  The units the
    export works with afterwards are those of the preamble, metric codes
    winning over inch codes and G90 over G91; no option is changed. *)
Theorem preamble_sets_units_after_unit_line gcode g :
  OUTPUT_LINE_NUMBERS g = false ->
  let pre := PREAMBLE g in
  exists g',
    (gcode1 <- write_preamble gcode ;; establish_modes gcode1) g
    = Ok (gcode ++ line_if (OUTPUT_COMMENTS g) "(begin preamble)"
                ++ pre ++ line_if true (UNITS g)
                ++ line_if (String.eqb (preamble_mode pre "") "") (MOTION_MODE g)
                ++ line_if (String.eqb (fst (fst (preamble_units pre ("", "", "")))) "")
                           (UNITS g)) g'
    /\ (UNITS g', UNIT_FORMAT g', UNIT_SPEED_FORMAT g')
       = preamble_units pre (UNITS g, UNIT_FORMAT g, UNIT_SPEED_FORMAT g)
    /\ MOTION_MODE g' = preamble_mode pre (MOTION_MODE g)
    /\ same_options g g'.
Proof.
  intros Hoff pre.
  assert (Hwp : write_preamble gcode g
                = Ok (gcode ++ line_if (OUTPUT_COMMENTS g) "(begin preamble)"
                            ++ pre ++ line_if true (UNITS g)) g).
  { destruct (numbering_off g Hoff) as [Hp Ha].
    unfold write_preamble, line_if. run.
    destruct (OUTPUT_COMMENTS g); run; rewrite ?Hp, ?Ha;
      unfold bind at 1; rewrite emit_lines_off by exact Hoff; run;
      rewrite Hp, Ha, ?string_nil_app, ?string_app_assoc; reflexivity. }
  unfold bind at 1. rewrite Hwp.
  destruct (establish_modes_off
              (gcode ++ line_if (OUTPUT_COMMENTS g) "(begin preamble)"
                     ++ pre ++ line_if true (UNITS g)) g Hoff)
    as (g' & Hrun & Hrest).
  exists g'. split; [|exact Hrest].
  rewrite Hrun. fold pre. now rewrite !string_app_assoc.
Qed.

Lemma preamble_sets_units_after_unit_line_witness :
  let g := set_PREAMBLE ("G70" ++ nl) quiet_globals in
  OUTPUT_LINE_NUMBERS g = false
  /\ (let pre := PREAMBLE g in
      exists g',
        (gcode1 <- write_preamble "" ;; establish_modes gcode1) g
        = Ok ("" ++ line_if (OUTPUT_COMMENTS g) "(begin preamble)"
                 ++ pre ++ line_if true (UNITS g)
                 ++ line_if (String.eqb (preamble_mode pre "") "") (MOTION_MODE g)
                 ++ line_if (String.eqb (fst (fst (preamble_units pre ("", "", "")))) "")
                            (UNITS g)) g'
        /\ (UNITS g', UNIT_FORMAT g', UNIT_SPEED_FORMAT g')
           = preamble_units pre (UNITS g, UNIT_FORMAT g, UNIT_SPEED_FORMAT g)
        /\ MOTION_MODE g' = preamble_mode pre (MOTION_MODE g)
        /\ same_options g g').
Proof.
  intros g. split; [reflexivity|].
  exact (preamble_sets_units_after_unit_line "" g eq_refl).
Defined.

(** The opening of the witness: the inch code of the preamble is followed
    by the metric code that was in force, and the lengths are written in
    inches from there on. *)
Example inch_preamble_opening :
  let g := set_PREAMBLE ("G70" ++ nl) quiet_globals in
  match (gcode1 <- write_preamble "" ;; establish_modes gcode1) g with
  | Ok text g' => text = unlines ["G70"; "G71"; "G90"] /\ UNIT_FORMAT g' = "in"
  | _ => False
  end.
Proof. vm_compute. split; reflexivity. Qed.

(** ** A message, comments being on *)

(** X22.  With comments on, a [message] command never writes the word
    [message]: the code is taken off the token list, so the command writes
    nothing and uses no line number when it has no parameter of the order
    list, and writes a line made of its parameter tokens alone when it has
    some.  The text written so far is kept, and no global but the line
    counter changes. *)
Theorem message_with_comments_loses_its_code fuel c out last g :
  let tokens := flat_map (add_parameter g "message" c []) params_order in
  Name c = "message" ->
  OUTPUT_COMMENTS g = true ->
  parse_command fuel c (out, last) g
  = match tokens with
    | [] => Ok (out, Some "message") g
    | _ :: _ => Ok (iadd out (line_prefix g ++ format_outstring tokens ++ nl),
                    Some "message") (advance g)
    end.
Proof.
  intros tokens Hname Hcomments.
  unfold parse_command, tool_change, motion_bookkeeping. rewrite Hname.
  change (translate_code "message") with "message".
  repeat match goal with
         | |- context [Py.in_list "message" ?l] =>
             change (Py.in_list "message" l) with false
         end.
  change (String.eqb "message" "message") with true.
  rewrite andb_false_r. unfold MODAL. run. unfold id. rewrite Hcomments.
  cbn [negb]. rewrite add_parameters_app. cbn [app pop0]. fold tokens. run.
  destruct tokens; cbn [length Nat.leb]; run; reflexivity.
Qed.

Lemma message_with_comments_loses_its_code_witness :
  let c := command "message" [("P", 1%Q)] in
  let g := initial_globals in
  let tokens := flat_map (add_parameter g "message" c []) params_order in
  (Name c = "message" /\ OUTPUT_COMMENTS g = true)
  /\ parse_command 0 c (OStr "G0 X1", None) g
     = match tokens with
       | [] => Ok (OStr "G0 X1", Some "message") g
       | _ :: _ => Ok (iadd (OStr "G0 X1") (line_prefix g ++ format_outstring tokens ++ nl),
                       Some "message") (advance g)
       end.
Proof.
  intros c g tokens. split; [split; reflexivity|].
  exact (message_with_comments_loses_its_code 0 c (OStr "G0 X1") None g eq_refl eq_refl).
Defined.

(** ** The retract height once a Z is cached *)

Lemma Qcompare_self a : Py.Qltb a a = false /\ Py.Qgtb a a = false.
Proof.
  unfold Py.Qltb, Py.Qgtb.
  assert (H : Qle_bool a a = true) by (apply Qle_bool_iff, Qle_refl).
  now rewrite H.
Qed.

(** X23.  Once [CURRENT_Z] holds a Quantity, a G81 or G82 met in retract
    mode G98 with the current Z at or above the retract height computed
    from R is written, line numbers being off, as the rapid move to X and
    Y, the feed to the drill depth, the dwell for G82, and one retract,
    which goes to the current Z and not to R; no move in Z comes before
    the feed.  In relative mode these lines stand between [G90] and
    [G91]. *)
Theorem clamped_cycle_retracts_to_current_Z
    fuel x y z R speed step (pause : option Q) trBuff g cz :
  OUTPUT_LINE_NUMBERS g = false ->
  DRILL_RETRACT_MODE g = "G98" ->
  CURRENT_Z g = Units.Qty cz ->
  (R <= cz)%Q ->
  let cmd := match pause with Some _ => "G82" | None => "G81" end in
  let relative := String.eqb (MOTION_MODE g) "G91" in
  let length v := Py.format_f (PRECISION g) (Units.getValueAs v (UNIT_FORMAT g)) in
  drill_moves fuel cmd x y z (retract_plane g R) speed step pause trBuff g
  = Ok (trBuff
        ++ (if relative then "G90" ++ nl else "")
        ++ ("G0 X" ++ length x ++ " Y" ++ length y ++ nl)
        ++ ("G1 Z" ++ length z
            ++ " F" ++ Py.format_f 2 (Units.getValueAs speed (UNIT_SPEED_FORMAT g)) ++ nl)
        ++ match pause with
           | Some p => "G4 P" ++ Py.str_float p ++ nl
           | None => ""
           end
        ++ ("G0 Z" ++ length cz ++ nl)
        ++ (if relative then "G91" else "")) g.
Proof.
  intros Hoff Hmode HZ Hle cmd relative length.
  destruct (numbering_off g Hoff) as [Hp Ha].
  destruct (Qcompare_self cz) as [Hlt Hgt].
  rewrite retract_plane_clamped by (try assumption; now rewrite HZ).
  unfold drill_moves. run. unfold id. rewrite HZ. cbn [Units.float_of].
  rewrite Hlt, Hgt. fold relative. unfold cmd, length.
  destruct relative, pause as [p|];
    repeat first [ progress run_moves
                 | progress rewrite ?Hp, ?Ha, ?string_nil_app
                 | progress cbn [Py.in_list existsb String.eqb Ascii.eqb Bool.eqb orb] ];
    rewrite ?string_app_assoc, ?string_app_nil_r; reflexivity.
Qed.

Lemma clamped_cycle_retracts_to_current_Z_witness :
  let g := set_CURRENT_Z (Units.Qty 10) quiet_globals in
  (OUTPUT_LINE_NUMBERS g = false /\ DRILL_RETRACT_MODE g = "G98"
   /\ CURRENT_Z g = Units.Qty 10 /\ (2 <= 10)%Q)
  /\ drill_moves 0 "G82" 1 2 (-5) (retract_plane g 2) 5 None (Some (1 # 2)) "" g
     = Ok ("" ++ ""
           ++ ("G0 X" ++ "1.000" ++ " Y" ++ "2.000" ++ nl)
           ++ ("G1 Z" ++ "-5.000" ++ " F" ++ "300.00" ++ nl)
           ++ ("G4 P" ++ "0.5" ++ nl)
           ++ ("G0 Z" ++ "10.000" ++ nl)
           ++ "") g.
Proof.
  intros g.
  assert (H4 : (2 <= 10)%Q) by (vm_compute; discriminate).
  split; [repeat split; exact H4|].
  exact (clamped_cycle_retracts_to_current_Z 0 1 2 (-5) 2 5 None (Some (1 # 2)) "" g 10
           eq_refl eq_refl eq_refl H4).
Defined.
